(** * Episode multi-agent workflow: state tracker, audio directors, orchestrator

    A shallow embedding of the TypeScript agents of [packages/agents/src]
    and of the database tools they are given, with the properties of the
    workflow stated over it.

    Where the code is, by the path it is imported under and the file of
    the sources that holds it:
    - episodes/state-agent.ts: episodes/sfx-agent.ts, after the SFX agent;
    - episodes/orchestrator.ts: episodes/music-agent.ts, after the music
      agent;
    - episodes/scene-planner.ts: unnamed/part_006;
    - tools/episode-bible-tools.ts: unnamed/part_007, after the audio tools;
    - the tests of the workflow: unnamed/part_005.

    Conventions of the embedding.
    - A JavaScript [number] that counts scenes is a [Z] (scene numbers are
      integers); a [number] that a zod schema bounds by a decimal constant
      (durations, prompt influence) is a [Q].
    - A call to the structured-generation provider ([generateObject]) is an
      argument of the embedded function: the object the provider produced,
      before validation.  The zod schema of the call is a boolean predicate
      and [generateObject] rejects every object the schema rejects.
    - An [async] function that can throw returns a [result].
    - The program runs with its TypeScript types erased: where a call
      passes arguments in other positions than the parameters expect, the
      callee gets the values it was passed ([JsValue]). *)

From Stdlib Require Import ZArith QArith Lia Lqa List Bool Sorted.
From stdpp Require Import base list strings gmap pretty.

Local Open Scope string_scope.
Local Open Scope list_scope.
Local Open Scope Z_scope.

(** ** Errors and results *)

Inductive Error : Type :=
| TypeError (message : string)          (* thrown by the JavaScript runtime *)
| GenerationError                       (* the provider call rejected *)
| PlainError (message : string).        (* [throw new Error(message)] *)

Inductive result (T : Type) : Type :=
| Ok (value : T)
| Err (error : Error).
Arguments Ok {T} value.
Arguments Err {T} error.

Definition is_ok {T : Type} (r : result T) : bool :=
  match r with Ok _ => true | Err _ => false end.

(** ** base/types.ts *)

Inductive Choice : Type := ChoiceA | ChoiceB.

Record Anchor : Type := mkAnchor {
  anchor_id : string;
  description : string;
  isUsed : bool;
  createdAtScene : Z
}.

(** [themes] is not a field of the interface, but the state agent writes it
    and the object spread copies it when it is there. *)
Record StateCard : Type := mkStateCard {
  storySoFar : string;
  keyFacts : list string;
  themes : option (list string);
  anchors : list Anchor
}.

Inductive Priority : Type := Low | Medium | High.

Inductive AudioType : Type := Music | Sfx.

(** The Episode Bible of base/types.ts. *)
Inductive Pacing : Type := Fast | ModeratePace | Slow.
Inductive Complexity : Type := Simple | ModerateComplexity | Complex.
Inductive Intensity : Type := Subtle | Moderate | Dramatic.

Record WorldRules : Type := mkWorldRules {
  genre : string;
  style : string;
  tone : string;
  setting : string;
  timeframe : string;
  coreConflict : string;
  worldLogic : list string
}.

Record StorytellingGuidelines : Type := mkStorytellingGuidelines {
  narrativeVoice : string;
  pacing : Pacing;
  complexity : Complexity;
  atmosphereKeywords : list string;
  choicePhilosophy : string;
  sceneStructureNotes : string
}.

Record CharacterFramework : Type := mkCharacterFramework {
  protagonistTypes : list string;
  antagonistTypes : list string;
  supportingTypes : list string;
  characterVoiceGuidelines : string
}.

Record ConflictPatterns : Type := mkConflictPatterns {
  typicalConflicts : list string;
  escalationPattern : string;
  resolutionApproach : string
}.

Record AudioDirection : Type := mkAudioDirection {
  musicStyle : string;
  commonSFXTypes : list string;
  audioIntensityRange : Intensity;
  atmosphereNotes : string
}.

Record StoryArcGuidance : Type := mkStoryArcGuidance {
  expectedProgression : string;
  keyFactTypes : list string;
  likelyAnchorTypes : list string;
  finaleExpectation : string
}.

Record EpisodeBible : Type := mkEpisodeBible {
  worldRules : WorldRules;
  storytellingGuidelines : StorytellingGuidelines;
  characterFramework : CharacterFramework;
  conflictPatterns : ConflictPatterns;
  audioDirection : AudioDirection;
  storyArcGuidance : StoryArcGuidance;
  consistencyRules : list string;
  reasoning : string
}.

Inductive Scalar : Type :=
| ScalarString (s : string)
| ScalarNumber (q : Q)
| ScalarBool (b : bool).

Record StateUpdate : Type := mkStateUpdate {
  newLocation : option string;
  newCharacters : option (list string);
  obtainedItems : option (list string);
  lostItems : option (list string);
  statusChanges : option (list (string * Scalar))
}.

Record PlannedCue : Type := mkPlannedCue {
  planned_type : AudioType;
  planned_trigger : string;
  planned_description : string;
  planned_timing : option Q;
  planned_priority : Priority;
  planned_duration : option Q;
  planned_intensity : Intensity;
  planned_audioDirection : string
}.

(** What [generateScene] returns. *)
Record SceneData : Type := mkSceneData {
  data_narration : string;
  data_choiceA : string;
  data_choiceB : string;
  data_stateUpdate : StateUpdate;
  data_audioCues : list PlannedCue
}.

Record Scene : Type := mkScene {
  scene_id : string;
  episodeId : string;
  sceneNumber : Z;
  narration : string;
  choiceA : string;
  choiceB : string;
  chosenOption : option Choice;
  stateUpdate : StateUpdate;
  audioCues : list PlannedCue;
  createdAt : string
}.

Inductive CallbackType : Type :=
| CallbackItem | CallbackCharacter | CallbackPromise | CallbackMystery
| CallbackNone.

(** What [ContinuityAgent.analyzeCallbacks] returns. *)
Record CallbackSuggestion : Type := mkCallbackSuggestion {
  shouldUseCallback : bool;
  suggestedAnchor : option Anchor;
  callbackType : CallbackType;
  reason : string;
  integration : option string
}.

(** The values that reach the parameters of [generateScene] at run time.
    The parameter types of the method are erased by then, so a call with
    the arguments in other positions runs with what it was given. *)
Inductive JsValue : Type :=
| JsUndefined
| JsNumber (n : Z)
| JsStateCard (card : StateCard)
| JsEpisodeBible (bible : EpisodeBible)
| JsCallback (suggestion : CallbackSuggestion).

(** ** Structured generation

    [generateObject] hands back the object of the provider when the zod
    schema of the call accepts it and rejects otherwise.  [generated] is
    what the provider answered: an object with the field types of the
    schema, or a failure of the call. *)

Definition generateObject {T : Type} (schema : T -> bool)
    (generated : result T) : result T :=
  match generated with
  | Ok object => if schema object then Ok object else Err GenerationError
  | Err e => Err e
  end.

(** [z.number().min(lo).max(hi)] *)
Definition inRange (lo hi x : Q) : bool := Qle_bool lo x && Qle_bool x hi.

(** [String.prototype.includes] *)
Fixpoint includes (s sub : string) : bool :=
  if String.prefix sub s then true
  else match s with
       | EmptyString => false
       | String _ rest => includes rest sub
       end.

(** [.optional().nullable()] *)
Inductive Nullable (T : Type) : Type :=
| Undefined
| Null
| Value (v : T).
Arguments Undefined {T}.
Arguments Null {T}.
Arguments Value {T} v.

(** ** State agent (episodes/state-agent.ts; in the sources it follows the
    SFX agent in episodes/sfx-agent.ts) *)

Module StateAgent.

(** The object [generateObject] yields in [updateStateCard]; its schema
    puts no bound on any field. *)
Record StateUpdateObject : Type := mkStateUpdateObject {
  u_storySoFar : string;
  u_keyFacts : list string;
  u_anchors : list Anchor;
  u_reasoning : string
}.

(** The object [generateObject] yields in [initializeStateCard]:
    [isUsed] and [createdAtScene] may be missing and then take the
    defaults [false] and [0]. *)
Record InitialAnchor : Type := mkInitialAnchor {
  i_id : string;
  i_description : string;
  i_isUsed : option bool;
  i_createdAtScene : option Z
}.

Record InitialStateObject : Type := mkInitialStateObject {
  i_storySoFar : string;
  i_keyFacts : list string;
  i_anchors : list InitialAnchor
}.

Definition parseInitialAnchor (a : InitialAnchor) : Anchor :=
  {| anchor_id := i_id a;
     description := i_description a;
     isUsed := default false (i_isUsed a);
     createdAtScene := default 0 (i_createdAtScene a) |}.

Definition updateStateCard (generated : result StateUpdateObject)
    (currentStateCard : StateCard) (newScene : Scene)
    (chosenOption : Choice) (allPreviousScenes : list Scene)
    : result StateCard :=
  match generated with
  | Err e => Err e
  | Ok updatedStateCard =>
      Ok {| storySoFar := u_storySoFar updatedStateCard;
            keyFacts := u_keyFacts updatedStateCard;
            themes := Some [];
            anchors := u_anchors updatedStateCard |}
  end.

Definition initializeStateCard (generated : result InitialStateObject)
    (premise : string) : result StateCard :=
  match generated with
  | Err e => Err e
  | Ok initialState =>
      Ok {| storySoFar := i_storySoFar initialState;
            keyFacts := i_keyFacts initialState;
            themes := Some [];
            anchors := List.map parseInitialAnchor (i_anchors initialState) |}
  end.

Definition useAnchor (anchorId : string) (anchor : Anchor) : Anchor :=
  if String.eqb (anchor_id anchor) anchorId
  then {| anchor_id := anchor_id anchor;
          description := description anchor;
          isUsed := true;
          createdAtScene := createdAtScene anchor |}
  else anchor.

Definition markAnchorAsUsed (stateCard : StateCard) (anchorId : string)
    : StateCard :=
  {| storySoFar := storySoFar stateCard;
     keyFacts := keyFacts stateCard;
     themes := themes stateCard;
     anchors := List.map (useAnchor anchorId) (anchors stateCard) |}.

(** The two literals of [cleanupStateCard]. *)
Definition maxAgeScenes : Z := 8.
Definition maxKeyFacts : nat := 10.

(** [Array.prototype.slice(-n)] for [n > 0]: the last [n] elements, the
    whole array when it is shorter. *)
Definition slice_last {T : Type} (n : nat) (l : list T) : list T :=
  List.skipn (length l - n) l.

Definition keepAnchor (currentSceneNumber : Z) (anchor : Anchor) : bool :=
  let sceneAge := currentSceneNumber - createdAtScene anchor in
  isUsed anchor || (sceneAge <? maxAgeScenes).

Definition cleanupStateCard (stateCard : StateCard) (currentSceneNumber : Z)
    : StateCard :=
  let cleanedAnchors :=
    List.filter (keepAnchor currentSceneNumber) (anchors stateCard) in
  let recentKeyFacts := slice_last maxKeyFacts (keyFacts stateCard) in
  {| storySoFar := storySoFar stateCard;
     keyFacts := recentKeyFacts;
     themes := Some [];
     anchors := cleanedAnchors |}.

(** The operations of the state tracker that call no provider. *)
Inductive LocalOp : Type :=
| MarkAnchorUsed (anchorId : string)
| Cleanup (currentSceneNumber : Z).

Definition applyLocalOp (stateCard : StateCard) (op : LocalOp) : StateCard :=
  match op with
  | MarkAnchorUsed anchorId => markAnchorAsUsed stateCard anchorId
  | Cleanup n => cleanupStateCard stateCard n
  end.

Definition applyLocalOps (stateCard : StateCard) (ops : list LocalOp)
    : StateCard :=
  List.fold_left applyLocalOp ops stateCard.

(** What the spec calls garbage: unused and at least [maxAgeScenes] old. *)
Definition stale (currentSceneNumber : Z) (anchor : Anchor) : bool :=
  negb (isUsed anchor)
  && (maxAgeScenes <=? currentSceneNumber - createdAtScene anchor).

(** The life of one anchor between two state cards: same identity, and a
    flag that was set stays set. *)
Definition anchor_ages (before after : Anchor) : Prop :=
  anchor_id after = anchor_id before
  /\ description after = description before
  /\ createdAtScene after = createdAtScene before
  /\ (isUsed before = true -> isUsed after = true).

(** The life of an anchor list: anchors are dropped or age in place. *)
Inductive lifecycle : list Anchor -> list Anchor -> Prop :=
| lifecycle_nil : lifecycle [] []
| lifecycle_drop a l l' : lifecycle l l' -> lifecycle (a :: l) l'
| lifecycle_keep a a' l l' :
    anchor_ages a a' -> lifecycle l l' -> lifecycle (a :: l) (a' :: l').

End StateAgent.

(** ** Music agent (episodes/music-agent.ts) *)

Module MusicAgent.

Record MusicTrack : Type := mkMusicTrack {
  track_prompt : string;
  track_duration : Q;
  track_isInstrumental : bool;
  track_priority : Priority;
  track_trigger : string;
  track_description : string
}.

Definition MusicTrackSchema (track : MusicTrack) : bool :=
  inRange 10000 300000 (track_duration track).

Record MusicMetadata : Type := mkMusicMetadata {
  elevenLabsPrompt : string;
  durationMs : Q;
  isInstrumental : bool;
  priority : Priority;
  agent : string;
  sceneNumber : Z;
  estimatedDurationSeconds : Q
}.

Record MusicCue : Type := mkMusicCue {
  type : AudioType;
  trigger : string;
  cue_description : string;
  timing : Q;
  metadata : MusicMetadata
}.

(** The word the prompts ask for and the tests look for in the realized
    prompt. *)
Definition instrumentalMarker : string := "instrumental only".

Definition generateSceneMusic (generated : result MusicTrack)
    (episodeBible : EpisodeBible) (narration : string)
    (sceneNumber : Z) (estimatedDurationSeconds : Q) : result MusicCue :=
  match generateObject MusicTrackSchema generated with
  | Err e => Err e
  | Ok track =>
      Ok {| type := Music;
            trigger := track_trigger track;
            cue_description := track_description track;
            timing := 0%Q;
            metadata :=
              {| elevenLabsPrompt := track_prompt track;
                 durationMs := track_duration track;
                 isInstrumental := track_isInstrumental track;
                 priority := track_priority track;
                 agent := "MusicAgent";
                 sceneNumber := sceneNumber;
                 estimatedDurationSeconds := estimatedDurationSeconds |} |}
  end.

End MusicAgent.

(** ** SFX agent (episodes/sfx-agent.ts) *)

Module SFXAgent.

Inductive Category : Type :=
| CatSimple | CatComplex | CatMusical | CatAmbient | CatImpact | CatOneShot.

(** One entry of [soundEffects] as the provider writes it: the two fields
    with a [.default(...)] may be missing. *)
Record SoundEffect : Type := mkSoundEffect {
  sfx_text : string;
  sfx_trigger : string;
  sfx_durationSeconds : Nullable Q;
  sfx_promptInfluence : option Q;
  sfx_loop : option bool;
  sfx_timing : Q;
  sfx_priority : Priority;
  sfx_category : Category
}.

Definition durationOk (d : Nullable Q) : bool :=
  match d with
  | Value seconds => inRange (1 # 2) 30 seconds
  | Undefined | Null => true
  end.

Definition influenceOk (p : option Q) : bool :=
  match p with
  | Some x => inRange 0 1 x
  | None => true
  end.

Definition soundEffectOk (sfx : SoundEffect) : bool :=
  durationOk (sfx_durationSeconds sfx) && influenceOk (sfx_promptInfluence sfx).

Definition SFXSchema (soundEffects : list SoundEffect) : bool :=
  forallb soundEffectOk soundEffects && (length soundEffects <=? 8)%nat.

Record SfxMetadata : Type := mkSfxMetadata {
  elevenLabsText : string;
  durationSeconds : Nullable Q;
  promptInfluence : Q;
  loop : bool;
  priority : Priority;
  category : Category;
  agent : string;
  sceneNumber : option Z;
  isAmbient : option bool
}.

Record SfxCue : Type := mkSfxCue {
  type : AudioType;
  trigger : string;
  cue_description : string;
  timing : Q;
  metadata : SfxMetadata
}.

Definition toCue (sceneNumber : Z) (sfx : SoundEffect) : SfxCue :=
  {| type := Sfx;
     trigger := sfx_trigger sfx;
     cue_description := sfx_text sfx;
     timing := sfx_timing sfx;
     metadata :=
       {| elevenLabsText := sfx_text sfx;
          durationSeconds := sfx_durationSeconds sfx;
          promptInfluence := default (3 # 10)%Q (sfx_promptInfluence sfx);
          loop := default false (sfx_loop sfx);
          priority := sfx_priority sfx;
          category := sfx_category sfx;
          agent := "SFXAgent";
          sceneNumber := Some sceneNumber;
          isAmbient := None |} |}.

Definition generateSceneSFX (generated : result (list SoundEffect))
    (episodeBible : EpisodeBible) (narration : string) (sceneNumber : Z)
    : result (list SfxCue) :=
  match generateObject SFXSchema generated with
  | Err e => Err e
  | Ok soundEffects => Ok (List.map (toCue sceneNumber) soundEffects)
  end.

Record AmbientSound : Type := mkAmbientSound {
  amb_text : string;
  amb_durationSeconds : Q;
  amb_promptInfluence : option Q
}.

Definition AmbientSchema (ambient : AmbientSound) : bool :=
  inRange 15 30 (amb_durationSeconds ambient)
  && influenceOk (amb_promptInfluence ambient).

Definition generateAmbientSoundscape (generated : result AmbientSound)
    (episodeBible : EpisodeBible) (sceneLocation sceneAtmosphere : string)
    : result SfxCue :=
  match generateObject AmbientSchema generated with
  | Err e => Err e
  | Ok ambient =>
      Ok {| type := Sfx;
            trigger := "[SFX=ambient_background]";
            cue_description := amb_text ambient;
            timing := 0%Q;
            metadata :=
              {| elevenLabsText := amb_text ambient;
                 durationSeconds := Value (amb_durationSeconds ambient);
                 promptInfluence :=
                   default (2 # 10)%Q (amb_promptInfluence ambient);
                 loop := true;
                 priority := Low;
                 category := CatAmbient;
                 agent := "SFXAgent";
                 sceneNumber := None;
                 isAmbient := Some true |} |}
  end.

End SFXAgent.

(** ** Scene planner (episodes/scene-planner.ts) *)

Module ScenePlanner.

(** The values the prompt of [generateScene] interpolates. *)
Record SceneRequest : Type := mkSceneRequest {
  req_sceneNumber : JsValue;
  req_premise : string;
  req_episodeBible : JsValue;
  req_storySoFar : string;
  req_keyFacts : list string;
  req_activeAnchors : list string;
  req_callback : option (string * option string)
}.

Definition Provider : Type := SceneRequest -> result SceneData.

Definition callbackOpportunity (callbackSuggestion : JsValue)
    : option (string * option string) :=
  match callbackSuggestion with
  | JsCallback suggestion =>
      if shouldUseCallback suggestion
      then Some (reason suggestion,
                 option_map description (suggestedAnchor suggestion))
      else None
  | _ => None
  end.

(** The prompt is built before the provider is called.  It reads
    [stateCard.storySoFar], [stateCard.keyFacts.join] and
    [stateCard.anchors.filter]: on [undefined] the first read throws, on
    any other value that is not a state card [keyFacts] is [undefined] and
    [.join] throws. *)
Definition generateScene (provider : Provider) (premise : string)
    (episodeBible stateCard sceneNumber callbackSuggestion : JsValue)
    : result SceneData :=
  match stateCard with
  | JsStateCard card =>
      match provider
              {| req_sceneNumber := sceneNumber;
                 req_premise := premise;
                 req_episodeBible := episodeBible;
                 req_storySoFar := storySoFar card;
                 req_keyFacts := keyFacts card;
                 req_activeAnchors :=
                   List.map description
                     (List.filter (fun a => negb (isUsed a)) (anchors card));
                 req_callback := callbackOpportunity callbackSuggestion |}
      with
      | Ok scene =>
          Ok {| data_narration := data_narration scene;
                data_choiceA := data_choiceA scene;
                data_choiceB := data_choiceB scene;
                data_stateUpdate := data_stateUpdate scene;
                data_audioCues := data_audioCues scene |}
      | Err e => Err e
      end
  | JsUndefined =>
      Err (TypeError
             "Cannot read properties of undefined (reading 'storySoFar')")
  | _ =>
      Err (TypeError "Cannot read properties of undefined (reading 'join')")
  end.

End ScenePlanner.

(** ** Database tools (tools/episode-tools.ts, tools/episode-bible-tools.ts,
    supabase/schemas/16-episode-bible.sql)

    The two tables the properties speak of.  The handle is authorized and
    the account and the user of an episode exist. *)

Module Database.

Inductive Status : Type := Active | Completed | Abandoned.

Record EpisodeRow : Type := mkEpisodeRow {
  row_id : string;
  account_id : string;
  created_by : string;
  title : string;
  premise : string;
  state_card : StateCard;
  status : Status;
  created_at : string;
  completed_at : option string;
  total_scenes : Z;
  total_choices : Z
}.

(** A row of [episode_bibles]: [id uuid primary key default
    gen_random_uuid()], [episode_id uuid not null references episodes(id)]
    under the unique index [episode_bibles_unique_per_episode], and the
    columns of the bible, one for each field.  The uuid of a row is a
    number, and [gen_random_uuid()] the next number not yet handed out. *)
Record BibleRow : Type := mkBibleRow {
  bible_id : nat;
  bible_episode_id : string;
  bible_columns : EpisodeBible
}.

Record World : Type := mkWorld {
  episodes : list EpisodeRow;
  episode_bibles : list BibleRow;
  next_uuid : nat
}.

(** [.single()]: the row when the query yields exactly one, and otherwise
    no data and the error PGRST116. *)
Definition single {T : Type} (rows : list T) : option T :=
  match rows with
  | [row] => Some row
  | _ => None
  end.

Definition episodeWithId (w : World) (episodeId : string)
    : list EpisodeRow :=
  List.filter (fun e => String.eqb (row_id e) episodeId) (episodes w).

Definition biblesOf (w : World) (episodeId : string) : list BibleRow :=
  List.filter (fun b => String.eqb (bible_episode_id b) episodeId)
    (episode_bibles w).

Definition updateEpisodes (w : World) (episodeId : string)
    (change : EpisodeRow -> EpisodeRow) : World :=
  {| episodes :=
       List.map (fun e => if String.eqb (row_id e) episodeId
                          then change e else e) (episodes w);
     episode_bibles := episode_bibles w;
     next_uuid := next_uuid w |}.

(** [.upsert(dbData)] with no [onConflict]: the conflict target is the
    primary key, [dbData] has no [id], so the row takes a new uuid and the
    statement is an insert.  The foreign key asks for the episode, and the
    unique index on [episode_id] for no row of the episode: a second row
    for an episode is a unique violation, not a conflict on the primary
    key, so it is refused and not merged. *)
Definition upsertBible (w : World) (episodeId : string)
    (bible : EpisodeBible) : option (BibleRow * World) :=
  match episodeWithId w episodeId, biblesOf w episodeId with
  | _ :: _, [] =>
      let row := {| bible_id := next_uuid w;
                    bible_episode_id := episodeId;
                    bible_columns := bible |} in
      Some (row,
            {| episodes := episodes w;
               episode_bibles := episode_bibles w ++ [row];
               next_uuid := S (next_uuid w) |})
  | _, _ => None
  end.

(** The columns [total_scenes] and [total_choices] are [integer]: a
    counter outside the 32-bit range is refused by the cast, and the
    statement that carries it changes nothing.  The counters of a call
    are whole numbers here; a number with a fraction is refused by the
    same cast. *)
Definition int4 (n : Z) : bool :=
  (-2147483648 <=? n) && (n <=? 2147483647).

(** The parameter of [saveEpisode]. *)
Record EpisodeInput : Type := mkEpisodeInput {
  in_id : option string;
  in_accountId : string;
  in_createdBy : string;
  in_title : string;
  in_premise : string;
  in_stateCard : StateCard;
  in_status : Status;
  in_totalScenes : Z;
  in_totalChoices : Z
}.

(** What a tool call yields.  [ToolFailure] is [{ success: false, error }];
    a tool whose [execute] rejects has no result ([ToolThrew]). *)
Inductive ToolResult : Type :=
| StoryDirectorResult (bible : EpisodeBible)
| StateInitialized (stateCard : StateCard)
| StateUpdated (updatedStateCard : StateCard)
| EpisodeSaved (episode : EpisodeRow)
| EpisodeLoaded (episode : EpisodeRow)
| EpisodeStatsUpdated (episode : EpisodeRow)
| BibleSaved (id : nat)
| BibleChecked (found : bool)
| BibleLoaded (bible : option EpisodeBible)
| OtherResult
| ToolFailure
| ToolThrew.

Definition applyEpisodeData (episode : EpisodeInput) (row : EpisodeRow)
    : EpisodeRow :=
  {| row_id := row_id row;
     account_id := in_accountId episode;
     created_by := in_createdBy episode;
     title := in_title episode;
     premise := in_premise episode;
     state_card := in_stateCard episode;
     status := in_status episode;
     created_at := created_at row;
     completed_at := completed_at row;
     total_scenes := in_totalScenes episode;
     total_choices := in_totalChoices episode |}.

(** [generatedId] and [now] are the defaults of the columns [id] and
    [created_at] on an insert. *)
Definition saveEpisode (w : World) (episode : EpisodeInput)
    (generatedId now : string) : ToolResult * World :=
  if negb (int4 (in_totalScenes episode) && int4 (in_totalChoices episode))
  then (ToolFailure, w) else
  let update (episodeId : string) :=
    let w' := updateEpisodes w episodeId (applyEpisodeData episode) in
    match single (episodeWithId w' episodeId) with
    | Some row => (EpisodeSaved row, w')
    | None => (ToolFailure, w')
    end in
  let insert :=
    match episodeWithId w generatedId with
    | _ :: _ => (ToolFailure, w)
    | [] =>
        let row :=
          applyEpisodeData episode
            {| row_id := generatedId; account_id := ""; created_by := "";
               title := ""; premise := "";
               state_card := in_stateCard episode; status := Active;
               created_at := now; completed_at := None;
               total_scenes := 0; total_choices := 0 |} in
        (EpisodeSaved row,
         {| episodes := episodes w ++ [row];
            episode_bibles := episode_bibles w;
            next_uuid := next_uuid w |})
    end in
  match in_id episode with
  | Some episodeId => if String.eqb episodeId "" then insert
                      else update episodeId
  | None => insert
  end.

Definition loadEpisode (w : World) (episodeId : string)
    : ToolResult * World :=
  match single (episodeWithId w episodeId) with
  | Some row => (EpisodeLoaded row, w)
  | None => (ToolFailure, w)
  end.

Definition applyStats (totalScenes totalChoices : Z)
    (newStatus : option Status) (now : string) (row : EpisodeRow)
    : EpisodeRow :=
  {| row_id := row_id row;
     account_id := account_id row;
     created_by := created_by row;
     title := title row;
     premise := premise row;
     state_card := state_card row;
     status := default (status row) newStatus;
     created_at := created_at row;
     completed_at :=
       match newStatus with
       | Some Completed => Some now
       | _ => completed_at row
       end;
     total_scenes := totalScenes;
     total_choices := totalChoices |}.

Definition updateEpisodeStats (w : World) (episodeId : string)
    (totalScenes totalChoices : Z) (newStatus : option Status)
    (now : string) : ToolResult * World :=
  if negb (int4 totalScenes && int4 totalChoices) then (ToolFailure, w) else
  let w' :=
    updateEpisodes w episodeId
      (applyStats totalScenes totalChoices newStatus now) in
  match single (episodeWithId w' episodeId) with
  | Some row => (EpisodeStatsUpdated row, w')
  | None => (ToolFailure, w')
  end.

Definition loadEpisodeBible (w : World) (episodeId : string)
    : ToolResult * World :=
  match single (biblesOf w episodeId) with
  | None => (BibleLoaded None, w)
  | Some data => (BibleLoaded (Some (bible_columns data)), w)
  end.

Definition saveEpisodeBible (w : World) (episodeId : string)
    (bible : EpisodeBible) : ToolResult * World :=
  match upsertBible w episodeId bible with
  | Some (data, w') => (BibleSaved (bible_id data), w')
  | None => (ToolFailure, w)
  end.

Definition checkEpisodeBibleExists (w : World) (episodeId : string)
    : ToolResult * World :=
  match single (biblesOf w episodeId) with
  | Some _ => (BibleChecked true, w)
  | None => (BibleChecked false, w)
  end.

Definition statusOf (w : World) (episodeId : string) : option Status :=
  option_map status (single (episodeWithId w episodeId)).

End Database.

(** ** Orchestrator (episodes/orchestrator.ts; in the sources it follows
    the music agent in episodes/music-agent.ts) *)

Module Orchestrator.

Record ScenarioWindow : Type := mkScenarioWindow {
  current : option Scene;
  optionA : option Scene;
  optionB : option Scene
}.

Record State : Type := mkState {
  episodeBible : option EpisodeBible;
  scenarioWindow : ScenarioWindow
}.

Definition initial : State :=
  {| episodeBible := None;
     scenarioWindow :=
       {| current := None; optionA := None; optionB := None |} |}.

Definition hasEpisodeBible (this : State) : bool :=
  match episodeBible this with Some _ => true | None => false end.

Definition storeEpisodeBible (this : State) (bible : EpisodeBible) : State :=
  {| episodeBible := Some bible; scenarioWindow := scenarioWindow this |}.

Definition getEpisodeBible (this : State) : result EpisodeBible :=
  match episodeBible this with
  | Some bible => Ok bible
  | None =>
      Err (PlainError
             "Episode Bible not available. Must create Episode Bible before generating scenes.")
  end.

(** The two workers the child generation calls.  The scene planner is
    called through its method, with the argument values of the call. *)
Definition ScenePlannerMethod : Type :=
  string -> JsValue -> JsValue -> JsValue -> JsValue -> result SceneData.

Definition ContinuityMethod : Type :=
  StateCard -> string -> result CallbackSuggestion.

(** [Date.now()] printed, and [new Date().toISOString()]. *)
Record Clock : Type := mkClock {
  dateNow : string;
  isoString : string
}.

Definition choiceLetter (choice : Choice) : string :=
  match choice with ChoiceA => "A" | ChoiceB => "B" end.

Definition choiceTextOf (scene : Scene) (choice : Choice) : string :=
  match choice with ChoiceA => choiceA scene | ChoiceB => choiceB scene end.

Definition projectStateForChoice (stateCard : StateCard) (scene : Scene)
    (choice : Choice) : StateCard :=
  let choiceText := choiceTextOf scene choice in
  {| storySoFar := storySoFar stateCard +:+ " " +:+ choiceText;
     keyFacts := keyFacts stateCard ++ ["Chose: " +:+ choiceText];
     themes := themes stateCard;
     anchors := anchors stateCard |}.

(** The arguments of the one call of [generateScene] in
    [coordinateChildScenario], in the order they are written: four of
    them, so the fifth parameter is [undefined]. *)
Definition childSceneArguments (stateCard : StateCard) (parentScene : Scene)
    (choice : Choice) (callbackSuggestion : CallbackSuggestion)
    : JsValue * JsValue * JsValue * JsValue :=
  let projectedStateCard :=
    projectStateForChoice stateCard parentScene choice in
  (JsStateCard projectedStateCard,
   JsNumber (sceneNumber parentScene + 1),
   (if shouldUseCallback callbackSuggestion
    then JsCallback callbackSuggestion else JsUndefined),
   JsUndefined).

Definition coordinateChildScenario (generateScene : ScenePlannerMethod)
    (clock : Clock) (premise : string) (stateCard : StateCard)
    (parentScene : Scene) (choice : Choice)
    (callbackSuggestion : CallbackSuggestion) : result Scene :=
  let '(second, third, fourth, fifth) :=
    childSceneArguments stateCard parentScene choice callbackSuggestion in
  match generateScene premise second third fourth fifth with
  | Err e => Err e
  | Ok sceneData =>
      Ok {| scene_id :=
              "temp_" +:+ scene_id parentScene +:+ "_"
              +:+ choiceLetter choice +:+ "_" +:+ dateNow clock;
            episodeId := episodeId parentScene;
            sceneNumber := sceneNumber parentScene + 1;
            narration := data_narration sceneData;
            choiceA := data_choiceA sceneData;
            choiceB := data_choiceB sceneData;
            chosenOption := None;
            stateUpdate := data_stateUpdate sceneData;
            audioCues := data_audioCues sceneData;
            createdAt := isoString clock |}
  end.

Definition setOptions (this : State) (a b : option Scene) : State :=
  {| episodeBible := episodeBible this;
     scenarioWindow :=
       {| current := current (scenarioWindow this);
          optionA := a;
          optionB := b |} |}.

Definition upcomingContext (parentScene : Scene) : string :=
  "Following choice A: " +:+ choiceA parentScene
  +:+ " or choice B: " +:+ choiceB parentScene.

(** [Promise.all] resolves when both branches resolve and rejects when
    one rejects; the two assignments to the window follow the [await].
    When both branches reject the error of branch A is the one reported
    here (in the program it is the one that rejects first). *)
Definition coordinateChildGeneration (generateScene : ScenePlannerMethod)
    (analyzeCallbacks : ContinuityMethod) (clockA clockB : Clock)
    (this : State) (premise : string) (stateCard : StateCard)
    (parentScene : Scene) : result unit * State :=
  match analyzeCallbacks stateCard (upcomingContext parentScene) with
  | Err e => (Err e, this)
  | Ok callbackSuggestion =>
      let branchA :=
        coordinateChildScenario generateScene clockA premise stateCard
          parentScene ChoiceA callbackSuggestion in
      let branchB :=
        coordinateChildScenario generateScene clockB premise stateCard
          parentScene ChoiceB callbackSuggestion in
      match branchA, branchB with
      | Ok optionAScene, Ok optionBScene =>
          (Ok tt, setOptions this (Some optionAScene) (Some optionBScene))
      | Err e, _ => (Err e, this)
      | Ok _, Err e => (Err e, this)
      end
  end.

(** *** The orchestration call

    [startEpisode] and [processChoice] begin with a [generateText] call
    that hands a set of tools to the orchestrating model.  The model picks
    the calls, seeing the results so far; the run executes each picked
    tool on the orchestrator and the database. *)

Import Database.

(** The arguments of [delegateToStateAgent] by task, with the answer of
    the provider.  A premise the model left out prints as "undefined". *)
Inductive StateTask : Type :=
| InitializeTask (premise : option string)
                 (generated : result StateAgent.InitialStateObject)
| UpdateTask (currentStateCard : StateCard) (newScene : Scene)
             (chosenOption : Choice) (previousScenes : list Scene)
             (generated : result StateAgent.StateUpdateObject).

(** A tool call with the values its [execute] gets from outside: the
    arguments the model wrote, the answer of a provider, the defaults of
    the database.  [DelegateToWorker] stands for the delegations to the
    scene planner, the continuity agent and the audio workers, and
    [SceneOrAudioTool] for the tools on the tables [episode_scenes] and
    [episode_audio]: they touch neither the orchestrator nor the two
    tables of [World], and the code below reads no result of theirs. *)
Inductive ToolInvocation : Type :=
| DelegateToStoryDirector (premise : string)
                          (generated : result EpisodeBible)
| DelegateToStateAgent (task : StateTask)
| DelegateToWorker (toolName : string)
| SceneOrAudioTool (toolName : string)
| SaveEpisode (episode : EpisodeInput) (generatedId now : string)
| LoadEpisode (episodeId : string)
| UpdateEpisodeStats (episodeId : string) (totalScenes totalChoices : Z)
                     (newStatus : option Status) (now : string)
| LoadEpisodeBible (episodeId : string)
| SaveEpisodeBible (episodeId : string) (bible : EpisodeBible)
| CheckEpisodeBibleExists (episodeId : string).

Definition toolNameOf (call : ToolInvocation) : string :=
  match call with
  | DelegateToStoryDirector _ _ => "delegateToStoryDirector"
  | DelegateToStateAgent _ => "delegateToStateAgent"
  | DelegateToWorker toolName => toolName
  | SceneOrAudioTool toolName => toolName
  | SaveEpisode _ _ _ => "saveEpisode"
  | LoadEpisode _ => "loadEpisode"
  | UpdateEpisodeStats _ _ _ _ _ => "updateEpisodeStats"
  | LoadEpisodeBible _ => "loadEpisodeBible"
  | SaveEpisodeBible _ _ => "saveEpisodeBible"
  | CheckEpisodeBibleExists _ => "checkEpisodeBibleExists"
  end.

Inductive ToolSet : Type := StartEpisodeTools | ProcessChoiceTools.

Definition memberOf (name : string) (names : list string) : bool :=
  existsb (String.eqb name) names.

(** The keys of the [tools] object of each of the two calls. *)
Definition offered (tools : ToolSet) (call : ToolInvocation) : bool :=
  match tools, call with
  | StartEpisodeTools, DelegateToStoryDirector _ _ => true
  | ProcessChoiceTools, DelegateToStoryDirector _ _ => false
  | StartEpisodeTools, DelegateToStateAgent _ => true
  | ProcessChoiceTools, DelegateToStateAgent (UpdateTask _ _ _ _ _) => true
  | ProcessChoiceTools, DelegateToStateAgent (InitializeTask _ _) => false
  | StartEpisodeTools, DelegateToWorker name =>
      memberOf name ["delegateToScenePlanner"; "delegateToContinuityAgent";
                     "delegateToAudioWorkers"]
  | ProcessChoiceTools, DelegateToWorker name =>
      memberOf name ["delegateToScenePlanner"; "delegateToContinuityAgent"]
  | StartEpisodeTools, SceneOrAudioTool name =>
      memberOf name ["saveScene"; "loadScenes"; "updateSceneChoice"]
  | ProcessChoiceTools, SceneOrAudioTool name =>
      memberOf name ["saveScene"; "loadScenes"; "updateSceneChoice";
                     "generateMusic"; "generateSFX"; "generateDetailedMusic";
                     "createAudioCueSheet"; "loadEpisodeAudio"]
  | _, SaveEpisode _ _ _ => true
  | _, LoadEpisode _ => true
  | _, UpdateEpisodeStats _ _ _ _ _ => true
  | StartEpisodeTools, LoadEpisodeBible _ => true
  | StartEpisodeTools, SaveEpisodeBible _ _ => true
  | StartEpisodeTools, CheckEpisodeBibleExists _ => true
  | ProcessChoiceTools, LoadEpisodeBible _ => false
  | ProcessChoiceTools, SaveEpisodeBible _ _ => false
  | ProcessChoiceTools, CheckEpisodeBibleExists _ => false
  end.

Definition executeStateTask (task : StateTask) : ToolResult :=
  match task with
  | InitializeTask premise generated =>
      match StateAgent.initializeStateCard generated
              (default "undefined" premise) with
      | Ok stateCard => StateInitialized stateCard
      | Err _ => ToolThrew
      end
  | UpdateTask currentStateCard newScene chosenOption previousScenes
               generated =>
      match StateAgent.updateStateCard generated currentStateCard newScene
              chosenOption previousScenes with
      | Ok updatedStateCard => StateUpdated updatedStateCard
      | Err _ => ToolThrew
      end
  end.

Definition execute (tools : ToolSet) (call : ToolInvocation)
    (this : State) (w : World) : ToolResult * State * World :=
  if negb (offered tools call) then (ToolThrew, this, w)
  else
    match call with
    | DelegateToStoryDirector _ generated =>
        match generated with
        | Ok bible =>
            (StoryDirectorResult bible, storeEpisodeBible this bible, w)
        | Err _ => (ToolThrew, this, w)
        end
    | DelegateToStateAgent task => (executeStateTask task, this, w)
    | DelegateToWorker _ => (OtherResult, this, w)
    | SceneOrAudioTool _ => (OtherResult, this, w)
    | SaveEpisode episode generatedId now =>
        let '(r, w') := saveEpisode w episode generatedId now in (r, this, w')
    | LoadEpisode episodeId =>
        let '(r, w') := loadEpisode w episodeId in (r, this, w')
    | UpdateEpisodeStats episodeId totalScenes totalChoices newStatus now =>
        let '(r, w') :=
          updateEpisodeStats w episodeId totalScenes totalChoices
            newStatus now in
        (r, this, w')
    | LoadEpisodeBible episodeId =>
        let '(r, w') := loadEpisodeBible w episodeId in (r, this, w')
    | SaveEpisodeBible episodeId bible =>
        let '(r, w') := saveEpisodeBible w episodeId bible in (r, this, w')
    | CheckEpisodeBibleExists episodeId =>
        let '(r, w') := checkEpisodeBibleExists w episodeId in (r, this, w')
    end.

Definition History : Type := list (ToolInvocation * ToolResult).

Inductive ModelStep : Type :=
| CallTool (call : ToolInvocation)
| Finish
| Reject.

(** The orchestrating model with the providers behind the tools. *)
Definition Policy : Type := History -> ModelStep.

(** [maxCalls] bounds the tool calls of the run ([stopWhen]). *)
Fixpoint generateText (maxCalls : nat) (tools : ToolSet) (policy : Policy)
    (history : History) (this : State) (w : World)
    : result History * State * World :=
  match maxCalls with
  | O => (Ok history, this, w)
  | S remaining =>
      match policy history with
      | Finish => (Ok history, this, w)
      | Reject => (Err GenerationError, this, w)
      | CallTool call =>
          let '(r, this', w') := execute tools call this w in
          generateText remaining tools policy (history ++ [(call, r)])
            this' w'
      end
  end.

(** A model that makes the given calls whatever it sees. *)
Definition scripted (calls : list ToolInvocation) : Policy :=
  fun history =>
    match nth_error calls (length history) with
    | Some call => CallTool call
    | None => Finish
    end.

(** [result.toolCalls]: the calls the model made, each with its name and
    its arguments.  The run keeps what the tools returned apart from the
    calls (in [toolResults]), so an entry of [toolCalls] has no property
    [result]. *)
Definition toolCalls (history : History) : list ToolInvocation :=
  List.map fst history.

Definition resultOf (call : ToolInvocation) : option ToolResult := None.

(** [result.toolCalls?.find(call => call.toolName === toolName)?.result] *)
Definition extractToolResult (history : History) (toolName : string)
    : option ToolResult :=
  match List.find (fun call => String.eqb (toolNameOf call) toolName)
          (toolCalls history) with
  | Some call => resultOf call
  | None => None
  end.

(** The tools that write the table [episodes]. *)
Definition writesEpisodes (call : ToolInvocation) : bool :=
  match call with
  | SaveEpisode _ _ _ => true
  | UpdateEpisodeStats _ _ _ _ _ => true
  | _ => false
  end.

(** A model that follows the first three steps of the workflow in the
    system prompt of [startEpisode]: check; when there is no bible, create
    one and save it; when there is one, load it. *)
Definition instructed (episodeId premise : string)
    (generated : result EpisodeBible) : Policy :=
  fun history =>
    match history with
    | [] => CallTool (CheckEpisodeBibleExists episodeId)
    | [(_, BibleChecked true)] => CallTool (LoadEpisodeBible episodeId)
    | [(_, BibleChecked false)] =>
        CallTool (DelegateToStoryDirector premise generated)
    | [(_, BibleChecked false); (_, StoryDirectorResult bible)] =>
        CallTool (SaveEpisodeBible episodeId bible)
    | _ => Finish
    end.

(** The [generateText] call of [startEpisode], its first statement.  The
    statements after it read the tool results with [extractToolResult]
    and throw when the state or the scene result is missing, before
    [current] is set; they make no database call. *)
Definition startEpisodeOrchestration (maxCalls : nat) (policy : Policy)
    (this : State) (w : World) : result History * State * World :=
  generateText maxCalls StartEpisodeTools policy [] this w.

Definition candidate (this : State) (choice : Choice) : option Scene :=
  match choice with
  | ChoiceA => optionA (scenarioWindow this)
  | ChoiceB => optionB (scenarioWindow this)
  end.

Record ChoiceOutcome : Type := mkChoiceOutcome {
  nextScene : Scene;
  updatedStateCard : StateCard;
  audioGenerated : bool
}.

Definition noPregeneratedScenario : Error :=
  PlainError "No pre-generated scenario available for choice".

Definition processChoice (generateScene : ScenePlannerMethod)
    (analyzeCallbacks : ContinuityMethod) (clockA clockB : Clock)
    (maxCalls : nat) (policy : Policy)
    (this : State) (w : World)
    (episodeId : string) (choice : Choice) (userId : string)
    : result ChoiceOutcome * State * World :=
  match generateText maxCalls ProcessChoiceTools policy [] this w with
  | (Err e, this1, w1) => (Err e, this1, w1)
  | (Ok history, this1, w1) =>
      match candidate this1 choice with
      | None => (Err noPregeneratedScenario, this1, w1)
      | Some next =>
          match extractToolResult history "delegateToStateAgent" with
          | Some (StateUpdated updated) =>
              let this2 :=
                {| episodeBible := episodeBible this1;
                   scenarioWindow :=
                     {| current := Some next;
                        optionA := None;
                        optionB := None |} |} in
              match coordinateChildGeneration generateScene analyzeCallbacks
                      clockA clockB this2 "" updated next with
              | (Err e, this3) => (Err e, this3, w1)
              | (Ok _, this3) =>
                  (Ok {| nextScene := next;
                         updatedStateCard := updated;
                         audioGenerated := false |}, this3, w1)
              end
          | _ =>
              (Err (PlainError "State Agent failed to update state card"),
               this1, w1)
          end
      end
  end.

End Orchestrator.

(** ** The object store

    [projectStateForChoice] on objects with identity: a state card is an
    object whose [keyFacts], [themes] and [anchors] properties refer to
    arrays.  The object literal makes a new object, the spread copies the
    property values, the array literal with a spread makes a new array. *)

Module Heap.

Inductive Object : Type :=
| CardObject (story : string) (facts : nat) (themesRef : option nat)
             (anchorsRef : nat)
| StringArray (items : list string)
| AnchorArray (items : list Anchor).

Definition alloc (h : gmap nat Object) (o : Object)
    : nat * gmap nat Object :=
  let l := fresh (dom h) in (l, <[l := o]> h).

Definition readStrings (h : gmap nat Object) (l : nat)
    : option (list string) :=
  match h !! l with
  | Some (StringArray items) => Some items
  | _ => None
  end.

Definition readAnchors (h : gmap nat Object) (l : nat)
    : option (list Anchor) :=
  match h !! l with
  | Some (AnchorArray items) => Some items
  | _ => None
  end.

Definition readThemes (h : gmap nat Object) (l : option nat)
    : option (option (list string)) :=
  match l with
  | None => Some None
  | Some t => option_map Some (readStrings h t)
  end.

(** The state card an object stands for. *)
Definition readCard (h : gmap nat Object) (l : nat) : option StateCard :=
  match h !! l with
  | Some (CardObject story facts themesRef anchorsRef) =>
      match readStrings h facts, readThemes h themesRef,
            readAnchors h anchorsRef with
      | Some fs, Some ts, Some ans =>
          Some {| storySoFar := story; keyFacts := fs; themes := ts;
                  anchors := ans |}
      | _, _, _ => None
      end
  | _ => None
  end.

Definition projectStateForChoice (h : gmap nat Object) (stateCard : nat)
    (scene : Scene) (choice : Choice) : option (nat * gmap nat Object) :=
  let choiceText := Orchestrator.choiceTextOf scene choice in
  match h !! stateCard with
  | Some (CardObject story facts themesRef anchorsRef) =>
      match readStrings h facts with
      | Some items =>
          let '(facts', h1) :=
            alloc h (StringArray (items ++ ["Chose: " +:+ choiceText])) in
          Some (alloc h1
                  (CardObject (story +:+ " " +:+ choiceText) facts'
                     themesRef anchorsRef))
      | None => None
      end
  | _ => None
  end.

(** Every object of [h] is in [h'], unchanged. *)
Definition preserved (h h' : gmap nat Object) : Prop :=
  forall l o, h !! l = Some o -> h' !! l = Some o.

End Heap.

(** ** Sample data *)

Module Samples.

Definition mansionBible : EpisodeBible :=
  {| worldRules :=
       {| genre := "gothic horror"; style := "victorian ghost story";
          tone := "dread"; setting := "a haunted mansion";
          timeframe := "one stormy night";
          coreConflict := "escape before dawn";
          worldLogic := ["ghosts cannot cross salt"] |};
     storytellingGuidelines :=
       {| narrativeVoice := "second person"; pacing := ModeratePace;
          complexity := ModerateComplexity;
          atmosphereKeywords := ["eerie"; "stormy"];
          choicePhilosophy := "risk against safety";
          sceneStructureNotes := "end on a decision" |};
     characterFramework :=
       {| protagonistTypes := ["guests"]; antagonistTypes := ["the host"];
          supportingTypes := ["the butler"];
          characterVoiceGuidelines := "formal" |};
     conflictPatterns :=
       {| typicalConflicts := ["locked doors"];
          escalationPattern := "each room is worse";
          resolutionApproach := "bittersweet" |};
     audioDirection :=
       {| musicStyle := "dark strings"; commonSFXTypes := ["creaks"];
          audioIntensityRange := Moderate;
          atmosphereNotes := "rain throughout" |};
     storyArcGuidance :=
       {| expectedProgression := "explore, uncover, escape";
          keyFactTypes := ["clues"]; likelyAnchorTypes := ["keys"];
          finaleExpectation := "dawn" |};
     consistencyRules := ["the storm never stops"];
     reasoning := "classic setup" |}.

(** A track the music schema accepts: the duration is in range, the flag
    is a boolean, the prompt is a string. *)
Definition pianoTrack : MusicAgent.MusicTrack :=
  {| MusicAgent.track_prompt := "Slow solo piano in A minor, 70 BPM";
     MusicAgent.track_duration := 30000%Q;
     MusicAgent.track_isInstrumental := false;
     MusicAgent.track_priority := Medium;
     MusicAgent.track_trigger := "[MUSIC=scene_1]";
     MusicAgent.track_description := "Quiet piano under the storm" |}.

Definition doorCreak : SFXAgent.SoundEffect :=
  {| SFXAgent.sfx_text := "Heavy wooden door creaking open";
     SFXAgent.sfx_trigger := "[SFX=door_creak]";
     SFXAgent.sfx_durationSeconds := Value (3 # 1)%Q;
     SFXAgent.sfx_promptInfluence := None;
     SFXAgent.sfx_loop := None;
     SFXAgent.sfx_timing := 2%Q;
     SFXAgent.sfx_priority := High;
     SFXAgent.sfx_category := SFXAgent.CatSimple |}.

Definition rainAmbience : SFXAgent.AmbientSound :=
  {| SFXAgent.amb_text := "Steady rain ambience against tall windows";
     SFXAgent.amb_durationSeconds := 20%Q;
     SFXAgent.amb_promptInfluence := None |}.

Definition brassKey : Anchor :=
  {| anchor_id := "anchor_key"; description := "the brass key";
     isUsed := true; createdAtScene := 1 |}.

Definition mansionCard : StateCard :=
  {| storySoFar := "We entered the mansion.";
     keyFacts := ["The door locked behind us"];
     themes := Some [];
     anchors := [brassKey] |}.

(** An answer of the provider to the update prompt that lists the brass
    key as not yet used. *)
Definition regenerated : StateAgent.StateUpdateObject :=
  {| StateAgent.u_storySoFar := "We entered the mansion and went below.";
     StateAgent.u_keyFacts := ["The door locked behind us"];
     StateAgent.u_anchors :=
       [{| anchor_id := "anchor_key"; description := "the brass key";
           isUsed := false; createdAtScene := 1 |}];
     StateAgent.u_reasoning := "The key may matter again" |}.

(** Twelve facts; a used old anchor, an unused old one, an unused recent
    one. *)
Definition crowdedCard : StateCard :=
  {| storySoFar := "We searched every room.";
     keyFacts := ["fact 1"; "fact 2"; "fact 3"; "fact 4"; "fact 5";
                  "fact 6"; "fact 7"; "fact 8"; "fact 9"; "fact 10";
                  "fact 11"; "fact 12"];
     themes := None;
     anchors :=
       [brassKey;
        {| anchor_id := "anchor_note"; description := "the torn note";
           isUsed := false; createdAtScene := 2 |};
        {| anchor_id := "anchor_bell"; description := "the silent bell";
           isUsed := false; createdAtScene := 9 |}] |}.

Definition noStateUpdate : StateUpdate :=
  {| newLocation := None; newCharacters := None; obtainedItems := None;
     lostItems := None; statusChanges := None |}.

Definition sceneOne : Scene :=
  {| scene_id := "scene-1"; episodeId := "ep1"; sceneNumber := 1;
     narration := "The hall splits in two.";
     choiceA := "Go down to the cellar";
     choiceB := "Climb to the attic";
     chosenOption := None;
     stateUpdate := noStateUpdate; audioCues := [];
     createdAt := "2025-01-01T00:00:00.000Z" |}.

Definition cellarData : SceneData :=
  {| data_narration := "The cellar is flooded.";
     data_choiceA := "Wade in"; data_choiceB := "Turn back";
     data_stateUpdate := noStateUpdate; data_audioCues := [] |}.

Definition clock : Orchestrator.Clock :=
  {| Orchestrator.dateNow := "1735689600000";
     Orchestrator.isoString := "2025-01-01T00:00:00.000Z" |}.

Definition noCallback : CallbackSuggestion :=
  {| shouldUseCallback := false; suggestedAnchor := None;
     callbackType := CallbackNone; reason := "too early";
     integration := None |}.

Definition quietContinuity : Orchestrator.ContinuityMethod :=
  fun _ _ => Ok noCallback.

(** A scene planner other than the one of the repository, for the
    statements that hold of every planner: it takes the state card as its
    second argument, answers the cellar branch and fails on the other. *)
Definition cellarOnlyPlanner : Orchestrator.ScenePlannerMethod :=
  fun _ second _ _ _ =>
    match second with
    | JsStateCard card =>
        if includes (storySoFar card) "cellar" then Ok cellarData
        else Err GenerationError
    | _ => Err GenerationError
    end.

Definition atticScene : Scene :=
  {| scene_id := "temp_scene-1_B_1735689600000"; episodeId := "ep1";
     sceneNumber := 2;
     narration := "The attic is full of clocks.";
     choiceA := "Wind one"; choiceB := "Smash one";
     chosenOption := None;
     stateUpdate := noStateUpdate; audioCues := [];
     createdAt := "2025-01-01T00:00:01.000Z" |}.

(** A rolling window with only option B. *)
Definition onlyOptionB : Orchestrator.State :=
  {| Orchestrator.episodeBible := None;
     Orchestrator.scenarioWindow :=
       {| Orchestrator.current := Some sceneOne;
          Orchestrator.optionA := None;
          Orchestrator.optionB := Some atticScene |} |}.

Definition episodeOne : Database.EpisodeRow :=
  {| Database.row_id := "ep1"; Database.account_id := "account-1";
     Database.created_by := "user-1";
     Database.title := "The Mansion Mystery";
     Database.premise := "We are trapped in a haunted mansion";
     Database.state_card := mansionCard; Database.status := Database.Active;
     Database.created_at := "2025-01-01T00:00:00.000Z";
     Database.completed_at := None;
     Database.total_scenes := 0; Database.total_choices := 0 |}.

(** One episode and no bible. *)
Definition oneEpisode : Database.World :=
  {| Database.episodes := [episodeOne]; Database.episode_bibles := [];
     Database.next_uuid := 0 |}.

(** A run of the start orchestration in which the model asks the story
    director for a bible and saves it, with no check before. *)
Definition eagerStart : Orchestrator.Policy :=
  Orchestrator.scripted
    [Orchestrator.DelegateToStoryDirector
       "We are trapped in a haunted mansion" (Ok mansionBible);
     Orchestrator.SaveEpisodeBible "ep1" mansionBible].

(** A run of the choice orchestration in which the model closes the
    episode through [updateEpisodeStats]. *)
Definition closingChoice : Orchestrator.Policy :=
  Orchestrator.scripted
    [Orchestrator.UpdateEpisodeStats "ep1" 1 1 (Some Database.Completed)
       "2025-01-01T00:05:00.000Z"].

Definition idle : Orchestrator.Policy := fun _ => Orchestrator.Finish.

Definition sampleHeap : gmap nat Heap.Object :=
  <[0%nat := Heap.CardObject "We entered the mansion." 1 None 2]>
  (<[1%nat := Heap.StringArray ["The door locked behind us"]]>
   (<[2%nat := Heap.AnchorArray [brassKey]]> ∅)).

End Samples.

(** ** Episode bible tools on the table with its unique index
    (tools/episode-bible-tools.ts, supabase/schemas/16-episode-bible.sql)

    The schema file ends with [create unique index
    episode_bibles_unique_per_episode on episode_bibles(episode_id)].
    Here the tools are written with the columns of the table: the bible
    goes to the columns of [dbData] on a save and comes back from the
    columns of [data] on a load.  The conflict target of the upsert is the
    primary key, so a second row for an episode is not merged: the
    statement fails with a unique violation and the tool reports the
    failure. *)

Module UniqueBible.
Import Database Orchestrator.

(** [dbData] of [saveEpisodeBible], [data] of [loadEpisodeBible]: the
    columns of a row but [id] and the two timestamps. *)
Record DbData : Type := mkDbData {
  episode_id : string;
  world_genre : string;
  world_style : string;
  world_tone : string;
  world_setting : string;
  world_timeframe : string;
  world_core_conflict : string;
  world_logic : list string;
  storytelling_narrative_voice : string;
  storytelling_pacing : Pacing;
  storytelling_complexity : Complexity;
  storytelling_atmosphere_keywords : list string;
  storytelling_choice_philosophy : string;
  storytelling_scene_structure_notes : string;
  character_protagonist_types : list string;
  character_antagonist_types : list string;
  character_supporting_types : list string;
  character_voice_guidelines : string;
  conflict_typical_conflicts : list string;
  conflict_escalation_pattern : string;
  conflict_resolution_approach : string;
  audio_music_style : string;
  audio_common_sfx_types : list string;
  audio_intensity_range : Intensity;
  audio_atmosphere_notes : string;
  story_expected_progression : string;
  story_key_fact_types : list string;
  story_likely_anchor_types : list string;
  story_finale_expectation : string;
  consistency_rules : list string;
  db_reasoning : string
}.

(** The conversion in [saveEpisodeBible]. *)
Definition toDbData (episodeId : string) (episodeBible : EpisodeBible)
    : DbData :=
  {| episode_id := episodeId;
     world_genre := genre (worldRules episodeBible);
     world_style := style (worldRules episodeBible);
     world_tone := tone (worldRules episodeBible);
     world_setting := setting (worldRules episodeBible);
     world_timeframe := timeframe (worldRules episodeBible);
     world_core_conflict := coreConflict (worldRules episodeBible);
     world_logic := worldLogic (worldRules episodeBible);
     storytelling_narrative_voice :=
       narrativeVoice (storytellingGuidelines episodeBible);
     storytelling_pacing := pacing (storytellingGuidelines episodeBible);
     storytelling_complexity :=
       complexity (storytellingGuidelines episodeBible);
     storytelling_atmosphere_keywords :=
       atmosphereKeywords (storytellingGuidelines episodeBible);
     storytelling_choice_philosophy :=
       choicePhilosophy (storytellingGuidelines episodeBible);
     storytelling_scene_structure_notes :=
       sceneStructureNotes (storytellingGuidelines episodeBible);
     character_protagonist_types :=
       protagonistTypes (characterFramework episodeBible);
     character_antagonist_types :=
       antagonistTypes (characterFramework episodeBible);
     character_supporting_types :=
       supportingTypes (characterFramework episodeBible);
     character_voice_guidelines :=
       characterVoiceGuidelines (characterFramework episodeBible);
     conflict_typical_conflicts :=
       typicalConflicts (conflictPatterns episodeBible);
     conflict_escalation_pattern :=
       escalationPattern (conflictPatterns episodeBible);
     conflict_resolution_approach :=
       resolutionApproach (conflictPatterns episodeBible);
     audio_music_style := musicStyle (audioDirection episodeBible);
     audio_common_sfx_types := commonSFXTypes (audioDirection episodeBible);
     audio_intensity_range :=
       audioIntensityRange (audioDirection episodeBible);
     audio_atmosphere_notes := atmosphereNotes (audioDirection episodeBible);
     story_expected_progression :=
       expectedProgression (storyArcGuidance episodeBible);
     story_key_fact_types := keyFactTypes (storyArcGuidance episodeBible);
     story_likely_anchor_types :=
       likelyAnchorTypes (storyArcGuidance episodeBible);
     story_finale_expectation :=
       finaleExpectation (storyArcGuidance episodeBible);
     consistency_rules := consistencyRules episodeBible;
     db_reasoning := reasoning episodeBible |}.

(** The conversion in [loadEpisodeBible]. *)
Definition fromDbData (data : DbData) : EpisodeBible :=
  {| worldRules :=
       {| genre := world_genre data;
          style := world_style data;
          tone := world_tone data;
          setting := world_setting data;
          timeframe := world_timeframe data;
          coreConflict := world_core_conflict data;
          worldLogic := world_logic data |};
     storytellingGuidelines :=
       {| narrativeVoice := storytelling_narrative_voice data;
          pacing := storytelling_pacing data;
          complexity := storytelling_complexity data;
          atmosphereKeywords := storytelling_atmosphere_keywords data;
          choicePhilosophy := storytelling_choice_philosophy data;
          sceneStructureNotes := storytelling_scene_structure_notes data |};
     characterFramework :=
       {| protagonistTypes := character_protagonist_types data;
          antagonistTypes := character_antagonist_types data;
          supportingTypes := character_supporting_types data;
          characterVoiceGuidelines := character_voice_guidelines data |};
     conflictPatterns :=
       {| typicalConflicts := conflict_typical_conflicts data;
          escalationPattern := conflict_escalation_pattern data;
          resolutionApproach := conflict_resolution_approach data |};
     audioDirection :=
       {| musicStyle := audio_music_style data;
          commonSFXTypes := audio_common_sfx_types data;
          audioIntensityRange := audio_intensity_range data;
          atmosphereNotes := audio_atmosphere_notes data |};
     storyArcGuidance :=
       {| expectedProgression := story_expected_progression data;
          keyFactTypes := story_key_fact_types data;
          likelyAnchorTypes := story_likely_anchor_types data;
          finaleExpectation := story_finale_expectation data |};
     consistencyRules := consistency_rules data;
     reasoning := db_reasoning data |}.

(** The row of [World] for the columns [dbData]: the bible the columns
    read as. *)
Definition rowOf (id : nat) (dbData : DbData) : BibleRow :=
  {| bible_id := id;
     bible_episode_id := episode_id dbData;
     bible_columns := fromDbData dbData |}.

(** [.upsert(dbData)]: the foreign key asks for the episode, the unique
    index for no row of the episode; then the row is inserted under a new
    uuid. *)
Definition upsertBible (w : World) (dbData : DbData)
    : option (BibleRow * World) :=
  match episodeWithId w (episode_id dbData),
        biblesOf w (episode_id dbData) with
  | _ :: _, [] =>
      let row := rowOf (next_uuid w) dbData in
      Some (row,
            {| episodes := episodes w;
               episode_bibles := episode_bibles w ++ [row];
               next_uuid := S (next_uuid w) |})
  | _, _ => None
  end.

Definition saveEpisodeBible (w : World) (episodeId : string)
    (episodeBible : EpisodeBible) : ToolResult * World :=
  match upsertBible w (toDbData episodeId episodeBible) with
  | Some (data, w') => (BibleSaved (bible_id data), w')
  | None => (ToolFailure, w)
  end.

(** The tools of the orchestration call on this table. *)
Definition execute (tools : ToolSet) (call : ToolInvocation)
    (this : State) (w : World) : ToolResult * State * World :=
  match call with
  | SaveEpisodeBible episodeId bible =>
      if offered tools call
      then let '(r, w') := saveEpisodeBible w episodeId bible in (r, this, w')
      else (ToolThrew, this, w)
  | _ => Orchestrator.execute tools call this w
  end.

Fixpoint generateText (maxCalls : nat) (tools : ToolSet) (policy : Policy)
    (history : History) (this : State) (w : World)
    : result History * State * World :=
  match maxCalls with
  | O => (Ok history, this, w)
  | S remaining =>
      match policy history with
      | Finish => (Ok history, this, w)
      | Reject => (Err GenerationError, this, w)
      | CallTool call =>
          let '(r, this', w') := execute tools call this w in
          generateText remaining tools policy (history ++ [(call, r)])
            this' w'
      end
  end.

(** The database after a sequence of [startEpisode] orchestration calls,
    each with its model and on an orchestrator in some state (the same
    instance later on, or a new one). *)
Fixpoint startEpisodes (maxCalls : nat) (calls : list (Policy * State))
    (w : World) : World :=
  match calls with
  | [] => w
  | (policy, this) :: rest =>
      startEpisodes maxCalls rest
        (snd (generateText maxCalls StartEpisodeTools policy [] this w))
  end.

Definition callsStoryDirector (call : ToolInvocation) : bool :=
  match call with
  | DelegateToStoryDirector _ _ => true
  | _ => false
  end.

(** What the constraints of the schema make of a database: primary keys,
    the unique index, the foreign key of the bibles. *)
Definition consistent (w : World) : Prop :=
  NoDup (List.map row_id (episodes w))
  /\ NoDup (List.map bible_episode_id (episode_bibles w))
  /\ NoDup (List.map bible_id (episode_bibles w))
  /\ (forall b, In b (episode_bibles w) -> (bible_id b < next_uuid w)%nat)
  /\ (forall b, In b (episode_bibles w) ->
        In (bible_episode_id b) (List.map row_id (episodes w))).

End UniqueBible.

(** ** Music agent: transition, stingers, theme (episodes/music-agent.ts) *)

Module MusicGenerators.

(** The keys of the metadata that tell the three cues apart:
    [isTransition], [isStinger] with [stingerIndex], [isTheme] with
    [episodeTitle]. *)
Inductive TrackKind : Type :=
| TransitionTrack
| StingerTrack (stingerIndex : nat)
| ThemeTrack (episodeTitle : string).

Record TrackMetadata : Type := mkTrackMetadata {
  elevenLabsPrompt : string;
  durationMs : Q;
  isInstrumental : bool;
  priority : Priority;
  agent : string;
  kind : TrackKind
}.

Record TrackCue : Type := mkTrackCue {
  type : AudioType;
  trigger : string;
  cue_description : string;
  timing : Q;
  metadata : TrackMetadata
}.

Definition generateTransitionMusic
    (generated : result MusicAgent.MusicTrack) (episodeBible : EpisodeBible)
    (fromScene toScene : string) : result TrackCue :=
  match generateObject MusicAgent.MusicTrackSchema generated with
  | Err e => Err e
  | Ok track =>
      Ok {| type := Music;
            trigger := "[MUSIC=transition]";
            cue_description := MusicAgent.track_description track;
            timing := 0%Q;
            metadata :=
              {| elevenLabsPrompt := MusicAgent.track_prompt track;
                 durationMs := MusicAgent.track_duration track;
                 isInstrumental := MusicAgent.track_isInstrumental track;
                 priority := MusicAgent.track_priority track;
                 agent := "MusicAgent";
                 kind := TransitionTrack |} |}
  end.

(** [z.object({ stingers: z.array(MusicTrackSchema).max(3) })] *)
Definition StingersSchema (stingers : list MusicAgent.MusicTrack) : bool :=
  forallb MusicAgent.MusicTrackSchema stingers && (length stingers <=? 3)%nat.

Definition toStinger (index : nat) (stinger : MusicAgent.MusicTrack)
    : TrackCue :=
  {| type := Music;
     trigger := "[MUSIC=choice_stinger_" +:+ pretty (index + 1)%nat +:+ "]";
     cue_description := MusicAgent.track_description stinger;
     timing := 0%Q;
     metadata :=
       {| elevenLabsPrompt := MusicAgent.track_prompt stinger;
          durationMs := MusicAgent.track_duration stinger;
          isInstrumental := MusicAgent.track_isInstrumental stinger;
          priority := MusicAgent.track_priority stinger;
          agent := "MusicAgent";
          kind := StingerTrack (index + 1) |} |}.

Definition generateChoiceStingers
    (generated : result (list MusicAgent.MusicTrack))
    (episodeBible : EpisodeBible) (choiceA choiceB : string)
    : result (list TrackCue) :=
  match generateObject StingersSchema generated with
  | Err e => Err e
  | Ok stingers => Ok (imap toStinger stingers)
  end.

Definition generateEpisodeTheme (generated : result MusicAgent.MusicTrack)
    (episodeBible : EpisodeBible) (episodeTitle premise : string)
    : result TrackCue :=
  match generateObject MusicAgent.MusicTrackSchema generated with
  | Err e => Err e
  | Ok track =>
      Ok {| type := Music;
            trigger := "[MUSIC=episode_theme]";
            cue_description := MusicAgent.track_description track;
            timing := 0%Q;
            metadata :=
              {| elevenLabsPrompt := MusicAgent.track_prompt track;
                 durationMs := MusicAgent.track_duration track;
                 isInstrumental := MusicAgent.track_isInstrumental track;
                 priority := High;
                 agent := "MusicAgent";
                 kind := ThemeTrack episodeTitle |} |}
  end.

End MusicGenerators.

(** ** SFX agent: impacts, musical transitions, scene plan
    (episodes/sfx-agent.ts) *)

Module SfxGenerators.

(** The values the signature of [generateMusicalTransitions] names. *)
Inductive TransitionType : Type := SceneChange | TimeJump | MoodShift.

Definition transitionTypeName (t : TransitionType) : string :=
  match t with
  | SceneChange => "scene-change"
  | TimeJump => "time-jump"
  | MoodShift => "mood-shift"
  end.

(** [String.prototype.replace] with a one-character pattern: the first
    occurrence is replaced. *)
Fixpoint replaceFirst (pattern : Ascii.ascii) (replacement : string) (s : string)
    : string :=
  match s with
  | EmptyString => EmptyString
  | String c rest =>
      if Ascii.eqb c pattern then replacement +:+ rest
      else String c (replaceFirst pattern replacement rest)
  end.

(** A cue of the SFX agent with the key that only this generator writes:
    [isImpact] or [transitionType]. *)
Record TaggedCue : Type := mkTaggedCue {
  cue : SFXAgent.SfxCue;
  isImpact : option bool;
  transitionType : option string
}.

Record Impact : Type := mkImpact {
  impact_text : string;
  impact_trigger : string;
  impact_durationSeconds : Q;
  impact_promptInfluence : Q
}.

Definition impactOk (impact : Impact) : bool :=
  inRange (1 # 2) 5 (impact_durationSeconds impact)
  && inRange (1 # 2) 1 (impact_promptInfluence impact).

Definition ImpactsSchema (impacts : list Impact) : bool :=
  forallb impactOk impacts.

Definition toImpactCue (index : nat) (impact : Impact) : TaggedCue :=
  {| cue :=
       {| SFXAgent.type := Sfx;
          SFXAgent.trigger := impact_trigger impact;
          SFXAgent.cue_description := impact_text impact;
          SFXAgent.timing := inject_Z (Z.of_nat index * 10);
          SFXAgent.metadata :=
            {| SFXAgent.elevenLabsText := impact_text impact;
               SFXAgent.durationSeconds :=
                 Value (impact_durationSeconds impact);
               SFXAgent.promptInfluence := impact_promptInfluence impact;
               SFXAgent.loop := false;
               SFXAgent.priority := High;
               SFXAgent.category := SFXAgent.CatImpact;
               SFXAgent.agent := "SFXAgent";
               SFXAgent.sceneNumber := None;
               SFXAgent.isAmbient := None |} |};
     isImpact := Some true;
     transitionType := None |}.

Definition generateDramaticImpacts (generated : result (list Impact))
    (episodeBible : EpisodeBible) (dramaticMoments : list string)
    : result (list TaggedCue) :=
  match generateObject ImpactsSchema generated with
  | Err e => Err e
  | Ok impacts => Ok (imap toImpactCue impacts)
  end.

Record MusicalElement : Type := mkMusicalElement {
  musical_text : string;
  musical_durationSeconds : Q;
  musical_promptInfluence : Q
}.

Definition MusicalSchema (musical : MusicalElement) : bool :=
  inRange 2 15 (musical_durationSeconds musical)
  && inRange (4 # 10) (8 # 10) (musical_promptInfluence musical).

Definition generateMusicalTransitions (generated : result MusicalElement)
    (episodeBible : EpisodeBible) (transition : string)
    : result TaggedCue :=
  match generateObject MusicalSchema generated with
  | Err e => Err e
  | Ok musical =>
      Ok {| cue :=
              {| SFXAgent.type := Sfx;
                 SFXAgent.trigger :=
                   "[SFX=musical_"
                   +:+ replaceFirst (Ascii.ascii_of_nat 45) "_" transition +:+ "]";
                 SFXAgent.cue_description := musical_text musical;
                 SFXAgent.timing := 0%Q;
                 SFXAgent.metadata :=
                   {| SFXAgent.elevenLabsText := musical_text musical;
                      SFXAgent.durationSeconds :=
                        Value (musical_durationSeconds musical);
                      SFXAgent.promptInfluence :=
                        musical_promptInfluence musical;
                      SFXAgent.loop := false;
                      SFXAgent.priority := Medium;
                      SFXAgent.category := SFXAgent.CatMusical;
                      SFXAgent.agent := "SFXAgent";
                      SFXAgent.sceneNumber := None;
                      SFXAgent.isAmbient := None |} |};
            isImpact := None;
            transitionType := Some transition |}
  end.

(** One entry of [elevenlabsCalls]: [text] and the keys the loop sets. *)
Record ApiCall : Type := mkApiCall {
  text : string;
  duration_seconds : option Q;
  prompt_influence : option Q;
  call_loop : option bool
}.

Inductive AudioBalance : Type := HeavyUsage | BalancedUsage | LightUsage.

Definition audioBalanceText (b : AudioBalance) : string :=
  match b with
  | HeavyUsage =>
      "Heavy SFX usage - consider reducing for better narration clarity"
  | BalancedUsage =>
      "Balanced SFX usage - good enhancement without overwhelming"
  | LightUsage =>
      "Light SFX usage - appropriate for dialogue-heavy scenes"
  end.

Record ScenePlan : Type := mkScenePlan {
  sfxPlan : list SFXAgent.SfxCue;
  totalSFXDuration : Q;
  audioBalance : string;
  narrationWithTriggers : string;
  elevenlabsCalls : list ApiCall
}.

(** A duration that is there and not zero. *)
Definition truthyDuration (d : Nullable Q) : option Q :=
  match d with
  | Value seconds => if Qeq_bool seconds 0 then None else Some seconds
  | Undefined | Null => None
  end.

(** [sfx.metadata?.durationSeconds || 3] *)
Definition countedDuration (sfx : SFXAgent.SfxCue) : Q :=
  default 3%Q
    (truthyDuration (SFXAgent.durationSeconds (SFXAgent.metadata sfx))).

(** [sfx.metadata?.elevenLabsText || sfx.description] *)
Definition callText (sfx : SFXAgent.SfxCue) : string :=
  if String.eqb (SFXAgent.elevenLabsText (SFXAgent.metadata sfx)) ""
  then SFXAgent.cue_description sfx
  else SFXAgent.elevenLabsText (SFXAgent.metadata sfx).

Definition toApiCall (sfx : SFXAgent.SfxCue) : ApiCall :=
  {| text := callText sfx;
     duration_seconds :=
       truthyDuration (SFXAgent.durationSeconds (SFXAgent.metadata sfx));
     prompt_influence :=
       if Qeq_bool (SFXAgent.promptInfluence (SFXAgent.metadata sfx))
            (3 # 10)
       then None
       else Some (SFXAgent.promptInfluence (SFXAgent.metadata sfx));
     call_loop :=
       if SFXAgent.loop (SFXAgent.metadata sfx) then Some true else None |}.

(** [total / estimated > bound] as the division of the program decides
    it, in exact arithmetic: a division by zero gives an infinity, which
    is above the bound when [total] is positive, or no number (zero by
    zero), which is above nothing.  The program rounds the sum and the
    quotient to doubles, so next to a threshold its rating can differ
    from the exact one; the rating of a plan without cues, where the sum
    is zero and nothing is rounded, is the same. *)
Definition ratioAbove (total estimated bound : Q) : bool :=
  if Qeq_bool estimated 0 then negb (Qle_bool total 0)
  else if Qle_bool 0 estimated
       then negb (Qle_bool total (bound * estimated))
       else negb (Qle_bool (bound * estimated) total).

Definition balanceOf (total estimated : Q) : AudioBalance :=
  if ratioAbove total estimated (3 # 10) then HeavyUsage
  else if ratioAbove total estimated (15 # 100) then BalancedUsage
  else LightUsage.

Definition createSceneSFXPlan
    (generated : result (list SFXAgent.SoundEffect))
    (episodeBible : EpisodeBible) (narration : string)
    (estimatedSceneDuration : Q) : result ScenePlan :=
  match SFXAgent.generateSceneSFX generated episodeBible narration 1 with
  | Err e => Err e
  | Ok plan =>
      let total :=
        List.fold_left (fun total sfx => (total + countedDuration sfx)%Q)
          plan 0%Q in
      Ok {| sfxPlan := plan;
            totalSFXDuration := total;
            audioBalance :=
              audioBalanceText (balanceOf total estimatedSceneDuration);
            narrationWithTriggers :=
              List.fold_left
                (fun text sfx => text +:+ " " +:+ SFXAgent.trigger sfx)
                plan narration;
            elevenlabsCalls := List.map toApiCall plan |}
  end.

End SfxGenerators.

(** ** Callback analysis (episodes/continuity-agent.ts, and
    [suggestCallbackOpportunities] of the state agent) *)

Module Callbacks.

(** The object [generateObject] yields in [analyzeCallbacks]. *)
Record Analysis : Type := mkAnalysis {
  a_shouldUseCallback : bool;
  a_suggestedAnchorId : option string;
  a_callbackType : CallbackType;
  a_reason : string;
  a_naturalIntegration : option string;
  a_impactLevel : Intensity;
  a_timingAdvice : option string
}.

(** [id ? anchors.find(a => a.id === id) : undefined]: an id that is
    missing or empty finds nothing. *)
Definition findSuggested (stateCard : StateCard) (id : option string)
    : option Anchor :=
  match id with
  | None => None
  | Some anchorId =>
      if String.eqb anchorId "" then None
      else List.find (fun a => String.eqb (anchor_id a) anchorId)
             (anchors stateCard)
  end.

Definition analyzeCallbacks (generated : result Analysis)
    (stateCard : StateCard) (upcomingContext : string)
    : result CallbackSuggestion :=
  match generated with
  | Err e => Err e
  | Ok analysis =>
      Ok {| shouldUseCallback := a_shouldUseCallback analysis;
            suggestedAnchor :=
              findSuggested stateCard (a_suggestedAnchorId analysis);
            callbackType := a_callbackType analysis;
            reason := a_reason analysis;
            integration := a_naturalIntegration analysis |}
  end.

(** The object [generateObject] yields in [suggestCallbackOpportunities],
    and what the method returns. *)
Record Opportunity : Type := mkOpportunity {
  o_shouldUseCallback : bool;
  o_suggestedAnchorId : option string;
  o_callbackType : CallbackType;
  o_reason : string;
  o_naturalIntegration : option string
}.

Record OpportunityResult : Type := mkOpportunityResult {
  r_shouldUseCallback : bool;
  r_suggestedAnchor : option Anchor;
  r_callbackType : CallbackType;
  r_reason : string
}.

Definition suggestCallbackOpportunities (generated : result Opportunity)
    (stateCard : StateCard) (upcomingSceneContext : string)
    : result OpportunityResult :=
  match generated with
  | Err e => Err e
  | Ok suggestion =>
      Ok {| r_shouldUseCallback := o_shouldUseCallback suggestion;
            r_suggestedAnchor :=
              findSuggested stateCard (o_suggestedAnchorId suggestion);
            r_callbackType := o_callbackType suggestion;
            r_reason := o_reason suggestion |}
  end.

End Callbacks.

(** ** Scene generation tool of the scene planner
    ([getSceneGenerationTool]) *)

Module SceneTool.

(** [{ success: true, scene }] or [{ success: false, error }]; the error
    stands for its message. *)
Inductive SceneToolResult : Type :=
| SceneGenerated (scene : SceneData)
| SceneFailed (error : Error).

(** The literal [execute] builds from [callbackAnchor], an object with
    [id] and [description].  The keys neither literal has
    ([isUsed], [createdAtScene], [callbackType], [integration]) are filled
    with a value nothing reads. *)
Definition callbackSuggestionOf (callbackAnchor : option (string * string))
    : JsValue :=
  match callbackAnchor with
  | Some (id, anchorDescription) =>
      JsCallback
        {| shouldUseCallback := true;
           suggestedAnchor :=
             Some {| anchor_id := id;
                     description := anchorDescription;
                     isUsed := false;
                     createdAtScene := 0 |};
           callbackType := CallbackNone;
           reason := "Incorporating callback: " +:+ anchorDescription;
           integration := None |}
  | None => JsUndefined
  end.

(** [this.generateScene(premise, stateCard, sceneNumber,
    callbackSuggestion)]: four arguments for the five parameters
    [premise, episodeBible, stateCard, sceneNumber, callbackSuggestion]. *)
Definition execute (provider : ScenePlanner.Provider) (premise : string)
    (stateCard : StateCard) (sceneNumber : Z)
    (callbackAnchor : option (string * string)) : SceneToolResult :=
  match ScenePlanner.generateScene provider premise
          (JsStateCard stateCard) (JsNumber sceneNumber)
          (callbackSuggestionOf callbackAnchor) JsUndefined
  with
  | Ok scene => SceneGenerated scene
  | Err error => SceneFailed error
  end.

End SceneTool.

(** ** Helpers of the audio tools (the file of [generateMusic],
    [generateSFX] and [createAudioCueSheet]) *)

Module AudioTools.

Definition ownStylePrompt (key description : string) : option string :=
  if String.eqb key "horror" then
    Some ("Create a haunting, atmospheric " +:+ description
          +:+ ". Use dark ambient textures, subtle dissonance, low-frequency drones, and sparse, eerie instrumentation. Build tension with gradual dynamic swells and unsettling harmonic progressions.")
  else if String.eqb key "fantasy" then
    Some ("Create an enchanting, orchestral " +:+ description
          +:+ ". Use soaring strings, magical harp arpeggios, woodwind melodies, and warm brass sections. Include mystical textures with ethereal choir pads and Celtic-inspired motifs.")
  else if String.eqb key "noir" then
    Some ("Create a sophisticated, jazzy " +:+ description
          +:+ ". Use smooth saxophone lines, muted trumpet, upright bass walking lines, and subtle jazz drums. Include smoky piano chords and classic film noir harmonic progressions.")
  else if String.eqb key "comedy" then
    Some ("Create a playful, upbeat " +:+ description
          +:+ ". Use bright orchestral colors, bouncy rhythms, whimsical woodwind melodies, and light percussion. Include comedic musical stingers and cheerful harmonic progressions.")
  else if String.eqb key "adventure" then
    Some ("Create an epic, cinematic " +:+ description
          +:+ ". Use full orchestral arrangement with powerful brass fanfares, driving string ostinatos, heroic melodies, and dynamic percussion. Build excitement with tempo changes and crescendos.")
  else if String.eqb key "mystery" then
    Some ("Create a suspenseful, intriguing " +:+ description
          +:+ ". Use pizzicato strings, subtle percussion, mysterious piano figures, and sparse instrumentation. Build tension with chromatic harmonies and unexpected musical turns.")
  else None.

Definition promptTail : string :=
  " seconds. Suitable for podcast background music - instrumental only, well-mixed and balanced.".

Section Rendering.

(** What the run time supplies: [String.prototype.toLowerCase], the text
    of a number in a template, and the text of the value a key finds on
    the prototype of the object literal ([constructor], [__proto__]) when
    the literal has no such key of its own. *)
Variable toLowerCase : string -> string.
Variable numberText : Q -> string.
Variable inherited : string -> option string.

Definition createMusicPrompt (style description : string) (duration : Q)
    : string :=
  let basePrompt :=
    match ownStylePrompt (toLowerCase style) description with
    | Some prompt => prompt
    | None =>
        match inherited (toLowerCase style) with
        | Some prompt => prompt
        | None =>
            "Create atmospheric " +:+ style +:+ " music for "
            +:+ description
            +:+ ". Use instrumentation and harmonies appropriate for the "
            +:+ style +:+ " genre."
        end
    end in
  basePrompt +:+ " Duration: approximately " +:+ numberText duration
  +:+ promptTail.

End Rendering.

(** The entries of [sfxPatterns], in order, without the regular
    expression: [sfx] and [description]. *)
Definition sfxPatterns : list (string * string) :=
  [ ("door_sound", "Door creaking open");
    ("footsteps", "Footsteps on surface");
    ("thunder", "Thunder crash");
    ("wind", "Wind howling");
    ("phone_ring", "Phone ringing");
    ("car_start", "Car engine starting");
    ("glass_break", "Glass shattering");
    ("scream", "Human scream");
    ("explosion", "Explosion sound");
    ("gunshot", "Gunshot") ].

Record DetectedCue : Type := mkDetectedCue {
  type : AudioType;
  trigger : string;
  cue_description : string;
  timing : Z
}.

(** [forEach] over the patterns from position [index] on, pushing a cue
    for each pattern whose expression matches. *)
Fixpoint detect (test : nat -> string -> bool) (narration : string)
    (index : nat) (patterns : list (string * string)) : list DetectedCue :=
  match patterns with
  | [] => []
  | (sfx, patternDescription) :: rest =>
      (if test index narration
       then [ {| type := Sfx;
                 trigger := "[SFX=" +:+ sfx +:+ "]";
                 cue_description := patternDescription;
                 timing := Z.of_nat index * 5 + 3 |} ]
       else [])
      ++ detect test narration (S index) rest
  end.

(** [test i narration]: whether the regular expression of the [i]-th
    pattern matches the narration. *)
Definition analyzeSFXOpportunities (test : nat -> string -> bool)
    (narration style : string) : list DetectedCue :=
  detect test narration 0 sfxPatterns.

End AudioTools.

(** ** More sample data *)

Module MoreSamples.

(** A scene planner whose provider answers every branch. *)
Definition willingPlanner : Orchestrator.ScenePlannerMethod :=
  fun _ second _ _ _ =>
    match second with
    | JsStateCard _ => Ok Samples.cellarData
    | _ => Err GenerationError
    end.

Definition updatedCard : StateCard :=
  {| storySoFar := "We entered the mansion and climbed to the attic.";
     keyFacts := ["The door locked behind us"; "The attic is full of clocks"];
     themes := Some [];
     anchors := [Samples.brassKey] |}.

Definition atticUpdate : StateAgent.StateUpdateObject :=
  {| StateAgent.u_storySoFar :=
       "We entered the mansion and climbed to the attic.";
     StateAgent.u_keyFacts :=
       ["The door locked behind us"; "The attic is full of clocks"];
     StateAgent.u_anchors := [Samples.brassKey];
     StateAgent.u_reasoning := "Choice B was taken" |}.

(** A run of the choice orchestration in which the model delegates the
    state update once. *)
Definition updatingChoice : Orchestrator.Policy :=
  Orchestrator.scripted
    [Orchestrator.DelegateToStateAgent
       (Orchestrator.UpdateTask Samples.mansionCard Samples.atticScene
          ChoiceB [Samples.sceneOne] (Ok atticUpdate))].

(** A run of the start orchestration in which the model checks for the
    bible of "ep1" and loads it. *)
Definition checkAndLoad : Orchestrator.Policy :=
  Orchestrator.scripted
    [Orchestrator.CheckEpisodeBibleExists "ep1";
     Orchestrator.LoadEpisodeBible "ep1"].

(** The sample database after the bible of episode "ep1" was saved. *)
Definition withBible : Database.World :=
  snd (UniqueBible.saveEpisodeBible Samples.oneEpisode "ep1"
         Samples.mansionBible).

(** Another answer of the story director for the same premise. *)
Definition revisedBible : EpisodeBible :=
  {| worldRules := worldRules Samples.mansionBible;
     storytellingGuidelines := storytellingGuidelines Samples.mansionBible;
     characterFramework := characterFramework Samples.mansionBible;
     conflictPatterns := conflictPatterns Samples.mansionBible;
     audioDirection := audioDirection Samples.mansionBible;
     storyArcGuidance := storyArcGuidance Samples.mansionBible;
     consistencyRules := consistencyRules Samples.mansionBible;
     reasoning := "A second draft for the same premise" |}.

(** A later start in which the model asks the story director again and
    saves what it gets, with no check before. *)
Definition eagerRestart : Orchestrator.Policy :=
  Orchestrator.scripted
    [Orchestrator.DelegateToStoryDirector
       "We are trapped in a haunted mansion" (Ok revisedBible);
     Orchestrator.SaveEpisodeBible "ep1" revisedBible].

(** The input of [saveEpisode] for an episode "ep9". *)
Definition renamedEpisode : Database.EpisodeInput :=
  {| Database.in_id := Some "ep9"; Database.in_accountId := "account-1";
     Database.in_createdBy := "user-1";
     Database.in_title := "The Clock Tower";
     Database.in_premise := "We are trapped in a haunted mansion";
     Database.in_stateCard := Samples.mansionCard;
     Database.in_status := Database.Active;
     Database.in_totalScenes := 1; Database.in_totalChoices := 0 |}.

(** The input of [saveEpisode] for episode "ep1" under a new title. *)
Definition retitledEpisode : Database.EpisodeInput :=
  {| Database.in_id := Some "ep1"; Database.in_accountId := "account-1";
     Database.in_createdBy := "user-1";
     Database.in_title := "The Clock Tower";
     Database.in_premise := "We are trapped in a haunted mansion";
     Database.in_stateCard := Samples.mansionCard;
     Database.in_status := Database.Active;
     Database.in_totalScenes := 1; Database.in_totalChoices := 0 |}.

Definition thunderImpact : SfxGenerators.Impact :=
  {| SfxGenerators.impact_text := "Cinematic braam impact, deep and short";
     SfxGenerators.impact_trigger := "[SFX=impact_thunder]";
     SfxGenerators.impact_durationSeconds := 2%Q;
     SfxGenerators.impact_promptInfluence := (8 # 10)%Q |}.

Definition stringSweep : SfxGenerators.MusicalElement :=
  {| SfxGenerators.musical_text := "Rising string sweep, 90 BPM, D minor";
     SfxGenerators.musical_durationSeconds := 4%Q;
     SfxGenerators.musical_promptInfluence := (6 # 10)%Q |}.

(** The provider names the brass key, which the card lists as used. *)
Definition keyCallback : Callbacks.Analysis :=
  {| Callbacks.a_shouldUseCallback := true;
     Callbacks.a_suggestedAnchorId := Some "anchor_key";
     Callbacks.a_callbackType := CallbackItem;
     Callbacks.a_reason := "The locked cellar door needs a key";
     Callbacks.a_naturalIntegration := Some "The key grows warm";
     Callbacks.a_impactLevel := Moderate;
     Callbacks.a_timingAdvice := None |}.

(** The provider names an anchor the card does not have. *)
Definition strayCallback : Callbacks.Analysis :=
  {| Callbacks.a_shouldUseCallback := true;
     Callbacks.a_suggestedAnchorId := Some "anchor_locket";
     Callbacks.a_callbackType := CallbackItem;
     Callbacks.a_reason := "The locket could open";
     Callbacks.a_naturalIntegration := None;
     Callbacks.a_impactLevel := Subtle;
     Callbacks.a_timingAdvice := None |}.

(** A matcher that finds thunder (pattern 2) and a scream (pattern 7). *)
Definition stormAndScream (index : nat) (narration : string) : bool :=
  Nat.eqb index 2 || Nat.eqb index 7.

End MoreSamples.

(** * Properties *)

(** ** State tracker *)

Section StateTracker.
Import StateAgent.

Lemma anchor_ages_refl a : anchor_ages a a.
Proof. repeat split; auto. Qed.

Lemma anchor_ages_trans a b c :
  anchor_ages a b -> anchor_ages b c -> anchor_ages a c.
Proof.
  intros (Hi & Hd & Hc & Hu) (Hi' & Hd' & Hc' & Hu').
  repeat split; try congruence. auto.
Qed.

Lemma lifecycle_refl l : lifecycle l l.
Proof.
  induction l as [|a l IH]; [apply lifecycle_nil|].
  apply lifecycle_keep; [apply anchor_ages_refl | exact IH].
Qed.

Lemma lifecycle_trans l1 l2 l3 :
  lifecycle l1 l2 -> lifecycle l2 l3 -> lifecycle l1 l3.
Proof.
  intros H12. revert l3.
  induction H12 as [|a l l' _ IH|a a' l l' Ha _ IH]; intros l3 H23.
  - exact H23.
  - apply lifecycle_drop. apply IH. exact H23.
  - inversion H23 as [|b m m' Hm|b b' m m' Hb Hm]; subst.
    + apply lifecycle_drop. apply IH. assumption.
    + apply lifecycle_keep; [eapply anchor_ages_trans; eauto|].
      apply IH. assumption.
Qed.

Lemma useAnchor_ages anchorId a : anchor_ages a (useAnchor anchorId a).
Proof.
  unfold useAnchor. destruct (String.eqb (anchor_id a) anchorId).
  - repeat split; auto.
  - apply anchor_ages_refl.
Qed.

Lemma lifecycle_map_use anchorId l :
  lifecycle l (List.map (useAnchor anchorId) l).
Proof.
  induction l as [|a l IH]; simpl; [apply lifecycle_nil|].
  apply lifecycle_keep; [apply useAnchor_ages | exact IH].
Qed.

Lemma lifecycle_filter (keep : Anchor -> bool) l :
  lifecycle l (List.filter keep l).
Proof.
  induction l as [|a l IH]; simpl; [apply lifecycle_nil|].
  destruct (keep a).
  - apply lifecycle_keep; [apply anchor_ages_refl | exact IH].
  - apply lifecycle_drop. exact IH.
Qed.

Lemma lifecycle_applyLocalOp card op :
  lifecycle (anchors card) (anchors (applyLocalOp card op)).
Proof.
  destruct op as [anchorId|n]; simpl.
  - apply lifecycle_map_use.
  - apply lifecycle_filter.
Qed.

(** An anchor that survives a life was there before, with the same
    identity, and was not used before unless it is used now. *)
Lemma lifecycle_origin l l' :
  lifecycle l l' ->
  forall a', In a' l' -> exists a, In a l /\ anchor_ages a a'.
Proof.
  induction 1 as [|a l l' _ IH|a b l l' Hab _ IH]; intros a' Hin.
  - destruct Hin.
  - destruct (IH a' Hin) as (x & Hx & Hage). exists x. split; [right|]; auto.
  - destruct Hin as [<-|Hin].
    + exists a. split; [left|]; auto.
    + destruct (IH a' Hin) as (x & Hx & Hage). exists x.
      split; [right|]; auto.
Qed.

Lemma keepAnchor_stale n a : keepAnchor n a = negb (stale n a).
Proof.
  unfold keepAnchor, stale, maxAgeScenes.
  destruct (isUsed a); simpl; [reflexivity|].
  destruct (Z.ltb_spec (n - createdAtScene a) 8),
           (Z.leb_spec 8 (n - createdAtScene a)); simpl; auto; lia.
Qed.

Lemma filter_filter_same {T : Type} (f : T -> bool) l :
  List.filter f (List.filter f l) = List.filter f l.
Proof.
  induction l as [|x l IH]; simpl; [reflexivity|].
  destruct (f x) eqn:Hx; simpl; [rewrite Hx, IH|]; auto.
Qed.

Lemma slice_last_length {T : Type} n (l : list T) :
  length (slice_last n l) = Nat.min n (length l).
Proof. unfold slice_last. rewrite List.length_skipn. lia. Qed.

Lemma slice_last_suffix {T : Type} n (l : list T) :
  List.firstn (length l - n) l ++ slice_last n l = l.
Proof. unfold slice_last. apply List.firstn_skipn. Qed.

Lemma slice_last_short {T : Type} n (l : list T) :
  (length l <= n)%nat -> slice_last n l = l.
Proof.
  intros H. unfold slice_last.
  replace (length l - n)%nat with 0%nat by lia. reflexivity.
Qed.

Lemma slice_last_idem {T : Type} n (l : list T) :
  slice_last n (slice_last n l) = slice_last n l.
Proof.
  apply slice_last_short. rewrite slice_last_length. lia.
Qed.

(** C7.  [cleanupStateCard] is a function of its two arguments.  It keeps
    the anchors in their order and removes exactly the stale ones: unused
    and with [currentSceneNumber - createdAtScene] at least the age
    threshold, the literal 8.  A used anchor is always kept.  The key facts
    it returns are the last ones of the list, at most the cap of them, the
    literal 10. *)
Theorem cleanup_removes_stale_and_caps_facts :
  forall (card : StateCard) (currentSceneNumber : Z),
    let cleaned := cleanupStateCard card currentSceneNumber in
    anchors cleaned
      = List.filter (fun a => negb (stale currentSceneNumber a)) (anchors card)
    /\ (forall a, In a (anchors cleaned) <->
          In a (anchors card)
          /\ ~ (isUsed a = false
                /\ currentSceneNumber - createdAtScene a >= maxAgeScenes))
    /\ (forall a, In a (anchors card) -> isUsed a = true ->
          In a (anchors cleaned))
    /\ (exists older, keyFacts card = older ++ keyFacts cleaned)
    /\ length (keyFacts cleaned)
       = Nat.min maxKeyFacts (length (keyFacts card))
    /\ (length (keyFacts cleaned) <= 10)%nat
    /\ maxAgeScenes = 8
    /\ storySoFar cleaned = storySoFar card.
Proof.
  intros card n cleaned. subst cleaned. unfold cleanupStateCard.
  cbn [anchors keyFacts storySoFar themes].
  assert (Hf : List.filter (keepAnchor n) (anchors card)
               = List.filter (fun a => negb (stale n a)) (anchors card)).
  { apply List.filter_ext. intros a. apply keepAnchor_stale. }
  split; [exact Hf|].
  split.
  { intros a. rewrite List.filter_In. unfold keepAnchor, maxAgeScenes.
    split.
    - intros [Hin Hk]. split; [exact Hin|]. intros [Hu Hage].
      rewrite Hu in Hk. simpl in Hk. apply Z.ltb_lt in Hk. lia.
    - intros [Hin Hn]. split; [exact Hin|].
      destruct (isUsed a) eqn:Hu; simpl; [reflexivity|].
      apply Z.ltb_lt.
      destruct (Z_lt_ge_dec (n - createdAtScene a) 8) as [Hlt|Hge];
        [exact Hlt|]. exfalso. apply Hn. split; [reflexivity|exact Hge]. }
  split.
  { intros a Hin Hu. apply List.filter_In. split; [exact Hin|].
    unfold keepAnchor. rewrite Hu. reflexivity. }
  split.
  { exists (List.firstn (length (keyFacts card) - maxKeyFacts) (keyFacts card)).
    symmetry. apply slice_last_suffix. }
  split; [apply slice_last_length|].
  split; [rewrite slice_last_length; unfold maxKeyFacts; lia|].
  split; reflexivity.
Qed.

(** Cleaning the crowded sample card at scene 12: the torn note (unused,
    ten scenes old) goes, the brass key (used, eleven scenes old) and the
    silent bell (three scenes old) stay, and the last ten facts stay. *)
Lemma cleanup_removes_stale_and_caps_facts_witness :
  let cleaned := cleanupStateCard Samples.crowdedCard 12 in
  List.map anchor_id (anchors cleaned) = ["anchor_key"; "anchor_bell"]
  /\ In Samples.brassKey (anchors cleaned)
  /\ length (keyFacts cleaned) = 10%nat
  /\ (exists older, keyFacts Samples.crowdedCard = older ++ keyFacts cleaned).
Proof.
  destruct (cleanup_removes_stale_and_caps_facts Samples.crowdedCard 12)
    as (Hfilter & _ & Hused & Hsuffix & Hlen & _).
  cbv zeta. split; [rewrite Hfilter; reflexivity|]. split.
  - apply Hused; [left; reflexivity|reflexivity].
  - split; [rewrite Hlen; reflexivity|exact Hsuffix].
Defined.

(** C8.  Cleaning a state card twice at the same scene number gives what
    cleaning it once gives. *)
Theorem cleanup_idempotent :
  forall (card : StateCard) (currentSceneNumber : Z),
    cleanupStateCard (cleanupStateCard card currentSceneNumber)
                     currentSceneNumber
    = cleanupStateCard card currentSceneNumber.
Proof.
  intros card n. unfold cleanupStateCard.
  cbn [anchors keyFacts storySoFar themes].
  rewrite filter_filter_same, slice_last_idem. reflexivity.
Qed.

Lemma lifecycle_applyLocalOps ops : forall card,
  lifecycle (anchors card) (anchors (applyLocalOps card ops)).
Proof.
  induction ops as [|op ops IH]; intros card; simpl.
  - apply lifecycle_refl.
  - eapply lifecycle_trans; [apply lifecycle_applyLocalOp|apply IH].
Qed.

Lemma applyLocalOps_app card ops1 ops2 :
  applyLocalOps card (ops1 ++ ops2)
  = applyLocalOps (applyLocalOps card ops1) ops2.
Proof. unfold applyLocalOps. apply List.fold_left_app. Qed.

(** C6, as the code has it.  Along any run of [markAnchorAsUsed] and
    [cleanupStateCard] calls, between any earlier and any later state card
    of the run, every anchor is dropped or kept in place with its identity
    and with a flag that, once set, is set: no flag goes from true to
    false, so a flag goes from false to true at most once.  An anchor that
    is in the later card was in the earlier one.  [updateStateCard] is
    outside this: it returns the anchors of the generated object as they
    are. *)
Theorem anchor_flags_monotone_in_local_runs :
  forall (card : StateCard) (earlier later : list LocalOp),
    lifecycle (anchors (applyLocalOps card earlier))
              (anchors (applyLocalOps card (earlier ++ later)))
    /\ (forall a',
          In a' (anchors (applyLocalOps card (earlier ++ later))) ->
          exists a, In a (anchors (applyLocalOps card earlier))
                    /\ anchor_id a' = anchor_id a
                    /\ (isUsed a = true -> isUsed a' = true))
    /\ (forall generated current newScene chosen previous updated,
          updateStateCard (Ok generated) current newScene chosen previous
          = Ok updated ->
          anchors updated = u_anchors generated).
Proof.
  intros card earlier later.
  assert (H : lifecycle (anchors (applyLocalOps card earlier))
                (anchors (applyLocalOps card (earlier ++ later)))).
  { rewrite applyLocalOps_app. apply lifecycle_applyLocalOps. }
  split; [exact H|]. split.
  - intros a' Hin.
    destruct (lifecycle_origin _ _ H a' Hin) as (a & Ha & Hid & _ & _ & Hu).
    exists a. auto.
  - intros generated current newScene chosen previous updated [= <-].
    reflexivity.
Qed.

(** The run "mark the brass key, clean up at scene 12" on the sample card
    and a generated update of that card: the instance of the theorem
    above. *)
Lemma anchor_flags_monotone_in_local_runs_witness :
  lifecycle (anchors Samples.mansionCard)
    (anchors (applyLocalOps Samples.mansionCard
                [MarkAnchorUsed "anchor_key"; Cleanup 12]))
  /\ (exists a, In a (anchors Samples.mansionCard)
                /\ anchor_id Samples.brassKey = anchor_id a
                /\ (isUsed a = true -> isUsed Samples.brassKey = true))
  /\ (exists updated,
        updateStateCard (Ok Samples.regenerated) Samples.mansionCard
          Samples.sceneOne ChoiceA [] = Ok updated
        /\ anchors updated = u_anchors Samples.regenerated).
Proof.
  pose proof (anchor_flags_monotone_in_local_runs Samples.mansionCard []
                [MarkAnchorUsed "anchor_key"; Cleanup 12]) as (H & Hin & Hu).
  split; [exact H|]. split.
  - apply (Hin Samples.brassKey). left. reflexivity.
  - eexists. split; [reflexivity|].
    exact (Hu Samples.regenerated Samples.mansionCard Samples.sceneOne
             ChoiceA [] _ eq_refl).
Defined.

(** C6 as the spec states it fails for [updateStateCard]: the brass key is
    used in the current card, the generated update lists it as unused, and
    the card that comes back has it unused. *)
Lemma update_can_reset_anchor_flag :
  exists updated,
    updateStateCard (Ok Samples.regenerated) Samples.mansionCard
      Samples.sceneOne ChoiceA [] = Ok updated
    /\ List.map (fun a => (anchor_id a, isUsed a))
         (anchors Samples.mansionCard) = [("anchor_key", true)]
    /\ List.map (fun a => (anchor_id a, isUsed a))
         (anchors updated) = [("anchor_key", false)]
    /\ ~ lifecycle (anchors Samples.mansionCard) (anchors updated).
Proof.
  eexists. split; [reflexivity|]. split; [reflexivity|].
  split; [reflexivity|].
  simpl. intros H.
  inversion H as [|a l l' Hl|a a' l l' Hage Hl]; subst.
  - inversion Hl.
  - destruct Hage as (_ & _ & _ & Hu). simpl in Hu.
    specialize (Hu eq_refl). discriminate.
Qed.

End StateTracker.

(** ** Audio directors *)

Section AudioDirectors.
Import MusicAgent SFXAgent.

Lemma inRange_spec lo hi x :
  inRange lo hi x = true <-> (lo <= x <= hi)%Q.
Proof.
  unfold inRange. rewrite andb_true_iff, !Qle_bool_iff. reflexivity.
Qed.

Lemma generateObject_ok {T : Type} (schema : T -> bool) generated object :
  generateObject schema generated = Ok object ->
  generated = Ok object /\ schema object = true.
Proof.
  unfold generateObject. destruct generated as [o|e]; [|discriminate].
  destruct (schema o) eqn:Hs; [|discriminate].
  intros [= <-]. auto.
Qed.

(** The part of the music contract the schema enforces: a cue that
    [generateSceneMusic] returns lasts between 10 and 300 seconds. *)
Lemma music_duration_in_range generated bible narration n estimate cue :
  generateSceneMusic generated bible narration n estimate = Ok cue ->
  (10000 <= MusicAgent.durationMs (MusicAgent.metadata cue) <= 300000)%Q.
Proof.
  unfold generateSceneMusic.
  destruct (generateObject MusicTrackSchema generated) as [track|e] eqn:Hg;
    [|discriminate].
  intros [= <-]. simpl.
  apply generateObject_ok in Hg as [_ Hs].
  apply inRange_spec. exact Hs.
Qed.

Lemma toCue_bounds n sfx :
  soundEffectOk sfx = true ->
  (0 <= SFXAgent.promptInfluence (SFXAgent.metadata (toCue n sfx)) <= 1)%Q
  /\ forall d,
       SFXAgent.durationSeconds (SFXAgent.metadata (toCue n sfx)) = Value d ->
       ((1 # 2) <= d <= 30)%Q.
Proof.
  unfold soundEffectOk. rewrite andb_true_iff. intros [Hd Hp]. simpl. split.
  - destruct (sfx_promptInfluence sfx) as [x|]; simpl in *.
    + apply inRange_spec. exact Hp.
    + split; discriminate.
  - intros d Heq. rewrite Heq in Hd. simpl in Hd.
    apply inRange_spec. exact Hd.
Qed.

(** C10.  A batch that [generateSceneSFX] returns has at most 8 cues; each
    cue has a prompt influence between 0 and 1 and, when its duration is
    given, a duration between 0.5 and 30 seconds.  A cue that
    [generateAmbientSoundscape] returns loops and lasts between 15 and 30
    seconds. *)
Theorem sfx_batch_and_ambient_bounds :
  (forall generated bible narration n cues,
      generateSceneSFX generated bible narration n = Ok cues ->
      (length cues <= 8)%nat
      /\ Forall (fun cue =>
           (0 <= SFXAgent.promptInfluence (SFXAgent.metadata cue) <= 1)%Q
           /\ forall d,
                SFXAgent.durationSeconds (SFXAgent.metadata cue) = Value d ->
                ((1 # 2) <= d <= 30)%Q) cues)
  /\ (forall generated bible location atmosphere cue,
      generateAmbientSoundscape generated bible location atmosphere = Ok cue ->
      SFXAgent.loop (SFXAgent.metadata cue) = true
      /\ exists d,
           SFXAgent.durationSeconds (SFXAgent.metadata cue) = Value d
           /\ (15 <= d <= 30)%Q).
Proof.
  split.
  - intros generated bible narration n cues. unfold generateSceneSFX.
    destruct (generateObject SFXSchema generated) as [effects|e] eqn:Hg;
      [|discriminate].
    intros [= <-]. apply generateObject_ok in Hg as [_ Hs].
    unfold SFXSchema in Hs. apply andb_true_iff in Hs as [Hall Hlen].
    split.
    + rewrite List.length_map. apply Nat.leb_le. exact Hlen.
    + rewrite forallb_forall in Hall.
      apply Forall_forall. intros cue Hin.
      apply list_elem_of_In, List.in_map_iff in Hin as (sfx & <- & Hsfx).
      apply toCue_bounds. apply Hall. exact Hsfx.
  - intros generated bible location atmosphere cue.
    unfold generateAmbientSoundscape.
    destruct (generateObject AmbientSchema generated) as [ambient|e] eqn:Hg;
      [|discriminate].
    intros [= <-]. apply generateObject_ok in Hg as [_ Hs].
    unfold AmbientSchema in Hs. apply andb_true_iff in Hs as [Hd _].
    simpl. split; [reflexivity|].
    exists (amb_durationSeconds ambient). split; [reflexivity|].
    apply inRange_spec. exact Hd.
Qed.

(** The two generators do return cues: on the sample sound effect and the
    sample ambience the bounds of C10 are met by actual results. *)
Lemma sfx_batch_and_ambient_bounds_witness :
  exists cues cue,
    generateSceneSFX (Ok [Samples.doorCreak]) Samples.mansionBible
      "The door creaks open." 1 = Ok cues
    /\ generateAmbientSoundscape (Ok Samples.rainAmbience)
         Samples.mansionBible "mansion" "stormy" = Ok cue
    /\ (length cues <= 8)%nat
    /\ SFXAgent.loop (SFXAgent.metadata cue) = true.
Proof.
  eexists. eexists.
  split; [reflexivity|]. split; [reflexivity|]. split.
  - exact (proj1 (proj1 sfx_batch_and_ambient_bounds
                    (Ok [Samples.doorCreak]) Samples.mansionBible
                    "The door creaks open." 1 _ eq_refl)).
  - exact (proj1 (proj2 sfx_batch_and_ambient_bounds
                    (Ok Samples.rainAmbience) Samples.mansionBible
                    "mansion" "stormy" _ eq_refl)).
Defined.

(** What [generateSceneMusic] does with the flag and the prompt: it
    copies them from the generated track. *)
Lemma music_flag_and_prompt_copied generated bible narration n estimate cue :
  generateSceneMusic generated bible narration n estimate = Ok cue ->
  exists track,
    generated = Ok track
    /\ MusicAgent.isInstrumental (MusicAgent.metadata cue)
       = track_isInstrumental track
    /\ MusicAgent.elevenLabsPrompt (MusicAgent.metadata cue)
       = track_prompt track.
Proof.
  unfold generateSceneMusic.
  destruct (generateObject MusicTrackSchema generated) as [track|e] eqn:Hg;
    [|discriminate].
  intros [= <-]. apply generateObject_ok in Hg as [Hg _].
  exists track. auto.
Qed.

(** C9 at a track the schema accepts.  The sample piano track is within
    the schema, [generateSceneMusic] returns a cue for it, the duration of
    the cue is in range, and the cue is not flagged instrumental and its
    prompt does not contain the marker. *)
Theorem scene_music_not_forced_instrumental :
  MusicTrackSchema Samples.pianoTrack = true
  /\ exists cue,
       generateSceneMusic (Ok Samples.pianoTrack) Samples.mansionBible
         "The heavy wooden door creaks open." 1 180 = Ok cue
       /\ (10000 <= MusicAgent.durationMs (MusicAgent.metadata cue)
           <= 300000)%Q
       /\ MusicAgent.isInstrumental (MusicAgent.metadata cue) = false
       /\ includes (MusicAgent.elevenLabsPrompt (MusicAgent.metadata cue))
            instrumentalMarker = false.
Proof.
  split; [reflexivity|].
  eexists. split; [reflexivity|]. simpl.
  split; [split; discriminate|]. split; reflexivity.
Qed.

End AudioDirectors.

(** ** Orchestrator *)

Section Orchestration.
Import Orchestrator Database.
Import Heap (preserved).

Lemma alloc_preserved (h : gmap nat Heap.Object) o :
  preserved h (snd (Heap.alloc h o)).
Proof.
  intros l x Hl. unfold Heap.alloc. simpl.
  rewrite lookup_insert_ne; [exact Hl|].
  intros Heq. pose proof (is_fresh (dom h)) as Hfresh.
  apply Hfresh. rewrite Heq. apply elem_of_dom. eauto.
Qed.

Lemma alloc_lookup (h : gmap nat Heap.Object) o :
  snd (Heap.alloc h o) !! fst (Heap.alloc h o) = Some o.
Proof. unfold Heap.alloc. simpl. apply lookup_insert_eq. Qed.

Lemma preserved_trans (h1 h2 h3 : gmap nat Heap.Object) :
  preserved h1 h2 -> preserved h2 h3 -> preserved h1 h3.
Proof. intros H12 H23 l o Hl. apply H23, H12, Hl. Qed.

Lemma readStrings_preserved h h' l items :
  preserved h h' -> Heap.readStrings h l = Some items ->
  Heap.readStrings h' l = Some items.
Proof.
  intros Hp. unfold Heap.readStrings.
  destruct (h !! l) as [o|] eqn:Hl; [|discriminate].
  rewrite (Hp _ _ Hl). auto.
Qed.

Lemma readAnchors_preserved h h' l items :
  preserved h h' -> Heap.readAnchors h l = Some items ->
  Heap.readAnchors h' l = Some items.
Proof.
  intros Hp. unfold Heap.readAnchors.
  destruct (h !! l) as [o|] eqn:Hl; [|discriminate].
  rewrite (Hp _ _ Hl). auto.
Qed.

Lemma readThemes_preserved h h' l ts :
  preserved h h' -> Heap.readThemes h l = Some ts ->
  Heap.readThemes h' l = Some ts.
Proof.
  intros Hp. destruct l as [t|]; simpl; [|auto].
  destruct (Heap.readStrings h t) as [items|] eqn:Ht; [|discriminate].
  rewrite (readStrings_preserved _ _ _ _ Hp Ht). auto.
Qed.

Lemma readCard_preserved h h' l card :
  preserved h h' -> Heap.readCard h l = Some card ->
  Heap.readCard h' l = Some card.
Proof.
  intros Hp. unfold Heap.readCard.
  destruct (h !! l) as [o|] eqn:Hl; [|discriminate].
  rewrite (Hp _ _ Hl). destruct o as [story facts th an| |]; auto.
  destruct (Heap.readStrings h facts) as [fs|] eqn:Hf; [|discriminate].
  destruct (Heap.readThemes h th) as [ts|] eqn:Ht; [|discriminate].
  destruct (Heap.readAnchors h an) as [ans|] eqn:Ha; [|discriminate].
  rewrite (readStrings_preserved _ _ _ _ Hp Hf),
          (readThemes_preserved _ _ _ _ Hp Ht),
          (readAnchors_preserved _ _ _ _ Hp Ha). auto.
Qed.

(** C5.  The projected state card has the story so far followed by a
    space and the text of the chosen branch, the key facts followed by
    the entry "Chose: " with that text, and the anchors as they were.  On
    the object store the projection makes new objects and changes none:
    every object of the store before is in the store after, and the
    canonical card reads as before. *)
Theorem projection_extends_story_and_facts :
  forall (card : StateCard) (scene : Scene) (choice : Choice),
    let projected := projectStateForChoice card scene choice in
    let choiceText :=
      match choice with ChoiceA => choiceA scene | ChoiceB => choiceB scene
      end in
    storySoFar projected = storySoFar card +:+ " " +:+ choiceText
    /\ keyFacts projected = keyFacts card ++ ["Chose: " +:+ choiceText]
    /\ anchors projected = anchors card
    /\ forall (h : gmap nat Heap.Object) (canonical : nat),
         Heap.readCard h canonical = Some card ->
         exists fresh_card h',
           Heap.projectStateForChoice h canonical scene choice
           = Some (fresh_card, h')
           /\ Heap.readCard h' fresh_card = Some projected
           /\ h !! fresh_card = None
           /\ preserved h h'
           /\ Heap.readCard h' canonical = Some card.
Proof.
  intros card scene choice projected choiceText.
  assert (Htext : choiceTextOf scene choice = choiceText).
  { destruct choice; reflexivity. }
  subst projected. unfold projectStateForChoice. rewrite Htext. simpl.
  split; [reflexivity|]. split; [reflexivity|]. split; [reflexivity|].
  intros h canonical Hread.
  unfold Heap.projectStateForChoice. rewrite Htext.
  pose proof Hread as Hread0.
  unfold Heap.readCard in Hread.
  destruct (h !! canonical) as [o|] eqn:Hc; [|discriminate].
  destruct o as [story facts th an| |]; try discriminate.
  destruct (Heap.readStrings h facts) as [fs|] eqn:Hf; [|discriminate].
  destruct (Heap.readThemes h th) as [ts|] eqn:Ht; [|discriminate].
  destruct (Heap.readAnchors h an) as [ans|] eqn:Ha; [|discriminate].
  injection Hread as <-. cbn [storySoFar keyFacts themes anchors].
  set (o1 := Heap.StringArray (fs ++ ["Chose: " +:+ choiceText])).
  destruct (Heap.alloc h o1) as [facts' h1] eqn:Ha1.
  set (o2 := Heap.CardObject (story +:+ " " +:+ choiceText) facts' th an).
  destruct (Heap.alloc h1 o2) as [card' h2] eqn:Ha2.
  assert (P1 : preserved h h1).
  { pose proof (alloc_preserved h o1) as P. rewrite Ha1 in P. exact P. }
  assert (P2 : preserved h1 h2).
  { pose proof (alloc_preserved h1 o2) as P. rewrite Ha2 in P. exact P. }
  assert (L1 : h1 !! facts' = Some o1).
  { pose proof (alloc_lookup h o1) as L. rewrite Ha1 in L. exact L. }
  assert (L2 : h2 !! card' = Some o2).
  { pose proof (alloc_lookup h1 o2) as L. rewrite Ha2 in L. exact L. }
  assert (P : preserved h h2) by (eapply preserved_trans; eauto).
  exists card', h2. split; [reflexivity|]. split.
  - unfold Heap.readCard. rewrite L2. subst o2. cbv beta iota.
    assert (Hs : Heap.readStrings h2 facts'
                 = Some (fs ++ ["Chose: " +:+ choiceText])).
    { unfold Heap.readStrings. rewrite (P2 _ _ L1). reflexivity. }
    rewrite Hs, (readThemes_preserved _ _ _ _ P Ht),
            (readAnchors_preserved _ _ _ _ P Ha). reflexivity.
  - split.
    + injection Ha2 as <- _.
      destruct (h !! fresh (dom h1)) as [x|] eqn:Hx; [|reflexivity].
      exfalso. apply (is_fresh (dom h1)). apply elem_of_dom.
      exists x. apply P1. exact Hx.
    + split; [exact P|]. eapply readCard_preserved; eauto.
Qed.

(** The projection of the sample card for choice A, on the sample store. *)
Lemma projection_extends_story_and_facts_witness :
  Heap.readCard Samples.sampleHeap 0
  = Some (mkStateCard "We entered the mansion."
            ["The door locked behind us"] None [Samples.brassKey])
  /\ exists fresh_card h',
       Heap.projectStateForChoice Samples.sampleHeap 0 Samples.sceneOne
         ChoiceA = Some (fresh_card, h')
       /\ Heap.readCard h' fresh_card
          = Some (mkStateCard
                    "We entered the mansion. Go down to the cellar"
                    ["The door locked behind us";
                     "Chose: Go down to the cellar"]
                    None [Samples.brassKey])
       /\ Heap.readCard h' 0
          = Some (mkStateCard "We entered the mansion."
                    ["The door locked behind us"] None [Samples.brassKey]).
Proof.
  assert (Hread : Heap.readCard Samples.sampleHeap 0
                  = Some (mkStateCard "We entered the mansion."
                            ["The door locked behind us"] None
                            [Samples.brassKey])).
  { vm_compute. reflexivity. }
  split; [exact Hread|].
  destruct (projection_extends_story_and_facts
              (mkStateCard "We entered the mansion."
                 ["The door locked behind us"] None [Samples.brassKey])
              Samples.sceneOne ChoiceA)
    as (_ & _ & _ & Hheap).
  destruct (Hheap Samples.sampleHeap 0%nat Hread)
    as (fresh_card & h' & Hp & Hnew & _ & _ & Hold).
  exists fresh_card, h'.
  split; [exact Hp|]. split; [exact Hnew|exact Hold].
Defined.

(** With the scene planner of the repository the one call of
    [coordinateChildScenario] throws while the prompt is built. *)
Lemma shipped_child_scenario_throws provider clock premise card parent
    choice suggestion :
  coordinateChildScenario (ScenePlanner.generateScene provider) clock
    premise card parent choice suggestion
  = Err (TypeError "Cannot read properties of undefined (reading 'join')").
Proof. reflexivity. Qed.

(** C2 on the code.  [coordinateChildScenario] calls [generateScene] with
    four arguments: the premise, the projected state card, the next scene
    number and the callback suggestion.  The parameter [episodeBible]
    receives the projected state card and the parameter [stateCard] the
    number; no argument is an episode bible, and the bible the
    orchestrator holds is not read.  With the scene planner of the
    repository the call throws while the prompt is built, whatever the
    provider would answer. *)
Theorem child_scenario_call_has_no_bible :
  forall (provider : ScenePlanner.Provider) (clock : Clock)
         (premise : string) (card : StateCard) (parent : Scene)
         (choice : Choice) (suggestion : CallbackSuggestion),
    let '(second, third, fourth, fifth) :=
      childSceneArguments card parent choice suggestion in
    second = JsStateCard (projectStateForChoice card parent choice)
    /\ third = JsNumber (sceneNumber parent + 1)
    /\ (forall bible,
          second <> JsEpisodeBible bible /\ third <> JsEpisodeBible bible
          /\ fourth <> JsEpisodeBible bible /\ fifth <> JsEpisodeBible bible)
    /\ coordinateChildScenario (ScenePlanner.generateScene provider) clock
         premise card parent choice suggestion
       = Err (TypeError
                "Cannot read properties of undefined (reading 'join')").
Proof.
  intros provider clock premise card parent choice suggestion.
  unfold coordinateChildScenario, childSceneArguments.
  split; [reflexivity|]. split; [reflexivity|]. split.
  - intros bible. repeat split; try discriminate.
    destruct (shouldUseCallback suggestion); discriminate.
  - reflexivity.
Qed.

(** With the scene planner of the repository the child generation stores
    no option. *)
Lemma shipped_planner_stores_no_option provider analyze clockA clockB this
    premise card parent :
  exists e,
    coordinateChildGeneration (ScenePlanner.generateScene provider) analyze
      clockA clockB this premise card parent = (Err e, this).
Proof.
  unfold coordinateChildGeneration.
  destruct (analyze card (upcomingContext parent)) as [suggestion|e].
  - rewrite (shipped_child_scenario_throws provider clockA premise card
               parent ChoiceA suggestion).
    eexists. reflexivity.
  - eexists. reflexivity.
Qed.

(** The join of the two branches, for any scene planner in the place of
    the one of the repository: the child generation is all or nothing.
    When the continuity analysis and both branches succeed, both
    candidates are stored; when any of the three fails, the call fails and
    the orchestrator is as it was.  With the scene planner of the
    repository only the second case occurs
    ([shipped_planner_stores_no_option]). *)
Lemma child_generation_all_or_nothing :
  forall (generateScene : ScenePlannerMethod)
         (analyzeCallbacks : ContinuityMethod) (clockA clockB : Clock)
         (this : State) (premise : string) (card : StateCard)
         (parent : Scene),
    let branch clock choice suggestion :=
      coordinateChildScenario generateScene clock premise card parent
        choice suggestion in
    let outcome :=
      coordinateChildGeneration generateScene analyzeCallbacks clockA
        clockB this premise card parent in
    (exists suggestion a b,
        analyzeCallbacks card (upcomingContext parent) = Ok suggestion
        /\ branch clockA ChoiceA suggestion = Ok a
        /\ branch clockB ChoiceB suggestion = Ok b
        /\ outcome = (Ok tt, setOptions this (Some a) (Some b)))
    \/ (exists e,
        outcome = (Err e, this)
        /\ (is_ok (analyzeCallbacks card (upcomingContext parent)) = false
            \/ exists suggestion,
                 analyzeCallbacks card (upcomingContext parent)
                 = Ok suggestion
                 /\ (is_ok (branch clockA ChoiceA suggestion) = false
                     \/ is_ok (branch clockB ChoiceB suggestion) = false))).
Proof.
  intros generateScene analyzeCallbacks clockA clockB this premise card
         parent branch outcome.
  subst outcome branch. unfold coordinateChildGeneration.
  destruct (analyzeCallbacks card (upcomingContext parent))
    as [suggestion|e] eqn:Han.
  - destruct (coordinateChildScenario generateScene clockA premise card
                parent ChoiceA suggestion) as [a|ea] eqn:HA;
    destruct (coordinateChildScenario generateScene clockB premise card
                parent ChoiceB suggestion) as [b|eb] eqn:HB.
    + left. exists suggestion, a, b. auto.
    + right. exists eb. split; [reflexivity|]. right.
      exists suggestion. split; [reflexivity|]. right.
      rewrite HB. reflexivity.
    + right. exists ea. split; [reflexivity|]. right.
      exists suggestion. split; [reflexivity|]. left.
      rewrite HA. reflexivity.
    + right. exists ea. split; [reflexivity|]. right.
      exists suggestion. split; [reflexivity|]. left.
      rewrite HA. reflexivity.
  - right. exists e. split; [reflexivity|]. left. reflexivity.
Qed.

Lemma execute_choice_state call this w :
  snd (fst (execute ProcessChoiceTools call this w)) = this.
Proof.
  unfold execute.
  destruct (offered ProcessChoiceTools call) eqn:Hoff; simpl;
    [|reflexivity].
  destruct call; simpl in Hoff; try discriminate; try reflexivity.
  - destruct (saveEpisode w episode generatedId now). reflexivity.
  - destruct (loadEpisode w episodeId0). reflexivity.
  - destruct (updateEpisodeStats w episodeId0 totalScenes totalChoices
                newStatus now). reflexivity.
Qed.

Lemma generateText_choice_state n : forall policy history this w,
  snd (fst (generateText n ProcessChoiceTools policy history this w)) = this.
Proof.
  induction n as [|n IH]; intros policy history this w; simpl;
    [reflexivity|].
  destruct (policy history) as [call| |]; try reflexivity.
  pose proof (execute_choice_state call this w) as He.
  destruct (execute ProcessChoiceTools call this w) as [[r this'] w'].
  simpl in He. subst this'. apply IH.
Qed.

Lemma execute_keeps_episodes tools call this w :
  writesEpisodes call = false ->
  episodes (snd (execute tools call this w)) = episodes w.
Proof.
  intros Hw. unfold execute.
  destruct (offered tools call); simpl; [|reflexivity].
  destruct call; simpl in Hw; try discriminate; simpl; try reflexivity.
  - destruct generated; reflexivity.
  - unfold loadEpisode.
    destruct (single (episodeWithId w episodeId0)); reflexivity.
  - unfold loadEpisodeBible.
    destruct (single (biblesOf w episodeId0)); reflexivity.
  - unfold saveEpisodeBible, upsertBible.
    destruct (episodeWithId w episodeId0), (biblesOf w episodeId0);
      reflexivity.
  - unfold checkEpisodeBibleExists.
    destruct (single (biblesOf w episodeId0)); reflexivity.
Qed.

Lemma generateText_keeps_episodes n : forall tools policy history this w,
  (forall h call, policy h = CallTool call -> writesEpisodes call = false) ->
  episodes (snd (generateText n tools policy history this w)) = episodes w.
Proof.
  induction n as [|n IH]; intros tools policy history this w Hpol; simpl;
    [reflexivity|].
  destruct (policy history) as [call| |] eqn:Hp; try reflexivity.
  pose proof (execute_keeps_episodes tools call this w (Hpol _ _ Hp)) as He.
  destruct (execute tools call this w) as [[r this'] w'].
  simpl in He. rewrite IH; assumption.
Qed.

Lemma statusOf_episodes w w' episodeId :
  episodes w' = episodes w -> statusOf w' episodeId = statusOf w episodeId.
Proof.
  intros H. unfold statusOf, episodeWithId. rewrite H. reflexivity.
Qed.

(** C4, as the code has it.  When the candidate of the choice is absent
    from the window, [processChoice] fails: with the error "No
    pre-generated scenario available for choice" when its orchestration
    call resolved, and with the error of that call otherwise.  The window
    and the bible of the orchestrator are as before.  No worker of the
    child generation is called: the outcome is the same for every scene
    planner and continuity agent.  The database is as the orchestration
    call left it, which ran before the window was read; when the
    orchestrating model called no tool that writes the episodes table,
    the episodes, and so the status of the episode, are as before. *)
Theorem absent_candidate_fails_without_generation :
  forall (generateScene : ScenePlannerMethod)
         (analyzeCallbacks : ContinuityMethod) (clockA clockB : Clock)
         (maxCalls : nat) (policy : Policy) (this : State) (w : World)
         (episodeId : string) (choice : Choice) (userId : string),
    candidate this choice = None ->
    let run := generateText maxCalls ProcessChoiceTools policy [] this w in
    let outcome :=
      processChoice generateScene analyzeCallbacks clockA clockB maxCalls
        policy this w episodeId choice userId in
    (exists e, fst (fst outcome) = Err e)
    /\ (is_ok (fst (fst run)) = true ->
        fst (fst outcome) = Err noPregeneratedScenario)
    /\ snd (fst outcome) = this
    /\ snd outcome = snd run
    /\ (forall generateScene' analyzeCallbacks' clockA' clockB',
          processChoice generateScene' analyzeCallbacks' clockA' clockB'
            maxCalls policy this w episodeId choice userId = outcome)
    /\ ((forall h call, policy h = CallTool call ->
                        writesEpisodes call = false) ->
        episodes (snd outcome) = episodes w
        /\ statusOf (snd outcome) episodeId = statusOf w episodeId).
Proof.
  intros generateScene analyzeCallbacks clockA clockB maxCalls policy this w
         episodeId choice userId Habsent run outcome.
  assert (Hout : forall gs ac ca cb,
            processChoice gs ac ca cb maxCalls policy this w episodeId
              choice userId
            = (match fst (fst run) with
               | Ok _ => Err noPregeneratedScenario
               | Err e => Err e
               end, this, snd run)).
  { intros gs ac ca cb. unfold processChoice. subst run.
    pose proof (generateText_choice_state maxCalls policy [] this w) as Hs.
    destruct (generateText maxCalls ProcessChoiceTools policy [] this w)
      as [[r this1] w1].
    simpl in Hs. subst this1. simpl.
    destruct r as [history|e]; [|reflexivity].
    rewrite Habsent. reflexivity. }
  subst outcome. rewrite Hout. simpl.
  split.
  { destruct (fst (fst run)); eexists; reflexivity. }
  split.
  { destruct (fst (fst run)); [reflexivity|discriminate]. }
  split; [reflexivity|]. split; [reflexivity|]. split.
  { intros gs ac ca cb. apply Hout. }
  intros Hpol.
  assert (He : episodes (snd run) = episodes w).
  { subst run. apply generateText_keeps_episodes. exact Hpol. }
  split; [exact He|]. apply statusOf_episodes. exact He.
Qed.

(** Choice A on the window that holds only option B, with a model that
    calls no tool. *)
Lemma absent_candidate_fails_without_generation_witness :
  let outcome :=
    processChoice Samples.cellarOnlyPlanner Samples.quietContinuity
      Samples.clock Samples.clock 10 Samples.idle Samples.onlyOptionB
      Samples.oneEpisode "ep1" ChoiceA "user-1" in
  fst (fst outcome) = Err noPregeneratedScenario
  /\ snd (fst outcome) = Samples.onlyOptionB
  /\ statusOf (snd outcome) "ep1" = Some Active.
Proof.
  destruct (absent_candidate_fails_without_generation
              Samples.cellarOnlyPlanner Samples.quietContinuity
              Samples.clock Samples.clock 10 Samples.idle
              Samples.onlyOptionB Samples.oneEpisode "ep1" ChoiceA "user-1"
              eq_refl)
    as (_ & Herr & Hthis & _ & _ & Hstatus).
  split; [exact (Herr eq_refl)|]. split; [exact Hthis|].
  assert (Hidle : forall h call,
            Samples.idle h = CallTool call -> writesEpisodes call = false).
  { intros h call Hcall. discriminate Hcall. }
  destruct (Hstatus Hidle) as [_ Hs]. rewrite Hs. reflexivity.
Defined.

(** C4 as the spec states it fails on the status: the model closes the
    episode through [updateEpisodeStats] in the orchestration call, then
    [processChoice] reads the window, finds no candidate for choice A and
    fails; the episode was active and is completed. *)
Lemma absent_candidate_status_can_change :
  let outcome :=
    processChoice Samples.cellarOnlyPlanner Samples.quietContinuity
      Samples.clock Samples.clock 10 Samples.closingChoice
      Samples.onlyOptionB Samples.oneEpisode "ep1" ChoiceA "user-1" in
  candidate Samples.onlyOptionB ChoiceA = None
  /\ fst (fst outcome) = Err noPregeneratedScenario
  /\ statusOf Samples.oneEpisode "ep1" = Some Active
  /\ statusOf (snd outcome) "ep1" = Some Completed.
Proof. cbv zeta. repeat split; reflexivity. Qed.

Lemma biblesOf_app w episodeId row :
  biblesOf {| episodes := episodes w;
              episode_bibles := episode_bibles w ++ [row];
              next_uuid := S (next_uuid w) |} episodeId
  = biblesOf w episodeId
    ++ (if String.eqb (bible_episode_id row) episodeId then [row] else []).
Proof. unfold biblesOf. simpl. rewrite List.filter_app. reflexivity. Qed.

(** [saveEpisodeBible] for an episode that exists and has no bible adds
    the row of the episode. *)
Lemma saveEpisodeBible_first_row w episodeId bible :
  episodeWithId w episodeId <> [] ->
  biblesOf w episodeId = [] ->
  saveEpisodeBible w episodeId bible
  = (BibleSaved (next_uuid w),
     {| episodes := episodes w;
        episode_bibles :=
          episode_bibles w
          ++ [{| bible_id := next_uuid w; bible_episode_id := episodeId;
                 bible_columns := bible |}];
        next_uuid := S (next_uuid w) |})
  /\ biblesOf (snd (saveEpisodeBible w episodeId bible)) episodeId
     = [{| bible_id := next_uuid w; bible_episode_id := episodeId;
           bible_columns := bible |}].
Proof.
  intros Hex Hnone. unfold saveEpisodeBible, upsertBible.
  destruct (episodeWithId w episodeId) as [|e es]; [contradiction|].
  rewrite Hnone. cbn [fst snd]. split; [reflexivity|].
  rewrite biblesOf_app, Hnone. cbn [bible_episode_id app].
  rewrite String.eqb_refl. reflexivity.
Qed.

(** [saveEpisodeBible] for an episode that has a bible is refused by the
    unique index and changes nothing. *)
Lemma saveEpisodeBible_refused w episodeId bible row rows :
  biblesOf w episodeId = row :: rows ->
  saveEpisodeBible w episodeId bible = (ToolFailure, w).
Proof.
  intros Hrow. unfold saveEpisodeBible, upsertBible. rewrite Hrow.
  destruct (episodeWithId w episodeId); reflexivity.
Qed.

(** When the orchestrating model follows the workflow of the system
    prompt, a start on an episode with at most one bible leaves exactly
    one: it is created and saved when there was none, and loaded, with no
    call of the story director, when there was one. *)
Lemma instructed_start_leaves_one_bible n this w episodeId premise bible :
  (3 <= n)%nat ->
  episodeWithId w episodeId <> [] ->
  (length (biblesOf w episodeId) <= 1)%nat ->
  length (biblesOf
            (snd (startEpisodeOrchestration n
                    (instructed episodeId premise (Ok bible)) this w))
            episodeId) = 1%nat.
Proof.
  intros Hn Hex Hlen.
  destruct n as [|[|[|n]]]; try lia.
  unfold startEpisodeOrchestration.
  destruct (biblesOf w episodeId) as [|row rows] eqn:Hb.
  - cbn [generateText instructed app]. unfold execute at 1.
    cbn [offered negb]. unfold checkEpisodeBibleExists. rewrite Hb.
    cbn [single app]. unfold execute at 1. cbn [offered negb app].
    unfold execute at 1. cbn [offered negb].
    destruct (saveEpisodeBible_first_row w episodeId bible Hex Hb)
      as [Hsave Hrows].
    rewrite Hsave in Hrows |- *. cbn [snd] in Hrows. cbn [app].
    destruct n; simpl; rewrite Hrows; reflexivity.
  - destruct rows as [|row' rows]; [|simpl in Hlen; lia].
    cbn [generateText instructed app]. unfold execute at 1.
    cbn [offered negb]. unfold checkEpisodeBibleExists. rewrite Hb.
    cbn [single app]. unfold execute at 1. cbn [offered negb].
    unfold loadEpisodeBible. rewrite Hb. cbn [single app].
    destruct n; simpl; rewrite Hb; reflexivity.
Qed.

(** C1 on the code.  The episode has its bible in the table.  In a later
    start the model asks the story director for a bible and saves it,
    as on the first start and without the check of the system prompt.  On
    every orchestrator, a new one or the one that holds the first bible,
    the story director runs again and its bible takes the place of the
    one in memory: [delegateToStoryDirector] does not ask
    [hasEpisodeBible].  The save is refused by the unique index of the
    table, so the database is as before and still reads the first bible:
    no second bible is persisted, but a second one is created and the
    existing one is not loaded. *)
Theorem later_start_regenerates_the_bible :
  forall (maxCalls : nat) (this : State) (w : World)
         (episodeId premise : string) (second : EpisodeBible)
         (row : BibleRow),
    (2 <= maxCalls)%nat ->
    biblesOf w episodeId = [row] ->
    let run :=
      startEpisodeOrchestration maxCalls
        (scripted [DelegateToStoryDirector premise (Ok second);
                   SaveEpisodeBible episodeId second]) this w in
    fst (fst run)
    = Ok [(DelegateToStoryDirector premise (Ok second),
           StoryDirectorResult second);
          (SaveEpisodeBible episodeId second, ToolFailure)]
    /\ getEpisodeBible (snd (fst run)) = Ok second
    /\ snd run = w
    /\ loadEpisodeBible (snd run) episodeId
       = (BibleLoaded (Some (bible_columns row)), w).
Proof.
  intros maxCalls this w episodeId premise second row Hn Hrow run.
  assert (Hrun : run
                 = (Ok [(DelegateToStoryDirector premise (Ok second),
                         StoryDirectorResult second);
                        (SaveEpisodeBible episodeId second, ToolFailure)],
                    storeEpisodeBible this second, w)).
  { subst run. unfold startEpisodeOrchestration.
    destruct maxCalls as [|[|n]]; try lia.
    cbn [generateText scripted nth_error length app].
    unfold execute at 1. cbn [offered negb app length nth_error].
    unfold execute at 1. cbn [offered negb].
    rewrite (saveEpisodeBible_refused w episodeId second row [] Hrow).
    cbn [app length]. destruct n; reflexivity. }
  rewrite Hrun. cbn [fst snd].
  split; [reflexivity|]. split; [reflexivity|]. split; [reflexivity|].
  unfold loadEpisodeBible. rewrite Hrow. reflexivity.
Qed.

(** The bible of "ep1" is in the table.  A second start on a new
    orchestrator, with another answer of the story director: the
    orchestrator holds the new bible, the table the first. *)
Lemma later_start_regenerates_the_bible_witness :
  let run :=
    startEpisodeOrchestration 12 MoreSamples.eagerRestart initial
      MoreSamples.withBible in
  getEpisodeBible (snd (fst run)) = Ok MoreSamples.revisedBible
  /\ loadEpisodeBible (snd run) "ep1"
     = (BibleLoaded (Some Samples.mansionBible), MoreSamples.withBible)
  /\ MoreSamples.revisedBible <> Samples.mansionBible.
Proof.
  destruct (later_start_regenerates_the_bible 12 initial
              MoreSamples.withBible "ep1"
              "We are trapped in a haunted mansion"
              MoreSamples.revisedBible
              {| bible_id := 0; bible_episode_id := "ep1";
                 bible_columns := Samples.mansionBible |}
              ltac:(lia) eq_refl)
    as (_ & Hmemory & _ & Hload).
  cbv zeta. split; [exact Hmemory|]. split; [exact Hload|].
  discriminate.
Defined.

End Orchestration.

(** ** State tracker: how the local operations compose *)

Section StateTrackerAlgebra.
Import StateAgent.

Lemma map_useAnchor_absent anchorId l :
  (forall a, In a l -> anchor_id a <> anchorId) ->
  List.map (useAnchor anchorId) l = l.
Proof.
  induction l as [|a l IH]; intros Hno; simpl; [reflexivity|].
  rewrite IH by (intros b Hb; apply Hno; right; exact Hb).
  unfold useAnchor.
  destruct (String.eqb_spec (anchor_id a) anchorId) as [Heq|_];
    [|reflexivity].
  exfalso. apply (Hno a); [left; reflexivity|exact Heq].
Qed.

(** X1.  [markAnchorAsUsed] sets the flag of every anchor that carries the id,
    duplicates included, keeps the other anchors, the order, the number of
    anchors, the story and the facts; for an id that no anchor carries it
    returns the card as it was and raises nothing. *)
Theorem mark_sets_all_with_id_and_ignores_unknown :
  forall (card : StateCard) (anchorId : string),
    let marked := markAnchorAsUsed card anchorId in
    length (anchors marked) = length (anchors card)
    /\ (forall a, In a (anchors marked) -> anchor_id a = anchorId ->
          isUsed a = true)
    /\ (forall a, In a (anchors card) -> anchor_id a <> anchorId ->
          In a (anchors marked))
    /\ List.map anchor_id (anchors marked) = List.map anchor_id (anchors card)
    /\ storySoFar marked = storySoFar card
    /\ keyFacts marked = keyFacts card
    /\ ((forall a, In a (anchors card) -> anchor_id a <> anchorId) ->
        marked = card).
Proof.
  intros card anchorId marked. subst marked. unfold markAnchorAsUsed.
  cbn [anchors storySoFar keyFacts themes].
  split; [apply List.length_map|]. split.
  { intros a Hin Hid. apply List.in_map_iff in Hin as (b & Hb & _).
    unfold useAnchor in Hb.
    destruct (String.eqb_spec (anchor_id b) anchorId) as [_|Hne].
    - subst a. reflexivity.
    - subst a. contradiction. }
  split.
  { intros a Hin Hne. apply List.in_map_iff. exists a. split; [|exact Hin].
    unfold useAnchor.
    destruct (String.eqb_spec (anchor_id a) anchorId); [contradiction|].
    reflexivity. }
  split.
  { rewrite List.map_map. apply List.map_ext. intros a. unfold useAnchor.
    destruct (String.eqb (anchor_id a) anchorId); reflexivity. }
  split; [reflexivity|]. split; [reflexivity|].
  intros Hno. rewrite map_useAnchor_absent by exact Hno.
  destruct card; reflexivity.
Qed.

(** Marking "anchor_bell" and marking an id nobody has, on the crowded
    sample card. *)
Lemma mark_sets_all_with_id_and_ignores_unknown_witness :
  List.map isUsed
    (anchors (markAnchorAsUsed Samples.crowdedCard "anchor_bell"))
  = [true; false; true]
  /\ In Samples.brassKey
       (anchors (markAnchorAsUsed Samples.crowdedCard "anchor_bell"))
  /\ markAnchorAsUsed Samples.crowdedCard "anchor_ghost"
     = Samples.crowdedCard.
Proof.
  split; [reflexivity|]. split.
  - destruct (mark_sets_all_with_id_and_ignores_unknown Samples.crowdedCard
                "anchor_bell") as (_ & _ & Hkeep & _).
    apply Hkeep; [left; reflexivity|discriminate].
  - destruct (mark_sets_all_with_id_and_ignores_unknown Samples.crowdedCard
                "anchor_ghost") as (_ & _ & _ & _ & _ & _ & Hsame).
    apply Hsame. intros a Hin.
    repeat (destruct Hin as [<-|Hin]; [discriminate|]). destruct Hin.
Defined.

Lemma useAnchor_idem anchorId a :
  useAnchor anchorId (useAnchor anchorId a) = useAnchor anchorId a.
Proof.
  unfold useAnchor at 2.
  destruct (String.eqb (anchor_id a) anchorId) eqn:He.
  - unfold useAnchor. simpl. rewrite He. reflexivity.
  - unfold useAnchor. rewrite He. reflexivity.
Qed.

Lemma useAnchor_comm id1 id2 a :
  useAnchor id1 (useAnchor id2 a) = useAnchor id2 (useAnchor id1 a).
Proof.
  unfold useAnchor.
  destruct (String.eqb (anchor_id a) id1) eqn:H1,
           (String.eqb (anchor_id a) id2) eqn:H2; simpl;
    rewrite ?H1, ?H2; reflexivity.
Qed.

(** X2.  Marking is idempotent and the order of two markings does not matter. *)
Theorem marking_idempotent_and_commutative :
  forall (card : StateCard) (id1 id2 : string),
    markAnchorAsUsed (markAnchorAsUsed card id1) id1
    = markAnchorAsUsed card id1
    /\ markAnchorAsUsed (markAnchorAsUsed card id1) id2
       = markAnchorAsUsed (markAnchorAsUsed card id2) id1.
Proof.
  intros card id1 id2. unfold markAnchorAsUsed.
  cbn [anchors storySoFar keyFacts themes]. rewrite !List.map_map. split.
  - f_equal. apply List.map_ext. intros a. apply useAnchor_idem.
  - f_equal. apply List.map_ext. intros a. apply useAnchor_comm.
Qed.

Lemma keepAnchor_max n m a :
  keepAnchor m a && keepAnchor n a = keepAnchor (Z.max n m) a.
Proof.
  unfold keepAnchor, maxAgeScenes. destruct (isUsed a); simpl;
    [reflexivity|].
  destruct (Z.ltb_spec (m - createdAtScene a) 8),
           (Z.ltb_spec (n - createdAtScene a) 8),
           (Z.ltb_spec (Z.max n m - createdAtScene a) 8);
    simpl; try reflexivity; lia.
Qed.

Lemma filter_filter_andb {T : Type} (f g : T -> bool) l :
  List.filter f (List.filter g l) = List.filter (fun x => f x && g x) l.
Proof.
  induction l as [|x l IH]; simpl; [reflexivity|].
  destruct (g x) eqn:Hg; simpl.
  - rewrite andb_true_r. destruct (f x); rewrite IH; reflexivity.
  - rewrite andb_false_r. exact IH.
Qed.

(** X3.  Two cleanups in a row, at any two scene numbers and in any order, are
    the cleanup at the later of the two. *)
Theorem cleanups_compose_to_the_later :
  forall (card : StateCard) (n m : Z),
    cleanupStateCard (cleanupStateCard card n) m
    = cleanupStateCard card (Z.max n m).
Proof.
  intros card n m. unfold cleanupStateCard.
  cbn [anchors storySoFar keyFacts themes].
  rewrite slice_last_idem, filter_filter_andb. f_equal.
  apply List.filter_ext. intros a. apply keepAnchor_max.
Qed.

(** X4.  Marking before a cleanup protects: every anchor that carries the
    marked id is in the cleaned card, used, however old it is. *)
Theorem marked_anchor_survives_cleanup :
  forall (card : StateCard) (anchorId : string) (n : Z) (a : Anchor),
    In a (anchors card) ->
    anchor_id a = anchorId ->
    exists a',
      In a' (anchors (cleanupStateCard (markAnchorAsUsed card anchorId) n))
      /\ isUsed a' = true
      /\ anchor_id a' = anchor_id a
      /\ description a' = description a
      /\ createdAtScene a' = createdAtScene a.
Proof.
  intros card anchorId n a Hin Hid.
  exists (useAnchor anchorId a).
  assert (Hu : useAnchor anchorId a
               = {| anchor_id := anchor_id a; description := description a;
                    isUsed := true; createdAtScene := createdAtScene a |}).
  { unfold useAnchor. rewrite <- Hid, String.eqb_refl. reflexivity. }
  split.
  - unfold cleanupStateCard, markAnchorAsUsed.
    cbn [anchors storySoFar keyFacts themes].
    apply List.filter_In. split.
    + apply List.in_map. exact Hin.
    + rewrite Hu. reflexivity.
  - rewrite Hu. repeat split; reflexivity.
Qed.

(** The torn note is ten scenes old at scene 12: cleaned away when it is
    not marked, kept when it is. *)
Lemma marked_anchor_survives_cleanup_witness :
  List.map anchor_id
    (anchors (cleanupStateCard Samples.crowdedCard 12))
  = ["anchor_key"; "anchor_bell"]
  /\ exists a',
       In a' (anchors (cleanupStateCard
                         (markAnchorAsUsed Samples.crowdedCard "anchor_note")
                         12))
       /\ isUsed a' = true /\ anchor_id a' = "anchor_note".
Proof.
  split; [reflexivity|].
  destruct (marked_anchor_survives_cleanup Samples.crowdedCard "anchor_note"
              12
              {| anchor_id := "anchor_note"; description := "the torn note";
                 isUsed := false; createdAtScene := 2 |})
    as (a' & Hin & Hu & Hid & _).
  - right. left. reflexivity.
  - reflexivity.
  - exists a'. auto.
Defined.

Lemma last_skipn {T : Type} (l : list T) k :
  (k < length l)%nat -> last (List.skipn k l) = last l.
Proof.
  revert k. induction l as [|x l IH]; intros k Hk; simpl in Hk; [lia|].
  destruct k as [|k]; [reflexivity|]. simpl.
  rewrite IH by lia. destruct l as [|y l]; [simpl in Hk; lia|reflexivity].
Qed.

(** X5.  The cap on the key facts drops the oldest facts, never the newest:
    a cleanup keeps the last fact.  After a projection for a choice, the
    last fact of the cleaned card is the "Chose: " entry of that choice. *)
Theorem cleanup_keeps_the_newest_fact :
  forall (card : StateCard) (scene : Scene) (choice : Choice) (n : Z),
    last (keyFacts (cleanupStateCard card n)) = last (keyFacts card)
    /\ last (keyFacts
               (cleanupStateCard
                  (Orchestrator.projectStateForChoice card scene choice) n))
       = Some ("Chose: " +:+ Orchestrator.choiceTextOf scene choice).
Proof.
  assert (Hlast : forall c n,
            last (keyFacts (cleanupStateCard c n)) = last (keyFacts c)).
  { intros c n. unfold cleanupStateCard, slice_last.
    cbn [anchors storySoFar keyFacts themes].
    destruct (keyFacts c) as [|f fs] eqn:Hf; [reflexivity|].
    apply last_skipn. unfold maxKeyFacts. simpl. lia. }
  intros card scene choice n. split; [apply Hlast|].
  rewrite Hlast. unfold Orchestrator.projectStateForChoice.
  cbn [anchors storySoFar keyFacts themes]. apply last_snoc.
Qed.

End StateTrackerAlgebra.

(** ** Orchestrator: the paths of [processChoice] *)

Section ChoicePaths.
Import Orchestrator Database.

(** No run has a tool result that [extractToolResult] finds. *)
Lemma extractToolResult_undefined history toolName :
  extractToolResult history toolName = None.
Proof.
  unfold extractToolResult.
  destruct (List.find _ (toolCalls history)); reflexivity.
Qed.

(** X6.  [processChoice] never returns a scene, whatever the model, the
    scene planner, the continuity agent, the database, the orchestrator
    and the choice.  When the orchestration call resolves and the window
    holds a candidate for the choice, it throws "State Agent failed to
    update state card", also when the state agent delegation of the call
    succeeded: the state update is read off the entries of
    [result.toolCalls], which carry no result.  The orchestrator, window
    and bible, is left as it was, so the candidate is still there, and
    the database is what the tools of the orchestration call made of
    it. *)
Theorem choice_never_returns_a_scene :
  forall (generateScene : ScenePlannerMethod)
         (analyzeCallbacks : ContinuityMethod) (clockA clockB : Clock)
         (maxCalls : nat) (policy : Policy) (this : State) (w : World)
         (eid : string) (choice : Choice) (userId : string),
    let run := generateText maxCalls ProcessChoiceTools policy [] this w in
    let outcome :=
      processChoice generateScene analyzeCallbacks clockA clockB maxCalls
        policy this w eid choice userId in
    is_ok (fst (fst outcome)) = false
    /\ snd (fst outcome) = this
    /\ snd outcome = snd run
    /\ (forall history next,
          fst (fst run) = Ok history ->
          candidate this choice = Some next ->
          fst (fst outcome)
          = Err (PlainError "State Agent failed to update state card")).
Proof.
  intros generateScene analyzeCallbacks clockA clockB maxCalls policy this w
         eid choice userId run outcome.
  subst outcome run. unfold processChoice.
  pose proof (generateText_choice_state maxCalls policy [] this w) as Hs.
  destruct (generateText maxCalls ProcessChoiceTools policy [] this w)
    as [[r this1] w1].
  cbn [fst snd] in Hs |- *. subst this1.
  destruct r as [history|e].
  - destruct (candidate this choice) as [next|] eqn:Hcand.
    + rewrite extractToolResult_undefined. cbn [fst snd is_ok].
      repeat split; try reflexivity.
    + cbn [fst snd is_ok]. repeat split; try reflexivity.
      intros history' next' _ Hnext. discriminate Hnext.
  - cbn [fst snd is_ok]. repeat split; try reflexivity.
    intros history' next' Hrun _. discriminate Hrun.
Qed.

(** Choice B on the window that holds option B, with a model that
    delegates the state update: the state agent returns the updated card
    in the run, and the choice is refused with the window as it was. *)
Lemma choice_never_returns_a_scene_witness :
  let run :=
    generateText 10 ProcessChoiceTools MoreSamples.updatingChoice []
      Samples.onlyOptionB Samples.oneEpisode in
  let outcome :=
    processChoice MoreSamples.willingPlanner Samples.quietContinuity
      Samples.clock Samples.clock 10 MoreSamples.updatingChoice
      Samples.onlyOptionB Samples.oneEpisode "ep1" ChoiceB "user-1" in
  (exists call,
      fst (fst run) = Ok [(call, StateUpdated MoreSamples.updatedCard)]
      /\ toolNameOf call = "delegateToStateAgent")
  /\ fst (fst outcome)
     = Err (PlainError "State Agent failed to update state card")
  /\ candidate (snd (fst outcome)) ChoiceB = Some Samples.atticScene.
Proof.
  destruct (choice_never_returns_a_scene MoreSamples.willingPlanner
              Samples.quietContinuity Samples.clock Samples.clock 10
              MoreSamples.updatingChoice Samples.onlyOptionB
              Samples.oneEpisode "ep1" ChoiceB "user-1")
    as (_ & Hthis & _ & Herr).
  cbv zeta. split.
  - eexists. split; reflexivity.
  - split; [exact (Herr _ Samples.atticScene eq_refl eq_refl)|].
    rewrite Hthis. reflexivity.
Defined.

Lemma processChoice_without_candidate generateScene analyzeCallbacks clockA
    clockB maxCalls policy this w eid choice userId :
  candidate this choice = None ->
  processChoice generateScene analyzeCallbacks clockA clockB maxCalls policy
    this w eid choice userId
  = (match fst (fst (generateText maxCalls ProcessChoiceTools policy []
                       this w)) with
     | Ok _ => Err noPregeneratedScenario
     | Err e => Err e
     end, this,
     snd (generateText maxCalls ProcessChoiceTools policy [] this w)).
Proof.
  intros Habsent. unfold processChoice.
  pose proof (generateText_choice_state maxCalls policy [] this w) as Hs.
  destruct (generateText maxCalls ProcessChoiceTools policy [] this w)
    as [[r this1] w1].
  simpl in Hs. subst this1. simpl.
  destruct r as [history|e]; [|reflexivity].
  rewrite Habsent. reflexivity.
Qed.

(** X7.  On an orchestrator as its constructor leaves it, [processChoice]
    fails for every model, scene planner, database and choice: no tool of
    its orchestration call fills the window.  The route that serves a
    choice constructs the orchestrator in the request. *)
Theorem new_orchestrator_cannot_process_a_choice :
  forall (generateScene : ScenePlannerMethod)
         (analyzeCallbacks : ContinuityMethod) (clockA clockB : Clock)
         (maxCalls : nat) (policy : Policy) (w : World) (eid : string)
         (choice : Choice) (userId : string),
    let run := generateText maxCalls ProcessChoiceTools policy [] initial w in
    let outcome :=
      processChoice generateScene analyzeCallbacks clockA clockB maxCalls
        policy initial w eid choice userId in
    is_ok (fst (fst outcome)) = false
    /\ (forall history, fst (fst run) = Ok history ->
          fst (fst outcome) = Err noPregeneratedScenario)
    /\ snd (fst outcome) = initial.
Proof.
  intros generateScene analyzeCallbacks clockA clockB maxCalls policy w eid
         choice userId run outcome.
  subst outcome. rewrite processChoice_without_candidate
    by (destruct choice; reflexivity).
  fold run. simpl. split.
  - destruct (fst (fst run)); reflexivity.
  - split; [|reflexivity]. intros history ->. reflexivity.
Qed.

(** A new orchestrator, the sample database, a model that delegates the
    state update. *)
Lemma new_orchestrator_cannot_process_a_choice_witness :
  fst (fst (processChoice MoreSamples.willingPlanner Samples.quietContinuity
              Samples.clock Samples.clock 10 MoreSamples.updatingChoice
              initial Samples.oneEpisode "ep1" ChoiceB "user-1"))
  = Err noPregeneratedScenario.
Proof.
  destruct (new_orchestrator_cannot_process_a_choice
              MoreSamples.willingPlanner Samples.quietContinuity
              Samples.clock Samples.clock 10 MoreSamples.updatingChoice
              Samples.oneEpisode "ep1" ChoiceB "user-1") as (_ & H & _).
  eapply H. reflexivity.
Defined.

(** X8.  With the scene planner of the repository [processChoice] returns no
    scene, from any orchestrator, with any model and database. *)
Theorem shipped_planner_choice_never_succeeds :
  forall (provider : ScenePlanner.Provider)
         (analyzeCallbacks : ContinuityMethod) (clockA clockB : Clock)
         (maxCalls : nat) (policy : Policy) (this : State) (w : World)
         (eid : string) (choice : Choice) (userId : string),
    is_ok (fst (fst (processChoice (ScenePlanner.generateScene provider)
                       analyzeCallbacks clockA clockB maxCalls policy this
                       w eid choice userId))) = false.
Proof.
  intros provider analyzeCallbacks clockA clockB maxCalls policy this w eid
         choice userId.
  unfold processChoice.
  destruct (generateText maxCalls ProcessChoiceTools policy [] this w)
    as [[r this1] w1].
  destruct r as [history|e]; [|reflexivity].
  destruct (candidate this1 choice) as [next|]; [|reflexivity].
  destruct (extractToolResult history "delegateToStateAgent")
    as [[| |updated| | | | | | | | |]|]; try reflexivity.
  match goal with
  | |- context [coordinateChildGeneration ?gs ?ac ?ca ?cb ?st ?pr ?card ?par] =>
      destruct (shipped_planner_stores_no_option provider ac ca cb st pr
                  card par) as [e He]; rewrite He
  end.
  reflexivity.
Qed.

End ChoicePaths.

(** ** Episode bibles: the table, the tools, the memory of the orchestrator *)

Section EpisodeBibles.
Import Orchestrator Database.

(** X11.  What [loadEpisodeBible] makes of the columns [saveEpisodeBible] wrote
    is the bible that was saved: every field goes to a column and comes
    back from the same column. *)
Theorem bible_columns_round_trip :
  forall (episodeId : string) (bible : EpisodeBible),
    UniqueBible.fromDbData (UniqueBible.toDbData episodeId bible) = bible
    /\ UniqueBible.episode_id (UniqueBible.toDbData episodeId bible)
       = episodeId.
Proof.
  intros episodeId bible. split; [|reflexivity].
  destruct bible as [[] [] [] [] [] [] rules why]. reflexivity.
Qed.

Lemma episodeWithId_nil w episodeId :
  episodeWithId w episodeId = [] <->
  ~ In episodeId (List.map row_id (episodes w)).
Proof.
  unfold episodeWithId. induction (episodes w) as [|e l IH]; simpl.
  - split; auto.
  - destruct (String.eqb_spec (row_id e) episodeId) as [Heq|Hne].
    + split; [discriminate|]. intros H. exfalso. apply H. left. exact Heq.
    + rewrite IH. split.
      * intros H [Heq|Hin]; [contradiction|auto].
      * intros H Hin. apply H. right. exact Hin.
Qed.

Lemma biblesOf_nil w episodeId :
  biblesOf w episodeId = [] <->
  ~ In episodeId (List.map bible_episode_id (episode_bibles w)).
Proof.
  unfold biblesOf. induction (episode_bibles w) as [|b l IH]; simpl.
  - split; auto.
  - destruct (String.eqb_spec (bible_episode_id b) episodeId) as [Heq|Hne].
    + split; [discriminate|]. intros H. exfalso. apply H. left. exact Heq.
    + rewrite IH. split.
      * intros H [Heq|Hin]; [contradiction|auto].
      * intros H Hin. apply H. right. exact Hin.
Qed.

Lemma updateEpisodes_ids w episodeId change :
  (forall e, row_id (change e) = row_id e) ->
  List.map row_id (episodes (updateEpisodes w episodeId change))
  = List.map row_id (episodes w).
Proof.
  intros Hid. unfold updateEpisodes. simpl. rewrite List.map_map.
  apply List.map_ext. intros e.
  destruct (String.eqb (row_id e) episodeId); [apply Hid|reflexivity].
Qed.

Lemma consistent_same_keys w w' :
  List.map row_id (episodes w') = List.map row_id (episodes w) ->
  episode_bibles w' = episode_bibles w ->
  next_uuid w' = next_uuid w ->
  UniqueBible.consistent w -> UniqueBible.consistent w'.
Proof.
  intros He Hb Hn (H1 & H2 & H3 & H4 & H5).
  unfold UniqueBible.consistent. rewrite He, Hb, Hn. auto.
Qed.

Lemma saveEpisode_consistent w episode generatedId now :
  UniqueBible.consistent w ->
  UniqueBible.consistent (snd (saveEpisode w episode generatedId now))
  /\ episode_bibles (snd (saveEpisode w episode generatedId now))
     = episode_bibles w.
Proof.
  intros Hc.
  assert (Hupd : forall episodeId,
            let w' := updateEpisodes w episodeId (applyEpisodeData episode) in
            UniqueBible.consistent w' /\ episode_bibles w' = episode_bibles w).
  { intros episodeId w'. split; [|reflexivity].
    apply (consistent_same_keys w); try reflexivity; [|exact Hc].
    apply updateEpisodes_ids. reflexivity. }
  assert (Hins :
            let r :=
              match episodeWithId w generatedId with
              | _ :: _ => (ToolFailure, w)
              | [] =>
                  let row :=
                    applyEpisodeData episode
                      {| row_id := generatedId; account_id := "";
                         created_by := ""; title := ""; premise := "";
                         state_card := in_stateCard episode;
                         status := Active; created_at := now;
                         completed_at := None; total_scenes := 0;
                         total_choices := 0 |} in
                  (EpisodeSaved row,
                   {| episodes := episodes w ++ [row];
                      episode_bibles := episode_bibles w;
                      next_uuid := next_uuid w |})
              end in
            UniqueBible.consistent (snd r)
            /\ episode_bibles (snd r) = episode_bibles w).
  { destruct (episodeWithId w generatedId) as [|e es] eqn:Hw; simpl;
      [|split; [exact Hc|reflexivity]].
    split; [|reflexivity].
    destruct Hc as (H1 & H2 & H3 & H4 & H5).
    unfold UniqueBible.consistent. simpl.
    rewrite List.map_app. simpl.
    split.
    { apply NoDup_app. split; [exact H1|]. split.
      - intros x Hx Hin. apply list_elem_of_In in Hin. simpl in Hin.
        destruct Hin as [<-|[]].
        apply episodeWithId_nil in Hw. apply Hw.
        apply list_elem_of_In. exact Hx.
      - apply NoDup_singleton. }
    repeat split; try assumption.
    intros b Hb. apply List.in_or_app. left. apply H5. exact Hb. }
  unfold saveEpisode.
  destruct (negb (int4 (in_totalScenes episode)
                  && int4 (in_totalChoices episode)));
    [split; [exact Hc|reflexivity]|].
  destruct (in_id episode) as [episodeId|]; [|exact Hins].
  destruct (String.eqb episodeId ""); [exact Hins|].
  specialize (Hupd episodeId). simpl in Hupd.
  destruct (single (episodeWithId
                      (updateEpisodes w episodeId (applyEpisodeData episode))
                      episodeId)); exact Hupd.
Qed.

Lemma updateEpisodeStats_consistent w episodeId scenes choices newStatus now :
  UniqueBible.consistent w ->
  UniqueBible.consistent
    (snd (updateEpisodeStats w episodeId scenes choices newStatus now))
  /\ episode_bibles
       (snd (updateEpisodeStats w episodeId scenes choices newStatus now))
     = episode_bibles w.
Proof.
  intros Hc. unfold updateEpisodeStats.
  destruct (negb (int4 scenes && int4 choices));
    [split; [exact Hc|reflexivity]|].
  assert (H : UniqueBible.consistent
                (updateEpisodes w episodeId
                   (applyStats scenes choices newStatus now))).
  { apply (consistent_same_keys w); try reflexivity; [|exact Hc].
    apply updateEpisodes_ids. reflexivity. }
  destruct (single _); split; try exact H; reflexivity.
Qed.

Lemma saveEpisodeBible_consistent w episodeId bible :
  UniqueBible.consistent w ->
  UniqueBible.consistent (snd (UniqueBible.saveEpisodeBible w episodeId bible))
  /\ exists added,
       episode_bibles (snd (UniqueBible.saveEpisodeBible w episodeId bible))
       = episode_bibles w ++ added.
Proof.
  intros Hc. unfold UniqueBible.saveEpisodeBible, UniqueBible.upsertBible.
  simpl.
  destruct (episodeWithId w episodeId) as [|e es] eqn:He; simpl.
  { split; [exact Hc|]. exists []. rewrite List.app_nil_r. reflexivity. }
  destruct (biblesOf w episodeId) as [|b bs] eqn:Hb; simpl.
  2:{ split; [exact Hc|]. exists []. rewrite List.app_nil_r. reflexivity. }
  split; [|eexists; reflexivity].
  destruct Hc as (H1 & H2 & H3 & H4 & H5).
  unfold UniqueBible.consistent. simpl. rewrite !List.map_app. simpl.
  split; [exact H1|]. split.
  { apply NoDup_app. split; [exact H2|]. split; [|apply NoDup_singleton].
    intros x Hx Hin. apply list_elem_of_In in Hin. simpl in Hin.
    destruct Hin as [<-|[]]. apply biblesOf_nil in Hb. apply Hb.
    apply list_elem_of_In. exact Hx. }
  split.
  { apply NoDup_app. split; [exact H3|]. split; [|apply NoDup_singleton].
    intros x Hx Hin. apply list_elem_of_In in Hin. simpl in Hin.
    destruct Hin as [<-|[]].
    apply list_elem_of_In, List.in_map_iff in Hx as (b & Hid & Hin).
    specialize (H4 b Hin). lia. }
  split.
  { intros b Hin. apply List.in_app_or in Hin as [Hin|[<-|[]]].
    - specialize (H4 b Hin). lia.
    - simpl. lia. }
  intros b Hin. apply List.in_app_or in Hin as [Hin|[<-|[]]].
  - apply H5. exact Hin.
  - simpl.
    destruct (List.in_dec String.string_dec episodeId
                (List.map row_id (episodes w))) as [Hyes|Hno]; [exact Hyes|].
    apply episodeWithId_nil in Hno. rewrite Hno in He. discriminate.
Qed.

Lemma execute_consistent tools call this w :
  UniqueBible.consistent w ->
  UniqueBible.consistent (snd (UniqueBible.execute tools call this w))
  /\ exists added,
       episode_bibles (snd (UniqueBible.execute tools call this w))
       = episode_bibles w ++ added.
Proof.
  intros Hc.
  assert (Hsame : UniqueBible.consistent w
                  /\ exists added, episode_bibles w = episode_bibles w ++ added).
  { split; [exact Hc|]. exists []. rewrite List.app_nil_r. reflexivity. }
  destruct call as [prem generated|task|name|name|episode generatedId now
                   |eid|eid scenes choices newStatus now|eid|eid bible|eid];
    unfold UniqueBible.execute, Orchestrator.execute;
    match goal with
    | |- context [offered ?t ?c] => destruct (offered t c)
    end; cbn [negb]; try exact Hsame.
  - destruct generated; exact Hsame.
  - destruct (saveEpisode_consistent w episode generatedId now Hc) as [H1 H2].
    destruct (saveEpisode w episode generatedId now) as [r w']. simpl in *.
    split; [exact H1|]. exists []. rewrite List.app_nil_r. exact H2.
  - unfold loadEpisode. destruct (single _); exact Hsame.
  - destruct (updateEpisodeStats_consistent w eid scenes choices newStatus
                now Hc) as [H1 H2].
    destruct (updateEpisodeStats w eid scenes choices newStatus now)
      as [r w']. simpl in *.
    split; [exact H1|]. exists []. rewrite List.app_nil_r. exact H2.
  - unfold loadEpisodeBible. destruct (single _); exact Hsame.
  - destruct (saveEpisodeBible_consistent w eid bible Hc) as [H1 H2].
    destruct (UniqueBible.saveEpisodeBible w eid bible) as [r w'].
    simpl in *. split; assumption.
  - unfold checkEpisodeBibleExists. destruct (single _); exact Hsame.
Qed.

Lemma generateText_consistent n : forall tools policy history this w,
  UniqueBible.consistent w ->
  UniqueBible.consistent
    (snd (UniqueBible.generateText n tools policy history this w))
  /\ exists added,
       episode_bibles
         (snd (UniqueBible.generateText n tools policy history this w))
       = episode_bibles w ++ added.
Proof.
  induction n as [|n IH]; intros tools policy history this w Hc; simpl.
  - split; [exact Hc|]. exists []. rewrite List.app_nil_r. reflexivity.
  - destruct (policy history) as [call| |];
      try (split; [exact Hc|]; exists []; rewrite List.app_nil_r;
           reflexivity).
    destruct (execute_consistent tools call this w Hc) as [H1 [added H2]].
    destruct (UniqueBible.execute tools call this w) as [[r this'] w'].
    simpl in H1, H2.
    destruct (IH tools policy (history ++ [(call, r)]) this' w' H1)
      as [H3 [added' H4]].
    split; [exact H3|]. exists (added ++ added').
    rewrite H4, H2, List.app_assoc. reflexivity.
Qed.

Lemma startEpisodes_consistent n calls : forall w,
  UniqueBible.consistent w ->
  UniqueBible.consistent (UniqueBible.startEpisodes n calls w)
  /\ exists added,
       episode_bibles (UniqueBible.startEpisodes n calls w)
       = episode_bibles w ++ added.
Proof.
  induction calls as [|[policy this] calls IH]; intros w Hc; simpl.
  - split; [exact Hc|]. exists []. rewrite List.app_nil_r. reflexivity.
  - destruct (generateText_consistent n StartEpisodeTools policy [] this w Hc)
      as [H1 [added H2]].
    destruct (IH _ H1) as [H3 [added' H4]].
    split; [exact H3|]. exists (added ++ added').
    rewrite H4, H2, List.app_assoc. reflexivity.
Qed.

Lemma unique_index_one_row w episodeId :
  NoDup (List.map bible_episode_id (episode_bibles w)) ->
  (length (biblesOf w episodeId) <= 1)%nat.
Proof.
  unfold biblesOf. induction (episode_bibles w) as [|b l IH]; simpl;
    intros Hnd; [lia|].
  apply NoDup_cons in Hnd as [Hnot Hnd].
  destruct (String.eqb_spec (bible_episode_id b) episodeId) as [Heq|Hne];
    [|apply IH; exact Hnd].
  simpl.
  assert (Hnone : List.filter
                    (fun b0 => String.eqb (bible_episode_id b0) episodeId) l
                  = []).
  { destruct (List.filter _ l) as [|c cs] eqn:Hf; [reflexivity|].
    exfalso. apply Hnot.
    assert (Hin : In c (List.filter
                    (fun b0 => String.eqb (bible_episode_id b0) episodeId) l)).
    { rewrite Hf. left. reflexivity. }
    apply List.filter_In in Hin as [Hin Hc].
    apply String.eqb_eq in Hc. rewrite Heq, <- Hc.
    apply list_elem_of_In, List.in_map. exact Hin. }
  rewrite Hnone. simpl. lia.
Qed.

(** X12.  On a database that meets the constraints of the schema, after any
    sequence of [startEpisode] orchestration calls, whatever the models
    do and whatever orchestrator each call runs on: the constraints are
    met; every episode has at most one bible row; an episode that had a
    bible has the very same row; no row of the table was changed or
    removed. *)
Theorem one_bible_per_episode_across_starts :
  forall (maxCalls : nat) (calls : list (Policy * State)) (w : World),
    UniqueBible.consistent w ->
    let w' := UniqueBible.startEpisodes maxCalls calls w in
    UniqueBible.consistent w'
    /\ (forall episodeId, (length (biblesOf w' episodeId) <= 1)%nat)
    /\ (forall episodeId row,
          biblesOf w episodeId = [row] -> biblesOf w' episodeId = [row])
    /\ (exists added, episode_bibles w' = episode_bibles w ++ added).
Proof.
  intros maxCalls calls w Hc w'.
  destruct (startEpisodes_consistent maxCalls calls w Hc)
    as [Hc' [added Hadd]].
  fold w' in Hc', Hadd.
  assert (Hone : forall episodeId, (length (biblesOf w' episodeId) <= 1)%nat).
  { intros episodeId. apply unique_index_one_row.
    destruct Hc' as (_ & H2 & _). exact H2. }
  split; [exact Hc'|]. split; [exact Hone|]. split; [|eauto].
  intros episodeId row Hrow.
  specialize (Hone episodeId). unfold biblesOf in *.
  rewrite Hadd, List.filter_app in *. rewrite Hrow in *.
  rewrite List.length_app in Hone. simpl in Hone.
  destruct (List.filter _ added); [reflexivity|simpl in Hone; lia].
Qed.

Lemma oneEpisode_consistent : UniqueBible.consistent Samples.oneEpisode.
Proof.
  unfold UniqueBible.consistent. simpl.
  split; [apply NoDup_singleton|].
  split; [apply NoDup_nil_2|]. split; [apply NoDup_nil_2|].
  split; intros b [].
Qed.

(** Two starts on new orchestrators in each of which the model asks the
    story director for a bible and saves it for "ep1": one row. *)
Lemma one_bible_per_episode_across_starts_witness :
  let w' :=
    UniqueBible.startEpisodes 12
      [(Samples.eagerStart, initial); (Samples.eagerStart, initial)]
      Samples.oneEpisode in
  List.map bible_id (biblesOf w' "ep1") = [0%nat]
  /\ (forall episodeId, (length (biblesOf w' episodeId) <= 1)%nat).
Proof.
  destruct (one_bible_per_episode_across_starts 12
              [(Samples.eagerStart, initial); (Samples.eagerStart, initial)]
              Samples.oneEpisode oneEpisode_consistent)
    as (_ & Hone & _).
  split; [reflexivity|exact Hone].
Defined.

Lemma biblesOf_insert w row episodeId :
  biblesOf {| episodes := episodes w;
              episode_bibles := episode_bibles w ++ [row];
              next_uuid := S (next_uuid w) |} episodeId
  = biblesOf w episodeId
    ++ (if String.eqb (bible_episode_id row) episodeId then [row] else []).
Proof. unfold biblesOf. simpl. rewrite List.filter_app. reflexivity. Qed.

Lemma first_bible_save w episodeId bible :
  episodeWithId w episodeId <> [] ->
  biblesOf w episodeId = [] ->
  UniqueBible.saveEpisodeBible w episodeId bible
  = (BibleSaved (next_uuid w),
     {| episodes := episodes w;
        episode_bibles :=
          episode_bibles w
          ++ [UniqueBible.rowOf (next_uuid w)
                (UniqueBible.toDbData episodeId bible)];
        next_uuid := S (next_uuid w) |}).
Proof.
  intros Hex Hnone.
  unfold UniqueBible.saveEpisodeBible, UniqueBible.upsertBible.
  cbn [UniqueBible.episode_id UniqueBible.toDbData].
  destruct (episodeWithId w episodeId) as [|e es]; [contradiction|].
  rewrite Hnone. reflexivity.
Qed.

(** X13.  Saving the bible of an episode that exists and has none succeeds;
    after it [loadEpisodeBible] returns the bible that was saved and
    [checkEpisodeBibleExists] says it exists; a further save for the
    episode, of any bible, is refused and changes nothing, so the load
    still returns the first bible. *)
Theorem saved_bible_is_loaded_and_kept :
  forall (w : World) (episodeId : string) (bible other : EpisodeBible),
    episodeWithId w episodeId <> [] ->
    biblesOf w episodeId = [] ->
    let w' := snd (UniqueBible.saveEpisodeBible w episodeId bible) in
    fst (UniqueBible.saveEpisodeBible w episodeId bible)
    = BibleSaved (next_uuid w)
    /\ loadEpisodeBible w' episodeId = (BibleLoaded (Some bible), w')
    /\ checkEpisodeBibleExists w' episodeId = (BibleChecked true, w')
    /\ UniqueBible.saveEpisodeBible w' episodeId other = (ToolFailure, w').
Proof.
  intros w episodeId bible other Hex Hnone w'. subst w'.
  rewrite (first_bible_save w episodeId bible Hex Hnone).
  cbn [fst snd].
  set (row := UniqueBible.rowOf (next_uuid w)
                (UniqueBible.toDbData episodeId bible)).
  set (w' := {| episodes := episodes w;
                episode_bibles := episode_bibles w ++ [row];
                next_uuid := S (next_uuid w) |}).
  assert (Hrows : biblesOf w' episodeId = [row]).
  { subst w'. rewrite biblesOf_insert, Hnone. simpl.
    rewrite String.eqb_refl. reflexivity. }
  split; [reflexivity|].
  unfold loadEpisodeBible, checkEpisodeBibleExists.
  rewrite Hrows. cbn [single].
  split.
  { subst row. cbn [bible_columns UniqueBible.rowOf].
    rewrite (proj1 (bible_columns_round_trip episodeId bible)).
    reflexivity. }
  split; [reflexivity|].
  unfold UniqueBible.saveEpisodeBible, UniqueBible.upsertBible.
  cbn [UniqueBible.episode_id UniqueBible.toDbData].
  rewrite Hrows.
  destruct (episodeWithId w' episodeId); reflexivity.
Qed.

(** The bible of "ep1" on the sample database. *)
Lemma saved_bible_is_loaded_and_kept_witness :
  loadEpisodeBible MoreSamples.withBible "ep1"
  = (BibleLoaded (Some Samples.mansionBible), MoreSamples.withBible)
  /\ UniqueBible.saveEpisodeBible MoreSamples.withBible "ep1"
       Samples.mansionBible
     = (ToolFailure, MoreSamples.withBible).
Proof.
  assert (Hex : episodeWithId Samples.oneEpisode "ep1" <> [])
    by discriminate.
  destruct (saved_bible_is_loaded_and_kept Samples.oneEpisode "ep1"
              Samples.mansionBible Samples.mansionBible Hex eq_refl)
    as (_ & Hload & _ & Hsave).
  split; [exact Hload|exact Hsave].
Defined.

(** X14.  [saveEpisodeBible] is refused, with the database as it was, for an
    episode that does not exist and for an episode that has a bible. *)
Theorem bible_save_refused_without_episode_or_with_bible :
  forall (w : World) (episodeId : string) (bible : EpisodeBible),
    episodeWithId w episodeId = [] \/ biblesOf w episodeId <> [] ->
    UniqueBible.saveEpisodeBible w episodeId bible = (ToolFailure, w).
Proof.
  intros w episodeId bible H.
  unfold UniqueBible.saveEpisodeBible, UniqueBible.upsertBible. simpl.
  destruct H as [H|H].
  - rewrite H. reflexivity.
  - destruct (episodeWithId w episodeId); [reflexivity|].
    destruct (biblesOf w episodeId); [contradiction|reflexivity].
Qed.

(** A bible for an episode nobody created. *)
Lemma bible_save_refused_without_episode_or_with_bible_witness :
  UniqueBible.saveEpisodeBible Samples.oneEpisode "ep2" Samples.mansionBible
  = (ToolFailure, Samples.oneEpisode).
Proof.
  apply bible_save_refused_without_episode_or_with_bible.
  left. reflexivity.
Defined.

Lemma execute_memory tools call this w :
  scenarioWindow (snd (fst (UniqueBible.execute tools call this w)))
  = scenarioWindow this
  /\ (UniqueBible.callsStoryDirector call = false ->
      snd (fst (UniqueBible.execute tools call this w)) = this).
Proof.
  destruct call as [prem generated|task|name|name|episode generatedId now
                   |eid|eid scenes choices newStatus now|eid|eid bible|eid];
    unfold UniqueBible.execute, Orchestrator.execute;
    match goal with
    | |- context [offered ?t ?c] => destruct (offered t c)
    end; cbn [negb]; try (split; reflexivity).
  - destruct generated; split; try reflexivity; discriminate.
  - destruct (saveEpisode w episode generatedId now). split; reflexivity.
  - destruct (loadEpisode w eid). split; reflexivity.
  - destruct (updateEpisodeStats w eid scenes choices newStatus now).
    split; reflexivity.
  - destruct (loadEpisodeBible w eid). split; reflexivity.
  - destruct (UniqueBible.saveEpisodeBible w eid bible). split; reflexivity.
  - destruct (checkEpisodeBibleExists w eid). split; reflexivity.
Qed.

(** X15.  No tool of an orchestration call touches the rolling window.  The
    bible the orchestrator holds in memory is written by
    [delegateToStoryDirector] alone: after a call in which the model made
    no such delegation the orchestrator is as before, so a bible read with
    [loadEpisodeBible] is not in memory, and on a new orchestrator
    [getEpisodeBible] still throws. *)
Theorem only_the_story_director_fills_the_memory :
  forall (maxCalls : nat) (tools : ToolSet) (policy : Policy)
         (history : History) (this : State) (w : World),
    let this' :=
      snd (fst (UniqueBible.generateText maxCalls tools policy history
                  this w)) in
    scenarioWindow this' = scenarioWindow this
    /\ ((forall h call, policy h = CallTool call ->
                        UniqueBible.callsStoryDirector call = false) ->
        this' = this
        /\ (episodeBible this = None -> is_ok (getEpisodeBible this') = false)).
Proof.
  assert (Hstay : forall this : State,
            scenarioWindow this = scenarioWindow this
            /\ (True ->
                this = this
                /\ (episodeBible this = None ->
                    is_ok (getEpisodeBible this) = false))).
  { intros this. split; [reflexivity|]. intros _. split; [reflexivity|].
    intros Hnone. unfold getEpisodeBible. rewrite Hnone. reflexivity. }
  intros maxCalls. induction maxCalls as [|n IH];
    intros tools policy history this w; cbn [UniqueBible.generateText].
  - cbv zeta. cbn [fst snd]. destruct (Hstay this) as [H1 H2].
    split; [exact H1|]. intros _. apply H2. auto.
  - destruct (policy history) as [call| |] eqn:Hp.
    + destruct (execute_memory tools call this w) as [Hwin Hmem].
      destruct (UniqueBible.execute tools call this w) as [[r this1] w1].
      cbn [fst snd] in Hwin, Hmem.
      specialize (IH tools policy (history ++ [(call, r)]) this1 w1).
      cbv zeta in IH. destruct IH as [IHwin IHmem]. cbv zeta.
      split; [rewrite IHwin; exact Hwin|].
      intros Hpol. rewrite (Hmem (Hpol _ _ Hp)) in *.
      apply IHmem. exact Hpol.
    + cbv zeta. cbn [fst snd]. destruct (Hstay this) as [H1 H2].
      split; [exact H1|]. intros _. apply H2. auto.
    + cbv zeta. cbn [fst snd]. destruct (Hstay this) as [H1 H2].
      split; [exact H1|]. intros _. apply H2. auto.
Qed.

(** The model checks and loads the bible of "ep1" on a new orchestrator:
    the load returns the bible and the orchestrator has none. *)
Lemma only_the_story_director_fills_the_memory_witness :
  let run :=
    UniqueBible.generateText 12 StartEpisodeTools MoreSamples.checkAndLoad
      [] initial MoreSamples.withBible in
  List.map snd
    (match fst (fst run) with Ok history => history | Err _ => [] end)
  = [BibleChecked true; BibleLoaded (Some Samples.mansionBible)]
  /\ snd (fst run) = initial
  /\ is_ok (getEpisodeBible (snd (fst run))) = false.
Proof.
  destruct (only_the_story_director_fills_the_memory 12 StartEpisodeTools
              MoreSamples.checkAndLoad [] initial MoreSamples.withBible)
    as [_ H].
  assert (Hpol : forall h call,
            MoreSamples.checkAndLoad h = CallTool call ->
            UniqueBible.callsStoryDirector call = false).
  { intros h call. unfold MoreSamples.checkAndLoad, scripted.
    destruct (length h) as [|[|[|k]]]; simpl; try discriminate;
      intros [= <-]; reflexivity. }
  destruct (H Hpol) as [Hsame Hget].
  cbv zeta. split; [reflexivity|]. split; [exact Hsame|].
  apply Hget. reflexivity.
Defined.

End EpisodeBibles.

(** ** Episode tools: missing rows, round trips, what an update keeps *)

Section EpisodeTools.
Import Database.

Lemma updateEpisodes_absent w episodeId change :
  episodeWithId w episodeId = [] ->
  updateEpisodes w episodeId change = w.
Proof.
  intros Habs. apply episodeWithId_nil in Habs.
  unfold updateEpisodes. destruct w as [eps bibles next]. simpl in *.
  f_equal. induction eps as [|e eps IH]; simpl; [reflexivity|].
  simpl in Habs.
  destruct (String.eqb_spec (row_id e) episodeId) as [Heq|Hne].
  - exfalso. apply Habs. left. exact Heq.
  - f_equal. apply IH. intros Hin. apply Habs. right. exact Hin.
Qed.

(** X16.  On an id that no episode has, [loadEpisode], [updateEpisodeStats] and
    the update path of [saveEpisode] report a failure and leave the
    database as it was: no row is created for the id. *)
Theorem episode_tools_fail_on_missing_id :
  forall (w : World) (episodeId : string) (episode : EpisodeInput)
         (generatedId now : string) (scenes choices : Z)
         (newStatus : option Status),
    episodeWithId w episodeId = [] ->
    loadEpisode w episodeId = (ToolFailure, w)
    /\ updateEpisodeStats w episodeId scenes choices newStatus now
       = (ToolFailure, w)
    /\ (in_id episode = Some episodeId -> episodeId <> "" ->
        saveEpisode w episode generatedId now = (ToolFailure, w)).
Proof.
  intros w episodeId episode generatedId now scenes choices newStatus Habs.
  split.
  { unfold loadEpisode. rewrite Habs. reflexivity. }
  split.
  { unfold updateEpisodeStats.
    destruct (negb (int4 scenes && int4 choices)); [reflexivity|].
    rewrite updateEpisodes_absent by exact Habs. rewrite Habs.
    reflexivity. }
  intros Hid Hne. unfold saveEpisode.
  destruct (negb (int4 (in_totalScenes episode)
                  && int4 (in_totalChoices episode))); [reflexivity|].
  rewrite Hid. apply String.eqb_neq in Hne. rewrite Hne.
  rewrite updateEpisodes_absent by exact Habs. rewrite Habs. reflexivity.
Qed.

(** Episode "ep9" on the sample database. *)
Lemma episode_tools_fail_on_missing_id_witness :
  updateEpisodeStats Samples.oneEpisode "ep9" 3 2 (Some Completed)
    "2025-01-01T00:05:00.000Z" = (ToolFailure, Samples.oneEpisode)
  /\ saveEpisode Samples.oneEpisode MoreSamples.renamedEpisode "ep-new"
       "2025-01-01T00:05:00.000Z" = (ToolFailure, Samples.oneEpisode).
Proof.
  destruct (episode_tools_fail_on_missing_id Samples.oneEpisode "ep9"
              MoreSamples.renamedEpisode "ep-new"
              "2025-01-01T00:05:00.000Z" 3 2 (Some Completed) eq_refl)
    as (_ & Hstats & Hsave).
  split; [exact Hstats|]. apply Hsave; [reflexivity|discriminate].
Defined.

Lemma episodeWithId_updated eps episodeId change row :
  NoDup (List.map row_id eps) ->
  In row eps ->
  row_id row = episodeId ->
  (forall e, row_id (change e) = row_id e) ->
  List.filter (fun e => String.eqb (row_id e) episodeId)
    (List.map (fun e => if String.eqb (row_id e) episodeId
                        then change e else e) eps)
  = [change row].
Proof.
  intros Hnd Hin Hid Hch.
  induction eps as [|e eps IH]; [destruct Hin|].
  simpl in Hnd. apply NoDup_cons in Hnd as [Hnot Hnd]. simpl.
  destruct Hin as [->|Hin].
  - rewrite Hid, String.eqb_refl. rewrite Hch, Hid, String.eqb_refl.
    f_equal.
    assert (Habs : forall l,
              ~ In episodeId (List.map row_id l) ->
              List.filter (fun e => String.eqb (row_id e) episodeId)
                (List.map (fun e => if String.eqb (row_id e) episodeId
                                    then change e else e) l) = []).
    { induction l as [|x l IHl]; intros Hno; simpl; [reflexivity|].
      simpl in Hno.
      destruct (String.eqb_spec (row_id x) episodeId) as [Heq|Hne].
      - exfalso. apply Hno. left. exact Heq.
      - apply String.eqb_neq in Hne. rewrite Hne. apply IHl.
        intros H. apply Hno. right. exact H. }
    apply Habs. intros H. apply Hnot. rewrite Hid.
    apply list_elem_of_In. exact H.
  - destruct (String.eqb_spec (row_id e) episodeId) as [Heq|Hne].
    + exfalso. apply Hnot. rewrite Heq, <- Hid.
      apply list_elem_of_In, List.in_map. exact Hin.
    + apply String.eqb_neq in Hne. rewrite Hne. apply IH; assumption.
Qed.

(** X17.  [updateEpisodeStats] on an episode of a table with unique ids,
    with whole numbers as counters.  When a counter is outside the range
    of the integer columns the tool reports a failure and the database is
    as it was.  When both are inside it: the row the tool returns is the
    row a following [loadEpisode] returns; it has the two counters of the
    call and the title, premise, state card and creation time of before;
    its status is the one given, or the one of before when none is given;
    its completion time is the time of the call when the status given is
    completed and the one of before otherwise, so an episode set back to
    active keeps its completion time.  The other episodes and the bibles
    are untouched. *)
Theorem stats_update_keeps_the_rest :
  forall (w : World) (row : EpisodeRow) (scenes choices : Z)
         (newStatus : option Status) (now : string),
    NoDup (List.map row_id (episodes w)) ->
    In row (episodes w) ->
    let outcome :=
      updateEpisodeStats w (row_id row) scenes choices newStatus now in
    (int4 scenes && int4 choices = false -> outcome = (ToolFailure, w))
    /\ (int4 scenes && int4 choices = true ->
        exists row',
          fst outcome = EpisodeStatsUpdated row'
          /\ loadEpisode (snd outcome) (row_id row)
             = (EpisodeLoaded row', snd outcome)
          /\ row_id row' = row_id row
          /\ total_scenes row' = scenes /\ total_choices row' = choices
          /\ title row' = title row /\ premise row' = premise row
          /\ state_card row' = state_card row
          /\ created_at row' = created_at row
          /\ status row' = default (status row) newStatus
          /\ (newStatus = Some Completed -> completed_at row' = Some now)
          /\ (newStatus <> Some Completed ->
              completed_at row' = completed_at row)
          /\ (forall other, In other (episodes w) ->
                row_id other <> row_id row ->
                In other (episodes (snd outcome)))
          /\ episode_bibles (snd outcome) = episode_bibles w).
Proof.
  intros w row scenes choices newStatus now Hnd Hin outcome.
  subst outcome. unfold updateEpisodeStats.
  split; [intros ->; reflexivity|]. intros ->. cbn [negb].
  set (change := applyStats scenes choices newStatus now).
  assert (Hrows : episodeWithId (updateEpisodes w (row_id row) change)
                    (row_id row) = [change row]).
  { unfold episodeWithId, updateEpisodes. cbn [episodes].
    apply episodeWithId_updated; auto. }
  rewrite Hrows. cbn [single fst snd].
  exists (change row). split; [reflexivity|]. split.
  { unfold loadEpisode. rewrite Hrows. reflexivity. }
  subst change. unfold applyStats. cbn.
  repeat (split; [reflexivity|]).
  split.
  { intros ->. reflexivity. }
  split.
  { intros Hne. destruct newStatus as [[| |]|]; try reflexivity.
    contradiction. }
  split; [|reflexivity].
  intros other Hother Hne. apply List.in_map_iff. exists other.
  split; [|exact Hother].
  apply String.eqb_neq in Hne. rewrite Hne. reflexivity.
Qed.

(** Episode "ep1" is completed and then set back to active; a counter
    of 2 147 483 648 is refused. *)
Lemma stats_update_keeps_the_rest_witness :
  let completed :=
    snd (updateEpisodeStats Samples.oneEpisode "ep1" 5 4 (Some Completed)
           "2025-01-01T00:30:00.000Z") in
  let reopened :=
    snd (updateEpisodeStats completed "ep1" 6 5 (Some Active)
           "2025-01-01T00:40:00.000Z") in
  (exists row',
      loadEpisode completed "ep1" = (EpisodeLoaded row', completed)
      /\ title row' = "The Mansion Mystery"
      /\ completed_at row' = Some "2025-01-01T00:30:00.000Z")
  /\ List.map (fun e => (status e, completed_at e)) (episodes reopened)
     = [(Active, Some "2025-01-01T00:30:00.000Z")]
  /\ updateEpisodeStats Samples.oneEpisode "ep1" 2147483648 4 None
       "2025-01-01T00:30:00.000Z" = (ToolFailure, Samples.oneEpisode).
Proof.
  assert (Hnd : NoDup (List.map row_id (episodes Samples.oneEpisode))).
  { simpl. apply NoDup_singleton. }
  assert (Hin : In Samples.episodeOne (episodes Samples.oneEpisode)).
  { left. reflexivity. }
  destruct (proj2 (stats_update_keeps_the_rest Samples.oneEpisode
                     Samples.episodeOne 5 4 (Some Completed)
                     "2025-01-01T00:30:00.000Z" Hnd Hin) eq_refl)
    as (row' & _ & Hload & _ & _ & _ & Htitle & _ & _ & _ & _ & Hdone & _).
  cbv zeta. split; [|split; [reflexivity|]].
  - exists row'. split; [exact Hload|]. split; [exact Htitle|].
    apply Hdone. reflexivity.
  - exact (proj1 (stats_update_keeps_the_rest Samples.oneEpisode
                    Samples.episodeOne 2147483648 4 None
                    "2025-01-01T00:30:00.000Z" Hnd Hin) eq_refl).
Defined.

(** X18.  A successful [saveEpisode] is read back by [loadEpisode], on a table
    with unique ids: the row returned is the row loaded under its id; it
    carries the eight fields of the input; its id is the id of the input
    on the update path and the generated one on the insert path. *)
Theorem saved_episode_is_loaded :
  forall (w w' : World) (episode : EpisodeInput) (generatedId now : string)
         (row : EpisodeRow),
    NoDup (List.map row_id (episodes w)) ->
    saveEpisode w episode generatedId now = (EpisodeSaved row, w') ->
    loadEpisode w' (row_id row) = (EpisodeLoaded row, w')
    /\ account_id row = in_accountId episode
    /\ created_by row = in_createdBy episode
    /\ title row = in_title episode
    /\ premise row = in_premise episode
    /\ state_card row = in_stateCard episode
    /\ status row = in_status episode
    /\ total_scenes row = in_totalScenes episode
    /\ total_choices row = in_totalChoices episode
    /\ row_id row
       = match in_id episode with
         | Some episodeId => if String.eqb episodeId "" then generatedId
                             else episodeId
         | None => generatedId
         end
    /\ episode_bibles w' = episode_bibles w.
Proof.
  intros w w' episode generatedId now row Hnd.
  assert (Hins :
            match episodeWithId w generatedId with
            | _ :: _ => (ToolFailure, w)
            | [] =>
                let row :=
                  applyEpisodeData episode
                    {| row_id := generatedId; account_id := "";
                       created_by := ""; title := ""; premise := "";
                       state_card := in_stateCard episode;
                       status := Active; created_at := now;
                       completed_at := None; total_scenes := 0;
                       total_choices := 0 |} in
                (EpisodeSaved row,
                 {| episodes := episodes w ++ [row];
                    episode_bibles := episode_bibles w;
                    next_uuid := next_uuid w |})
            end = (EpisodeSaved row, w') ->
            loadEpisode w' (row_id row) = (EpisodeLoaded row, w')
            /\ account_id row = in_accountId episode
            /\ created_by row = in_createdBy episode
            /\ title row = in_title episode
            /\ premise row = in_premise episode
            /\ state_card row = in_stateCard episode
            /\ status row = in_status episode
            /\ total_scenes row = in_totalScenes episode
            /\ total_choices row = in_totalChoices episode
            /\ row_id row = generatedId
            /\ episode_bibles w' = episode_bibles w).
  { destruct (episodeWithId w generatedId) as [|e es] eqn:Habs;
      [|discriminate].
    cbv zeta. intros [= <- <-]. cbn.
    split; [|repeat split; reflexivity].
    unfold loadEpisode, episodeWithId in *. cbn [episodes].
    rewrite List.filter_app, Habs. cbn. rewrite String.eqb_refl.
    reflexivity. }
  unfold saveEpisode.
  destruct (negb (int4 (in_totalScenes episode)
                  && int4 (in_totalChoices episode))); [discriminate|].
  destruct (in_id episode) as [episodeId|]; [|exact Hins].
  destruct (String.eqb episodeId "") eqn:Hempty; [exact Hins|].
  clear Hins.
  set (change := applyEpisodeData episode).
  destruct (episodeWithId w episodeId) as [|old olds] eqn:Hold.
  { rewrite updateEpisodes_absent by exact Hold. rewrite Hold.
    discriminate. }
  assert (Hin : In old (episodes w) /\ row_id old = episodeId).
  { assert (H : In old (episodeWithId w episodeId))
      by (rewrite Hold; left; reflexivity).
    apply List.filter_In in H as [H1 H2]. apply String.eqb_eq in H2. auto. }
  destruct Hin as [Hin Hid].
  assert (Hrows : episodeWithId (updateEpisodes w episodeId change)
                    episodeId = [change old]).
  { unfold episodeWithId, updateEpisodes. cbn [episodes].
    apply episodeWithId_updated; auto. }
  rewrite Hrows. cbn [single]. intros [= <- <-].
  subst change. cbn -[updateEpisodes].
  split.
  { unfold loadEpisode. rewrite Hid. rewrite Hrows. reflexivity. }
  repeat (split; [reflexivity|]). split; [exact Hid|reflexivity].
Qed.

(** The sample episode is saved again under a new title and loaded. *)
Lemma saved_episode_is_loaded_witness :
  exists row w',
    saveEpisode Samples.oneEpisode MoreSamples.retitledEpisode "ep-new"
      "2025-01-01T00:05:00.000Z" = (EpisodeSaved row, w')
    /\ loadEpisode w' "ep1" = (EpisodeLoaded row, w')
    /\ title row = "The Clock Tower"
    /\ created_at row = "2025-01-01T00:00:00.000Z".
Proof.
  eexists. eexists. split; [reflexivity|].
  assert (Hnd : NoDup (List.map row_id (episodes Samples.oneEpisode))).
  { simpl. apply NoDup_singleton. }
  destruct (saved_episode_is_loaded Samples.oneEpisode _
              MoreSamples.retitledEpisode "ep-new"
              "2025-01-01T00:05:00.000Z" _ Hnd eq_refl)
    as (Hload & _ & _ & Htitle & _).
  split; [exact Hload|]. split; [exact Htitle|reflexivity].
Defined.

End EpisodeTools.

(** ** The other generators of the music and SFX agents *)

Section AudioGenerators.

Lemma string_length_append (a b : string) :
  String.length (a +:+ b) = (String.length a + String.length b)%nat.
Proof.
  induction a as [|c a IH]; simpl; [reflexivity|]. rewrite IH. reflexivity.
Qed.

Lemma append_inv_head (s a b : string) : s +:+ a = s +:+ b -> a = b.
Proof.
  induction s as [|c s IH]; simpl; [auto|]. intros [= H]. auto.
Qed.

Lemma append_inv_tail (a b s : string) : a +:+ s = b +:+ s -> a = b.
Proof.
  revert b. induction a as [|c a IH]; intros [|d b] H; simpl in H.
  - reflexivity.
  - exfalso. apply (f_equal String.length) in H.
    rewrite ?string_length_append in H. simpl in H.
    rewrite ?string_length_append in H. lia.
  - exfalso. apply (f_equal String.length) in H.
    rewrite ?string_length_append in H. simpl in H.
    rewrite ?string_length_append in H. lia.
  - injection H as -> H. f_equal. apply IH. exact H.
Qed.

Lemma imap_lookup_inv {A B : Type} (f : nat -> A -> B) (l : list A) i y :
  imap f l !! i = Some y -> exists x, l !! i = Some x /\ y = f i x.
Proof.
  rewrite list_lookup_imap. destruct (l !! i) as [x|]; [|discriminate].
  intros [= <-]. eauto.
Qed.

Lemma forallb_lookup {A : Type} (p : A -> bool) (l : list A) i x :
  forallb p l = true -> l !! i = Some x -> p x = true.
Proof.
  intros Hall Hi. rewrite forallb_forall in Hall. apply Hall.
  apply list_elem_of_In. eapply list_elem_of_lookup_2. exact Hi.
Qed.

(** X19.  Choice stingers: whatever the provider answers, a successful
    call of [generateChoiceStingers] returns at most three cues; the cue
    at position [i] has the trigger "[MUSIC=choice_stinger_<i+1>]" and the
    stinger index [i+1], so the triggers of one call are pairwise
    different and replace the triggers the provider wrote; and every
    stinger lasts between 10 000 and 300 000 ms, since the schema is the
    one of the scene music. *)
Theorem choice_stingers_numbered_and_bounded generated bible choiceA
    choiceB cues :
  MusicGenerators.generateChoiceStingers generated bible choiceA choiceB
  = Ok cues ->
  (length cues <= 3)%nat
  /\ NoDup (MusicGenerators.trigger <$> cues)
  /\ forall i cue,
       cues !! i = Some cue ->
       MusicGenerators.trigger cue
       = "[MUSIC=choice_stinger_" +:+ pretty (S i) +:+ "]"
       /\ MusicGenerators.kind (MusicGenerators.metadata cue)
          = MusicGenerators.StingerTrack (S i)
       /\ (10000 <= MusicGenerators.durationMs
                      (MusicGenerators.metadata cue) <= 300000)%Q.
Proof.
  unfold MusicGenerators.generateChoiceStingers.
  destruct (generateObject _ generated) as [stingers|e] eqn:Hg;
    [|discriminate].
  intros [= <-]. apply generateObject_ok in Hg as [_ Hs].
  unfold MusicGenerators.StingersSchema in Hs.
  apply andb_true_iff in Hs as [Hall Hlen]. apply Nat.leb_le in Hlen.
  split; [rewrite length_imap; exact Hlen|]. split.
  - apply NoDup_alt. intros i j x Hi Hj.
    rewrite list_lookup_fmap in Hi, Hj.
    destruct (imap _ stingers !! i) as [ci|] eqn:Ei; [|discriminate].
    destruct (imap _ stingers !! j) as [cj|] eqn:Ej; [|discriminate].
    apply imap_lookup_inv in Ei as (si & _ & ->).
    apply imap_lookup_inv in Ej as (sj & _ & ->).
    cbn [option_fmap option_map fmap MusicGenerators.toStinger
         MusicGenerators.trigger] in Hi, Hj.
    injection Hi as Hi. injection Hj as Hj. rewrite <- Hj in Hi.
    apply append_inv_head, append_inv_tail in Hi.
    apply (inj pretty) in Hi. lia.
  - intros i cue Hi. apply imap_lookup_inv in Hi as (s & Hs & ->).
    cbn [MusicGenerators.toStinger MusicGenerators.trigger
         MusicGenerators.kind MusicGenerators.metadata
         MusicGenerators.durationMs].
    rewrite Nat.add_1_r. split; [reflexivity|]. split; [reflexivity|].
    apply inRange_spec. exact (forallb_lookup _ _ _ _ Hall Hs).
Qed.

Lemma choice_stingers_numbered_and_bounded_witness :
  exists cues,
    MusicGenerators.generateChoiceStingers
      (Ok [Samples.pianoTrack; Samples.pianoTrack]) Samples.mansionBible
      "Go down" "Go up" = Ok cues
    /\ (length cues <= 3)%nat
    /\ NoDup (MusicGenerators.trigger <$> cues).
Proof.
  eexists. split; [reflexivity|].
  pose proof (choice_stingers_numbered_and_bounded
                (Ok [Samples.pianoTrack; Samples.pianoTrack])
                Samples.mansionBible "Go down" "Go up" _ eq_refl)
    as (Hlen & Hdup & _).
  split; assumption.
Defined.

(** X20.  Theme and transition.  Both take the fixed trigger of their
    kind instead of the trigger of the provider and last between 10 000
    and 300 000 ms.  The episode theme has priority high whatever the
    provider chose; the transition keeps the provider's priority.  In
    both the instrumental flag is the provider's. *)
Theorem theme_and_transition_cues generated bible :
  (forall episodeTitle premise cue,
      MusicGenerators.generateEpisodeTheme generated bible episodeTitle
        premise = Ok cue ->
      exists track,
        generated = Ok track
        /\ MusicGenerators.trigger cue = "[MUSIC=episode_theme]"
        /\ MusicGenerators.priority (MusicGenerators.metadata cue) = High
        /\ MusicGenerators.kind (MusicGenerators.metadata cue)
           = MusicGenerators.ThemeTrack episodeTitle
        /\ MusicGenerators.isInstrumental (MusicGenerators.metadata cue)
           = MusicAgent.track_isInstrumental track
        /\ (10000 <= MusicGenerators.durationMs
                       (MusicGenerators.metadata cue) <= 300000)%Q)
  /\ (forall fromScene toScene cue,
      MusicGenerators.generateTransitionMusic generated bible fromScene
        toScene = Ok cue ->
      exists track,
        generated = Ok track
        /\ MusicGenerators.trigger cue = "[MUSIC=transition]"
        /\ MusicGenerators.priority (MusicGenerators.metadata cue)
           = MusicAgent.track_priority track
        /\ MusicGenerators.isInstrumental (MusicGenerators.metadata cue)
           = MusicAgent.track_isInstrumental track
        /\ (10000 <= MusicGenerators.durationMs
                       (MusicGenerators.metadata cue) <= 300000)%Q).
Proof.
  split.
  - intros episodeTitle premise cue.
    unfold MusicGenerators.generateEpisodeTheme.
    destruct (generateObject _ generated) as [track|e] eqn:Hg;
      [|discriminate].
    intros [= <-]. apply generateObject_ok in Hg as [-> Hs].
    exists track. cbn. repeat (split; [reflexivity|]).
    apply inRange_spec. exact Hs.
  - intros fromScene toScene cue.
    unfold MusicGenerators.generateTransitionMusic.
    destruct (generateObject _ generated) as [track|e] eqn:Hg;
      [|discriminate].
    intros [= <-]. apply generateObject_ok in Hg as [-> Hs].
    exists track. cbn. repeat (split; [reflexivity|]).
    apply inRange_spec. exact Hs.
Qed.

(** X21.  Dramatic impacts: one cue per generated impact, with no cap on
    their number; the cue at position [i] is timed at [10 * i] seconds, is
    a one-shot of priority high and category impact, lasts between half a
    second and five seconds and has a prompt influence between 0.5
    and 1. *)
Theorem dramatic_impacts_spaced_and_bounded generated bible moments cues :
  SfxGenerators.generateDramaticImpacts generated bible moments = Ok cues ->
  exists impacts,
    generated = Ok impacts
    /\ length cues = length impacts
    /\ forall i tagged,
         cues !! i = Some tagged ->
         let c := SfxGenerators.cue tagged in
         (SFXAgent.timing c == inject_Z (10 * Z.of_nat i))%Q
         /\ SFXAgent.loop (SFXAgent.metadata c) = false
         /\ SFXAgent.priority (SFXAgent.metadata c) = High
         /\ SFXAgent.category (SFXAgent.metadata c) = SFXAgent.CatImpact
         /\ SfxGenerators.isImpact tagged = Some true
         /\ ((1 # 2) <= SFXAgent.promptInfluence (SFXAgent.metadata c) <= 1)%Q
         /\ exists d,
              SFXAgent.durationSeconds (SFXAgent.metadata c) = Value d
              /\ ((1 # 2) <= d <= 5)%Q.
Proof.
  unfold SfxGenerators.generateDramaticImpacts.
  destruct (generateObject _ generated) as [impacts|e] eqn:Hg;
    [|discriminate].
  intros [= <-]. apply generateObject_ok in Hg as [-> Hs].
  exists impacts. split; [reflexivity|].
  split; [apply length_imap|].
  intros i tagged Hi. apply imap_lookup_inv in Hi as (impact & Himp & ->).
  pose proof (forallb_lookup _ _ _ _ Hs Himp) as Hok.
  unfold SfxGenerators.impactOk in Hok.
  apply andb_true_iff in Hok as [Hd Hp].
  apply inRange_spec in Hd. apply inRange_spec in Hp.
  cbn. split; [rewrite Z.mul_comm; reflexivity|].
  repeat (split; [reflexivity|]).
  split; [exact Hp|]. eexists. split; [reflexivity|exact Hd].
Qed.

(** X22.  Musical transitions: for the three transition types of the
    signature the trigger is the type with its hyphen turned into an
    underscore; the cue is a one-shot of priority medium that lasts
    between 2 and 15 seconds with a prompt influence between 0.4
    and 0.8. *)
Theorem musical_transition_trigger_and_bounds generated bible
    (t : SfxGenerators.TransitionType) tagged :
  SfxGenerators.generateMusicalTransitions generated bible
    (SfxGenerators.transitionTypeName t) = Ok tagged ->
  let c := SfxGenerators.cue tagged in
  SFXAgent.trigger c
  = match t with
    | SfxGenerators.SceneChange => "[SFX=musical_scene_change]"
    | SfxGenerators.TimeJump => "[SFX=musical_time_jump]"
    | SfxGenerators.MoodShift => "[SFX=musical_mood_shift]"
    end
  /\ SfxGenerators.transitionType tagged
     = Some (SfxGenerators.transitionTypeName t)
  /\ SFXAgent.loop (SFXAgent.metadata c) = false
  /\ SFXAgent.priority (SFXAgent.metadata c) = Medium
  /\ ((4 # 10) <= SFXAgent.promptInfluence (SFXAgent.metadata c)
      <= (8 # 10))%Q
  /\ exists d,
       SFXAgent.durationSeconds (SFXAgent.metadata c) = Value d
       /\ (2 <= d <= 15)%Q.
Proof.
  unfold SfxGenerators.generateMusicalTransitions.
  destruct (generateObject _ generated) as [musical|e] eqn:Hg;
    [|discriminate].
  intros [= <-]. apply generateObject_ok in Hg as [_ Hs].
  unfold SfxGenerators.MusicalSchema in Hs.
  apply andb_true_iff in Hs as [Hd Hp].
  apply inRange_spec in Hd. apply inRange_spec in Hp.
  cbv zeta. cbn [SfxGenerators.cue SfxGenerators.transitionType
                  SFXAgent.trigger SFXAgent.metadata SFXAgent.loop
                  SFXAgent.priority SFXAgent.promptInfluence
                  SFXAgent.durationSeconds].
  split; [destruct t; reflexivity|].
  repeat (split; [reflexivity|]).
  split; [exact Hp|]. eexists. split; [reflexivity|exact Hd].
Qed.

Lemma theme_and_transition_cues_witness :
  exists theme transition,
    MusicGenerators.generateEpisodeTheme (Ok Samples.pianoTrack)
      Samples.mansionBible "The Mansion" "A night in a haunted house"
    = Ok theme
    /\ MusicGenerators.generateTransitionMusic (Ok Samples.pianoTrack)
         Samples.mansionBible "hall" "cellar" = Ok transition
    /\ MusicGenerators.priority (MusicGenerators.metadata theme) = High
    /\ MusicGenerators.priority (MusicGenerators.metadata transition)
       = Medium.
Proof.
  eexists. eexists. split; [reflexivity|]. split; [reflexivity|].
  destruct (proj1 (theme_and_transition_cues (Ok Samples.pianoTrack)
                     Samples.mansionBible)
              "The Mansion" "A night in a haunted house" _ eq_refl)
    as (track1 & Htrack1 & _ & Hhigh & _).
  destruct (proj2 (theme_and_transition_cues (Ok Samples.pianoTrack)
                     Samples.mansionBible)
              "hall" "cellar" _ eq_refl)
    as (track2 & Htrack2 & _ & Hprio & _).
  split; [exact Hhigh|].
  injection Htrack2 as <-. exact Hprio.
Defined.

Lemma dramatic_impacts_spaced_and_bounded_witness :
  exists cues,
    SfxGenerators.generateDramaticImpacts
      (Ok [MoreSamples.thunderImpact; MoreSamples.thunderImpact])
      Samples.mansionBible ["Lightning strikes"; "The door slams"]
    = Ok cues
    /\ length cues = 2%nat.
Proof.
  eexists. split; [reflexivity|].
  destruct (dramatic_impacts_spaced_and_bounded
              (Ok [MoreSamples.thunderImpact; MoreSamples.thunderImpact])
              Samples.mansionBible ["Lightning strikes"; "The door slams"]
              _ eq_refl)
    as (impacts & Himpacts & Hlen & _).
  injection Himpacts as <-. exact Hlen.
Defined.

Lemma musical_transition_trigger_and_bounds_witness :
  exists tagged,
    SfxGenerators.generateMusicalTransitions (Ok MoreSamples.stringSweep)
      Samples.mansionBible "time-jump" = Ok tagged
    /\ SFXAgent.trigger (SfxGenerators.cue tagged)
       = "[SFX=musical_time_jump]".
Proof.
  eexists. split; [reflexivity|].
  exact (proj1 (musical_transition_trigger_and_bounds
                  (Ok MoreSamples.stringSweep) Samples.mansionBible
                  SfxGenerators.TimeJump _ eq_refl)).
Defined.

Lemma append_assoc (a b c : string) : (a +:+ b) +:+ c = a +:+ b +:+ c.
Proof.
  induction a as [|x a IH]; [reflexivity|].
  change (String x ((a +:+ b) +:+ c) = String x (a +:+ b +:+ c)).
  f_equal. exact IH.
Qed.

Lemma append_empty_r (s : string) : s +:+ "" = s.
Proof.
  induction s as [|x s IH]; [reflexivity|].
  change (String x (s +:+ "") = String x s). f_equal. exact IH.
Qed.

Lemma fold_left_triggers plan text :
  List.fold_left (fun text sfx => text +:+ " " +:+ SFXAgent.trigger sfx)
    plan text
  = text +:+ List.fold_right
               (fun sfx rest => " " +:+ SFXAgent.trigger sfx +:+ rest)
               "" plan.
Proof.
  revert text. induction plan as [|sfx plan IH]; intros text.
  - cbn [List.fold_left List.fold_right]. symmetry. apply append_empty_r.
  - cbn [List.fold_left List.fold_right]. rewrite IH.
    rewrite !append_assoc. reflexivity.
Qed.

Lemma countedDuration_bounds sfx :
  SFXAgent.soundEffectOk sfx = true ->
  ((1 # 2) <= SfxGenerators.countedDuration (SFXAgent.toCue 1 sfx) <= 30)%Q.
Proof.
  intros Hok. pose proof (proj2 (toCue_bounds 1 sfx Hok)) as Hd.
  unfold SfxGenerators.countedDuration, SfxGenerators.truthyDuration.
  destruct (SFXAgent.durationSeconds
              (SFXAgent.metadata (SFXAgent.toCue 1 sfx))) as [| |d];
    cbn [default]; try (split; discriminate).
  destruct (Qeq_bool d 0); cbn [default]; [split; discriminate|].
  apply Hd. reflexivity.
Qed.

Lemma fold_left_durations effects acc :
  forallb SFXAgent.soundEffectOk effects = true ->
  let total :=
    List.fold_left
      (fun total sfx => (total + SfxGenerators.countedDuration sfx)%Q)
      (List.map (SFXAgent.toCue 1) effects) acc in
  (acc + inject_Z (Z.of_nat (length effects)) * (1 # 2) <= total)%Q
  /\ (total <= acc + inject_Z (Z.of_nat (length effects)) * 30)%Q.
Proof.
  revert acc. induction effects as [|sfx effects IH]; intros acc Hall.
  - cbn. change (inject_Z (Z.of_nat 0)) with 0%Q. split; lra.
  - cbn [forallb] in Hall. apply andb_true_iff in Hall as [Hok Hall].
    cbn [List.map List.fold_left length].
    destruct (IH (acc + SfxGenerators.countedDuration
                          (SFXAgent.toCue 1 sfx))%Q Hall) as [Hlo Hhi].
    pose proof (countedDuration_bounds sfx Hok) as [Hdlo Hdhi].
    rewrite Nat2Z.inj_succ. unfold Z.succ. rewrite inject_Z_plus.
    change (inject_Z 1) with 1%Q. cbv zeta in *.
    set (c := SfxGenerators.countedDuration (SFXAgent.toCue 1 sfx)) in *.
    set (m := inject_Z (Z.of_nat (length effects))) in *.
    set (total := List.fold_left _ _ _) in *.
    clearbody c m total. split; lra.
Qed.

Lemma ratioAbove_zero estimated bound :
  (0 <= bound)%Q -> SfxGenerators.ratioAbove 0 estimated bound = false.
Proof.
  intros Hb. unfold SfxGenerators.ratioAbove.
  destruct (Qeq_bool estimated 0) eqn:Hz; [reflexivity|].
  destruct (Qle_bool 0 estimated) eqn:Hpos.
  - apply Qle_bool_iff in Hpos. apply negb_false_iff, Qle_bool_iff.
    apply Qmult_le_0_compat; assumption.
  - apply negb_false_iff, Qle_bool_iff.
    assert (Hneg : (estimated <= 0)%Q).
    { destruct (Qlt_le_dec 0 estimated) as [Hlt|Hle]; [|exact Hle].
      apply Qlt_le_weak, Qle_bool_iff in Hlt. congruence. }
    nra.
Qed.

(** X23.  The scene SFX plan.  [createSceneSFXPlan] generates for scene
    number 1 whatever scene it plans.  A returned plan has at most eight
    cues, one API call per cue in the order of the cues, and a total
    duration between half a second and thirty seconds per cue (a cue
    without a duration counts three seconds).  The narration with
    triggers is the narration followed by the triggers, each after a
    space: the triggers are appended, not placed in the text.  A call
    carries the text of its cue, the duration when the cue has one, and
    the prompt influence unless it equals the default 0.3.  A plan
    without cues is rated light for every estimated scene duration. *)
Theorem scene_sfx_plan_shape generated bible narration estimated plan :
  SfxGenerators.createSceneSFXPlan generated bible narration estimated
  = Ok plan ->
  let cues := SfxGenerators.sfxPlan plan in
  let n := inject_Z (Z.of_nat (length cues)) in
  SFXAgent.generateSceneSFX generated bible narration 1 = Ok cues
  /\ (length cues <= 8)%nat
  /\ (forall sfx, In sfx cues ->
        SFXAgent.sceneNumber (SFXAgent.metadata sfx) = Some 1)
  /\ SfxGenerators.narrationWithTriggers plan
     = narration
       +:+ List.fold_right
             (fun sfx rest => " " +:+ SFXAgent.trigger sfx +:+ rest)
             "" cues
  /\ (n * (1 # 2) <= SfxGenerators.totalSFXDuration plan <= n * 30)%Q
  /\ length (SfxGenerators.elevenlabsCalls plan) = length cues
  /\ (forall i sfx,
        cues !! i = Some sfx ->
        exists call,
          SfxGenerators.elevenlabsCalls plan !! i = Some call
          /\ SfxGenerators.text call = SFXAgent.cue_description sfx
          /\ (forall d,
                SFXAgent.durationSeconds (SFXAgent.metadata sfx) = Value d ->
                SfxGenerators.duration_seconds call = Some d)
          /\ ((forall d,
                 SFXAgent.durationSeconds (SFXAgent.metadata sfx)
                 <> Value d) ->
              SfxGenerators.duration_seconds call = None)
          /\ (SfxGenerators.prompt_influence call = None
              <-> (SFXAgent.promptInfluence (SFXAgent.metadata sfx)
                   == 3 # 10)%Q))
  /\ (cues = [] ->
      SfxGenerators.audioBalance plan
      = SfxGenerators.audioBalanceText SfxGenerators.LightUsage).
Proof.
  unfold SfxGenerators.createSceneSFXPlan, SFXAgent.generateSceneSFX.
  destruct (generateObject SFXAgent.SFXSchema generated)
    as [effects|e] eqn:Hg; [|discriminate].
  intros [= <-]. apply generateObject_ok in Hg as [_ Hs].
  unfold SFXAgent.SFXSchema in Hs. apply andb_true_iff in Hs as [Hall Hlen].
  apply Nat.leb_le in Hlen.
  cbv zeta.
  cbn [SfxGenerators.sfxPlan SfxGenerators.totalSFXDuration
       SfxGenerators.audioBalance SfxGenerators.narrationWithTriggers
       SfxGenerators.elevenlabsCalls].
  split; [reflexivity|].
  split; [rewrite List.length_map; exact Hlen|].
  split.
  { intros sfx Hin. apply List.in_map_iff in Hin as (effect & <- & _).
    reflexivity. }
  split; [apply fold_left_triggers|].
  split.
  { rewrite List.length_map.
    pose proof (fold_left_durations effects 0%Q Hall) as [Hlo Hhi].
    cbv zeta in Hlo, Hhi. split; lra. }
  split; [rewrite !List.length_map; reflexivity|].
  split.
  { intros i sfx Hi.
    change (List.map (SFXAgent.toCue 1) effects)
      with (SFXAgent.toCue 1 <$> effects) in Hi |- *.
    change (List.map SfxGenerators.toApiCall (SFXAgent.toCue 1 <$> effects))
      with (SfxGenerators.toApiCall <$> (SFXAgent.toCue 1 <$> effects)).
    exists (SfxGenerators.toApiCall sfx).
    split; [rewrite list_lookup_fmap, Hi; reflexivity|].
    rewrite list_lookup_fmap in Hi.
    destruct (effects !! i) as [effect|] eqn:Heffect; [|discriminate].
    injection Hi as <-.
    pose proof (forallb_lookup _ _ _ _ Hall Heffect) as Hok.
    pose proof (proj2 (toCue_bounds 1 effect Hok)) as Hd.
    split.
    { unfold SfxGenerators.toApiCall, SfxGenerators.callText.
      cbn [SfxGenerators.text SFXAgent.toCue SFXAgent.metadata
           SFXAgent.elevenLabsText SFXAgent.cue_description].
      destruct (String.eqb (SFXAgent.sfx_text effect) ""); reflexivity. }
    split.
    { intros d Hval. specialize (Hd d Hval).
      unfold SfxGenerators.toApiCall.
      cbn [SfxGenerators.duration_seconds]. rewrite Hval.
      unfold SfxGenerators.truthyDuration.
      destruct (Qeq_bool d 0) eqn:Hz; [|reflexivity].
      apply Qeq_bool_iff in Hz. lra. }
    split.
    { intros Hnone. unfold SfxGenerators.toApiCall.
      cbn [SfxGenerators.duration_seconds].
      destruct (SFXAgent.durationSeconds
                  (SFXAgent.metadata (SFXAgent.toCue 1 effect)))
        as [| |d]; try reflexivity.
      exfalso. exact (Hnone d eq_refl). }
    unfold SfxGenerators.toApiCall. cbn [SfxGenerators.prompt_influence].
    destruct (Qeq_bool _ (3 # 10)) eqn:Hq.
    - apply Qeq_bool_iff in Hq. split; [intros _; exact Hq|reflexivity].
    - split; [discriminate|]. intros Heq.
      apply Qeq_bool_iff in Heq. congruence. }
  intros Hnil. destruct effects; [|discriminate].
  cbn [List.map List.fold_left]. unfold SfxGenerators.balanceOf.
  rewrite !ratioAbove_zero; [reflexivity| |]; discriminate.
Qed.

Lemma scene_sfx_plan_shape_witness :
  exists plan,
    SfxGenerators.createSceneSFXPlan (Ok [Samples.doorCreak])
      Samples.mansionBible "The door creaks open." 60 = Ok plan
    /\ SfxGenerators.narrationWithTriggers plan
       = "The door creaks open. [SFX=door_creak]"
    /\ length (SfxGenerators.elevenlabsCalls plan) = 1%nat.
Proof.
  eexists. split; [reflexivity|].
  pose proof (scene_sfx_plan_shape (Ok [Samples.doorCreak])
                Samples.mansionBible "The door creaks open." 60 _ eq_refl)
    as (_ & _ & _ & Htext & _ & Hcalls & _).
  split; [exact Htext|exact Hcalls].
Defined.

End AudioGenerators.

(** ** Callback lookup and the scene generation tool *)

Section CallbackLookup.

Lemma findSuggested_some card id a :
  Callbacks.findSuggested card id = Some a ->
  In a (anchors card) /\ id = Some (anchor_id a).
Proof.
  unfold Callbacks.findSuggested. destruct id as [anchorId|]; [|discriminate].
  destruct (String.eqb anchorId ""); [discriminate|].
  intros Hfind. apply List.find_some in Hfind as [Hin Heq].
  apply String.eqb_eq in Heq. subst anchorId. auto.
Qed.

Lemma findSuggested_none card id :
  (forall a, In a (anchors card) -> id <> Some (anchor_id a)) ->
  Callbacks.findSuggested card id = None.
Proof.
  intros Hnone.
  destruct (Callbacks.findSuggested card id) as [a|] eqn:Hfind;
    [|reflexivity].
  apply findSuggested_some in Hfind as [Hin Hid].
  exfalso. exact (Hnone a Hin Hid).
Qed.

(** X24.  The anchor of a callback suggestion.  In [analyzeCallbacks] of
    the continuity agent and in [suggestCallbackOpportunities] of the
    state agent the suggested anchor is looked up on the state card by the
    id the provider named: an anchor that is returned is on the card and
    carries that id, whether or not it is marked as used.  When the
    provider names no id or an id that no anchor of the card has, no
    anchor is returned while the flag [shouldUseCallback] is still the
    provider's; the scene planner then receives the reason of the callback
    and no anchor description. *)
Theorem suggested_anchor_is_looked_up_on_the_card card context :
  (forall generated suggestion,
      Callbacks.analyzeCallbacks generated card context = Ok suggestion ->
      exists analysis,
        generated = Ok analysis
        /\ shouldUseCallback suggestion
           = Callbacks.a_shouldUseCallback analysis
        /\ (forall a,
              suggestedAnchor suggestion = Some a ->
              In a (anchors card)
              /\ Callbacks.a_suggestedAnchorId analysis
                 = Some (anchor_id a))
        /\ ((forall a,
               In a (anchors card) ->
               Callbacks.a_suggestedAnchorId analysis
               <> Some (anchor_id a)) ->
            suggestedAnchor suggestion = None
            /\ ScenePlanner.callbackOpportunity (JsCallback suggestion)
               = if Callbacks.a_shouldUseCallback analysis
                 then Some (Callbacks.a_reason analysis, None)
                 else None))
  /\ (forall generated opportunity,
      Callbacks.suggestCallbackOpportunities generated card context
      = Ok opportunity ->
      exists suggestion,
        generated = Ok suggestion
        /\ Callbacks.r_shouldUseCallback opportunity
           = Callbacks.o_shouldUseCallback suggestion
        /\ (forall a,
              Callbacks.r_suggestedAnchor opportunity = Some a ->
              In a (anchors card)
              /\ Callbacks.o_suggestedAnchorId suggestion
                 = Some (anchor_id a))
        /\ ((forall a,
               In a (anchors card) ->
               Callbacks.o_suggestedAnchorId suggestion
               <> Some (anchor_id a)) ->
            Callbacks.r_suggestedAnchor opportunity = None)).
Proof.
  split.
  - intros generated suggestion. unfold Callbacks.analyzeCallbacks.
    destruct generated as [analysis|e]; [|discriminate].
    intros [= <-]. exists analysis. split; [reflexivity|].
    split; [reflexivity|].
    cbn [suggestedAnchor shouldUseCallback reason]. split.
    + intros a Ha. exact (findSuggested_some _ _ _ Ha).
    + intros Hnone. pose proof (findSuggested_none _ _ Hnone) as Hfind.
      split; [exact Hfind|].
      unfold ScenePlanner.callbackOpportunity.
      cbn [suggestedAnchor shouldUseCallback reason].
      rewrite Hfind. reflexivity.
  - intros generated opportunity.
    unfold Callbacks.suggestCallbackOpportunities.
    destruct generated as [suggestion|e]; [|discriminate].
    intros [= <-]. exists suggestion. split; [reflexivity|].
    split; [reflexivity|].
    cbn [Callbacks.r_suggestedAnchor]. split.
    + intros a Ha. exact (findSuggested_some _ _ _ Ha).
    + intros Hnone. exact (findSuggested_none _ _ Hnone).
Qed.

(** On the sample card the provider's id finds the brass key, which is
    marked as used; an id the card does not have finds nothing although
    the callback is still asked for. *)
Lemma suggested_anchor_is_looked_up_on_the_card_witness :
  exists found stray,
    Callbacks.analyzeCallbacks (Ok MoreSamples.keyCallback)
      Samples.mansionCard "The cellar door" = Ok found
    /\ Callbacks.analyzeCallbacks (Ok MoreSamples.strayCallback)
         Samples.mansionCard "The cellar door" = Ok stray
    /\ suggestedAnchor found = Some Samples.brassKey
    /\ isUsed Samples.brassKey = true
    /\ In Samples.brassKey (anchors Samples.mansionCard)
    /\ shouldUseCallback stray = true
    /\ suggestedAnchor stray = None.
Proof.
  eexists. eexists. split; [reflexivity|]. split; [reflexivity|].
  destruct (proj1 (suggested_anchor_is_looked_up_on_the_card
                     Samples.mansionCard "The cellar door")
              (Ok MoreSamples.keyCallback) _ eq_refl)
    as (analysis1 & _ & _ & Hfound & _).
  destruct (proj1 (suggested_anchor_is_looked_up_on_the_card
                     Samples.mansionCard "The cellar door")
              (Ok MoreSamples.strayCallback) _ eq_refl)
    as (analysis2 & Hanalysis2 & Hflag & _ & Hstray).
  injection Hanalysis2 as <-.
  split; [reflexivity|]. split; [reflexivity|].
  split; [exact (proj1 (Hfound Samples.brassKey eq_refl))|].
  split; [exact Hflag|].
  apply Hstray. intros a [<-|[]]. discriminate.
Defined.

(** X25.  The scene generation tool of the scene planner never returns a
    scene.  Its [execute] calls [generateScene] with four arguments where
    the method has five parameters, so the state card arrives as the
    episode bible and the scene number as the state card; building the
    prompt throws before the provider is asked, and the tool reports the
    failure, for every provider, premise, state card, scene number and
    callback anchor. *)
Theorem scene_generation_tool_never_succeeds provider premise card
    sceneNumber callbackAnchor :
  SceneTool.execute provider premise card sceneNumber callbackAnchor
  = SceneTool.SceneFailed
      (TypeError "Cannot read properties of undefined (reading 'join')")
  /\ forall scene,
       SceneTool.execute provider premise card sceneNumber callbackAnchor
       <> SceneTool.SceneGenerated scene.
Proof.
  split; [reflexivity|]. intros scene. discriminate.
Qed.

End CallbackLookup.

(** ** Helpers of the audio tools *)

Section AudioToolHelpers.

Lemma prefix_append (a b : string) : String.prefix a (a +:+ b) = true.
Proof.
  induction a as [|c a IH]; [destruct b; reflexivity|].
  change (String.prefix (String c a) (String c (a +:+ b)) = true).
  cbn [String.prefix]. destruct (Ascii.ascii_dec c c); [exact IH|congruence].
Qed.

Lemma prefix_append_l (sub s1 s2 : string) :
  String.prefix sub s1 = true -> String.prefix sub (s1 +:+ s2) = true.
Proof.
  revert s1. induction sub as [|c sub IH]; intros s1 H.
  - destruct (s1 +:+ s2); reflexivity.
  - destruct s1 as [|d s1]; [discriminate|].
    change (String.prefix (String c sub) (String d (s1 +:+ s2)) = true).
    cbn [String.prefix] in H |- *.
    destruct (Ascii.ascii_dec c d); [|discriminate]. apply IH. exact H.
Qed.

Lemma includes_here (sub rest : string) : includes (sub +:+ rest) sub = true.
Proof.
  destruct (sub +:+ rest) eqn:E; cbn [includes]; rewrite <- E;
    rewrite prefix_append; reflexivity.
Qed.

Lemma includes_append_r (s1 s2 sub : string) :
  includes s2 sub = true -> includes (s1 +:+ s2) sub = true.
Proof.
  intros H. induction s1 as [|c s1 IH]; [exact H|].
  change (includes (String c (s1 +:+ s2)) sub = true).
  cbn [includes]. rewrite IH. destruct (String.prefix _ _); reflexivity.
Qed.

Lemma includes_append_l (s1 s2 sub : string) :
  includes s1 sub = true -> includes (s1 +:+ s2) sub = true.
Proof.
  induction s1 as [|c s1 IH]; intros H.
  - cbn [includes] in H.
    destruct (String.prefix sub "") eqn:Hp; [|discriminate].
    destruct sub; [|discriminate].
    change ("" +:+ s2) with s2. destruct s2; reflexivity.
  - cbn [includes] in H.
    change (includes (String c (s1 +:+ s2)) sub = true). cbn [includes].
    destruct (String.prefix sub (String c s1)) eqn:Hp.
    + apply (prefix_append_l _ _ s2) in Hp.
      change (String c s1 +:+ s2) with (String c (s1 +:+ s2)) in Hp.
      rewrite Hp. reflexivity.
    + rewrite (IH H).
      destruct (String.prefix sub (String c (s1 +:+ s2))); reflexivity.
Qed.

(** X26.  The prompt of the music tool.  For every style, description and
    duration, and whatever the run time makes of lower-casing, number
    printing and inherited keys, the prompt [createMusicPrompt] returns
    contains "instrumental only" and the printed duration; and unless the
    lower-cased style is a key the table only inherits, it contains the
    description.  The tool therefore always asks for instrumental music,
    where the music agent leaves the flag to the provider. *)
Theorem music_prompt_always_instrumental toLowerCase numberText inherited
    style description duration :
  let prompt :=
    AudioTools.createMusicPrompt toLowerCase numberText inherited style
      description duration in
  includes prompt MusicAgent.instrumentalMarker = true
  /\ includes prompt (numberText duration) = true
  /\ (inherited (toLowerCase style) = None ->
      includes prompt description = true).
Proof.
  cbv zeta. unfold AudioTools.createMusicPrompt.
  split; [|split].
  - do 2 apply includes_append_r. apply includes_append_r.
    vm_compute. reflexivity.
  - apply includes_append_r, includes_append_r, includes_here.
  - intros Hown. rewrite Hown. apply includes_append_l.
    unfold AudioTools.ownStylePrompt.
    repeat (destruct (String.eqb _ _);
            [apply includes_append_r, includes_here|]).
    do 3 apply includes_append_r. apply includes_here.
Qed.

Lemma music_prompt_always_instrumental_witness :
  includes
    (AudioTools.createMusicPrompt (fun s => s) (fun _ => "30")
       (fun _ => None) "noir" "rain on the harbour" 30)
    "rain on the harbour" = true.
Proof.
  exact (proj2 (proj2 (music_prompt_always_instrumental
                         (fun s => s) (fun _ => "30") (fun _ => None)
                         "noir" "rain on the harbour" 30)) eq_refl).
Defined.

Lemma detect_spec test narration patterns index c :
  In c (AudioTools.detect test narration index patterns)
  <-> exists k sfx patternDescription,
        patterns !! k = Some (sfx, patternDescription)
        /\ test (index + k)%nat narration = true
        /\ c = {| AudioTools.type := Sfx;
                  AudioTools.trigger := "[SFX=" +:+ sfx +:+ "]";
                  AudioTools.cue_description := patternDescription;
                  AudioTools.timing := Z.of_nat (index + k) * 5 + 3 |}.
Proof.
  revert index. induction patterns as [|[sfx d] rest IH]; intros index.
  - cbn [AudioTools.detect]. split; [intros []|].
    intros (k & s & pd & Hk & _). rewrite lookup_nil in Hk. discriminate.
  - cbn [AudioTools.detect]. rewrite List.in_app_iff, IH. split.
    + intros [Hhead|(k & s & pd & Hk & Ht & ->)].
      * destruct (test index narration) eqn:Ht; [|destruct Hhead].
        destruct Hhead as [<-|[]]. exists 0%nat, sfx, d.
        rewrite Nat.add_0_r. auto.
      * exists (S k), s, pd. rewrite <- Nat.add_succ_comm. auto.
    + intros (k & s & pd & Hk & Ht & ->). destruct k as [|k].
      * left. rewrite Nat.add_0_r in *. cbn in Hk. injection Hk as <- <-.
        rewrite Ht. left. reflexivity.
      * right. exists k, s, pd. rewrite Nat.add_succ_comm. auto.
Qed.

Lemma detect_length test narration patterns index :
  (length (AudioTools.detect test narration index patterns)
   <= length patterns)%nat.
Proof.
  revert index. induction patterns as [|[sfx d] rest IH]; intros index.
  - reflexivity.
  - cbn [AudioTools.detect]. rewrite List.length_app.
    specialize (IH (S index)).
    destruct (test index narration); cbn [length] in *; lia.
Qed.

Lemma detect_sorted test narration patterns index :
  StronglySorted
    (fun a b => AudioTools.timing a < AudioTools.timing b)
    (AudioTools.detect test narration index patterns).
Proof.
  revert index. induction patterns as [|[sfx d] rest IH]; intros index.
  - constructor.
  - cbn [AudioTools.detect]. destruct (test index narration).
    + cbn [app]. constructor; [apply IH|].
      apply List.Forall_forall. intros c Hc.
      apply detect_spec in Hc as (k & s & pd & _ & _ & ->).
      cbn [AudioTools.timing]. lia.
    + cbn [app]. apply IH.
Qed.

(** X27.  SFX opportunities.  Whatever the ten regular expressions match,
    [analyzeSFXOpportunities] returns exactly one cue per matching
    pattern, with the trigger and description of the pattern and the
    timing [5 * index + 3]; so the cues are at most ten, come in strictly
    increasing timing between 3 and 48 seconds, and none is returned when
    nothing matches.  The style argument plays no role. *)
Theorem sfx_opportunities_follow_the_patterns test narration style :
  let cues := AudioTools.analyzeSFXOpportunities test narration style in
  (forall c,
      In c cues
      <-> exists index sfx patternDescription,
            AudioTools.sfxPatterns !! index = Some (sfx, patternDescription)
            /\ test index narration = true
            /\ c = {| AudioTools.type := Sfx;
                      AudioTools.trigger := "[SFX=" +:+ sfx +:+ "]";
                      AudioTools.cue_description := patternDescription;
                      AudioTools.timing := Z.of_nat index * 5 + 3 |})
  /\ StronglySorted
       (fun a b => AudioTools.timing a < AudioTools.timing b) cues
  /\ (length cues <= 10)%nat
  /\ (forall c, In c cues -> 3 <= AudioTools.timing c <= 48)
  /\ ((forall index, test index narration = false) -> cues = [])
  /\ cues = AudioTools.analyzeSFXOpportunities test narration "".
Proof.
  cbv zeta. unfold AudioTools.analyzeSFXOpportunities.
  assert (Hspec := fun c => detect_spec test narration AudioTools.sfxPatterns
                              0 c).
  cbn [Nat.add] in Hspec.
  split; [exact Hspec|].
  split; [apply detect_sorted|].
  split; [apply (detect_length test narration AudioTools.sfxPatterns 0)|].
  split.
  - intros c Hc. apply Hspec in Hc as (k & s & pd & Hk & _ & ->).
    cbn [AudioTools.timing].
    apply lookup_lt_Some in Hk. cbn in Hk. lia.
  - split; [|reflexivity]. intros Hnone.
    destruct (AudioTools.detect test narration 0 AudioTools.sfxPatterns)
      as [|c cues] eqn:Hcues; [reflexivity|].
    exfalso. destruct (proj1 (Hspec c) (or_introl eq_refl))
      as (k & _ & _ & _ & Ht & _).
    rewrite Hnone in Ht. discriminate.
Qed.

Lemma sfx_opportunities_follow_the_patterns_witness :
  List.map AudioTools.timing
    (AudioTools.analyzeSFXOpportunities MoreSamples.stormAndScream
       "Thunder rolls. Someone screams." "horror")
  = [13; 38]
  /\ 3 <= 13 <= 48.
Proof.
  split; [reflexivity|].
  exact (proj1 (proj2 (proj2 (proj2
           (sfx_opportunities_follow_the_patterns MoreSamples.stormAndScream
              "Thunder rolls. Someone screams." "horror"))))
           {| AudioTools.type := Sfx;
              AudioTools.trigger := "[SFX=thunder]";
              AudioTools.cue_description := "Thunder crash";
              AudioTools.timing := 13 |}
           (or_introl eq_refl)).
Defined.

End AudioToolHelpers.
